(** * filepathfilter: include/exclude path filtering (git-lfs)

    A shallow embedding of [filepathfilter/filepathfilter.go] together with
    the parts of the Go standard library it calls ([strings],
    [path/filepath], [regexp], [unicode/utf8]), on a Unix host: the path
    separator is [/] and the path-list separator is [:].

    Go strings are byte sequences; they are modelled by [string] (a list of
    8-bit [ascii]).  A run-time panic (index or slice out of range, a failed
    [regexp.MustCompile]) is the value [Panic] of the [result] monad; a nil
    pointer is [None]. *)

From Stdlib Require Import Strings.String Strings.Ascii Lists.List Bool.Bool.
From Stdlib Require Import Arith.Arith NArith.NArith Lia.
From Stdlib Require Import Sorting.Permutation.
Import ListNotations.

Open Scope list_scope.
Open Scope string_scope.
Open Scope nat_scope.

(** ** Panics *)

Inductive result (A : Type) : Type :=
| Ok (a : A)
| Panic.
Arguments Ok {A} a.
Arguments Panic {A}.

Definition bind {A B : Type} (m : result A) (k : A -> result B) : result B :=
  match m with
  | Ok a => k a
  | Panic => Panic
  end.

Notation "x <- m ;; k" := (bind m (fun x => k))
  (at level 61, m at next level, right associativity).

(** ** Byte strings: slicing *)

(** [drop n s] is Go's [s[n:]] and [take n s] is [s[:n]], for [n <= len(s)]. *)
Fixpoint drop (n : nat) (s : string) : string :=
  match n, s with
  | S n', String _ s' => drop n' s'
  | _, _ => s
  end.

Fixpoint take (n : nat) (s : string) : string :=
  match n, s with
  | S n', String c s' => String c (take n' s')
  | _, _ => ""
  end.

Fixpoint rev (s : string) : string :=
  match s with
  | "" => ""
  | String c s' => rev s' ++ String c ""
  end.

Definition is_empty (s : string) : bool :=
  match s with
  | "" => true
  | _ => false
  end.

(** ** unicode/utf8 *)

Module utf8.

Local Open Scope N_scope.

Definition RuneError : N := 65533.

(** The [first] and [acceptRanges] tables: for a leading byte, the length of
    the sequence and the range the second byte must lie in. *)
Definition first (s0 : N) : option (nat * N * N) :=
  if (194 <=? s0) && (s0 <=? 223) then Some (2%nat, 128, 191)
  else if s0 =? 224 then Some (3%nat, 160, 191)
  else if (225 <=? s0) && (s0 <=? 236) then Some (3%nat, 128, 191)
  else if s0 =? 237 then Some (3%nat, 128, 159)
  else if (238 <=? s0) && (s0 <=? 239) then Some (3%nat, 128, 191)
  else if s0 =? 240 then Some (4%nat, 144, 191)
  else if (241 <=? s0) && (s0 <=? 243) then Some (4%nat, 128, 191)
  else if s0 =? 244 then Some (4%nat, 128, 143)
  else None.

Definition cont (b : N) : bool := (128 <=? b) && (b <=? 191).

Definition low (bits : N) (b : N) : N := N.land b (N.ones bits).

(** [DecodeRuneInString s] is the first rune of [s] and its width in bytes;
    an invalid or short encoding is [(RuneError, 1)], the empty string
    [(RuneError, 0)]. *)
Definition DecodeRuneInString (s : string) : N * nat :=
  match s with
  | "" => (RuneError, 0%nat)
  | String c0 t =>
      let s0 := N_of_ascii c0 in
      if s0 <? 128 then (s0, 1%nat)
      else
        match first s0 with
        | None => (RuneError, 1%nat)
        | Some (sz, lo, hi) =>
            match t with
            | "" => (RuneError, 1%nat)
            | String c1 t1 =>
                let s1 := N_of_ascii c1 in
                if (s1 <? lo) || (hi <? s1) then (RuneError, 1%nat)
                else if (sz <=? 2)%nat then
                  (N.lor (N.shiftl (low 5 s0) 6) (low 6 s1), 2%nat)
                else
                  match t1 with
                  | "" => (RuneError, 1%nat)
                  | String c2 t2 =>
                      let s2 := N_of_ascii c2 in
                      if negb (cont s2) then (RuneError, 1%nat)
                      else if (sz <=? 3)%nat then
                        (N.lor (N.shiftl (low 4 s0) 12)
                           (N.lor (N.shiftl (low 6 s1) 6) (low 6 s2)), 3%nat)
                      else
                        match t2 with
                        | "" => (RuneError, 1%nat)
                        | String c3 _ =>
                            let s3 := N_of_ascii c3 in
                            if negb (cont s3) then (RuneError, 1%nat)
                            else
                              (N.lor (N.shiftl (low 3 s0) 18)
                                 (N.lor (N.shiftl (low 6 s1) 12)
                                    (N.lor (N.shiftl (low 6 s2) 6) (low 6 s3))), 4%nat)
                        end
                  end
            end
        end
  end.

End utf8.

(** ** strings *)

Module strings.

Definition HasPrefix (s prefix : string) : bool := String.prefix prefix s.

Definition HasSuffix (s suffix : string) : bool :=
  (String.length suffix <=? String.length s)
  && String.eqb (drop (String.length s - String.length suffix) s) suffix.

(** [cut sep s] splits [s] around the first instance of [sep]:
    [Some (s[:m], s[m+len(sep):])] where [m = Index(s, sep)], and [None]
    when [Index] is negative. *)
Fixpoint cut (sep s : string) : option (string * string) :=
  if String.prefix sep s then Some ("", drop (String.length sep) s)
  else
    match s with
    | "" => None
    | String c s' =>
        match cut sep s' with
        | Some (a, b) => Some (String c a, b)
        | None => None
        end
    end.

Definition Contains (s substr : string) : bool :=
  match cut substr s with
  | Some _ => true
  | None => false
  end.

(** A slice of strings: its backing array [arr] (whose length is the
    capacity) and its length [len]. *)
Record slice : Type := mkSlice { arr : list string; len : nat }.

(** [a[i]] *)
Definition index (a : slice) (i : nat) : result string :=
  if i <? len a then
    match nth_error (arr a) i with
    | Some x => Ok x
    | None => Panic
    end
  else Panic.

(** [a[:i]], legal up to the capacity. *)
Definition upto (a : slice) (i : nat) : result (list string) :=
  if i <=? List.length (arr a) then Ok (firstn i (arr a)) else Panic.

(** The loop of [genSplit]: at most [k] cuts. *)
Fixpoint fill (k : nat) (sep s : string) : list string :=
  match k with
  | 0 => [s]
  | S k' =>
      match cut sep s with
      | None => [s]
      | Some (a, b) => a :: fill k' sep b
      end
  end.

(** [SplitN(s, sep, n)] for a non-empty [sep] and [n > 0] (the package only
    splits on [/], [:] and [*]): [n] is clipped to [len(s)+1], the array
    is made with that many elements and the result is a prefix of it. *)
Definition SplitN (s sep : string) (n : nat) : slice :=
  let n := Nat.min n (String.length s + 1) in
  let a := fill (n - 1) sep s in
  mkSlice (a ++ repeat "" (n - List.length a))%list (List.length a).

(** [Split(s, sep)] is [SplitN] with [n = Count(s, sep) + 1], which is at
    most [len(s) + 1]. *)
Definition Split (s sep : string) : list string := fill (String.length s) sep s.

Fixpoint Join (a : list string) (sep : string) : string :=
  match a with
  | [] => ""
  | [x] => x
  | x :: rest => x ++ sep ++ Join rest sep
  end.

Fixpoint replace (fuel : nat) (s old new : string) : string :=
  match fuel with
  | 0 => s
  | S fuel' =>
      match cut old s with
      | None => s
      | Some (a, b) => a ++ new ++ replace fuel' b old new
      end
  end.

(** [Replace(s, old, new, -1)] for a non-empty [old]. *)
Definition Replace (s old new : string) : string :=
  replace (String.length s) s old new.

End strings.

(** ** path/filepath (Unix) *)

Module filepath.

Definition Separator : ascii := "/"%char.
Definition ListSeparator : ascii := ":"%char.

Definition IsPathSeparator (c : ascii) : bool := Ascii.eqb c Separator.

(** The path name elements of [path]: the pieces between separators. *)
Fixpoint elements (path : string) : list string :=
  match path with
  | "" => [""]
  | String c rest =>
      if IsPathSeparator c then "" :: elements rest
      else
        match elements rest with
        | e :: es => String c e :: es
        | [] => [String c ""]
        end
  end.

(** One path name element read by [Clean].  [out] holds the elements
    written so far, the last one first.  An empty element and [.] are
    dropped; [..] removes the last element written unless there is none to
    remove (nothing written, or only leading [..] elements), in which case
    it is kept on a path that is not rooted and dropped on a rooted one;
    anything else is written. *)
Definition clean_step (rooted : bool) (out : list string) (e : string)
  : list string :=
  if String.eqb e "" || String.eqb e "." then out
  else if String.eqb e ".." then
    match out with
    | top :: out' => if String.eqb top ".." then ".." :: out else out'
    | [] => if rooted then [] else [".."]
    end
  else e :: out.

(** [Clean(path)]: the shortest path name equivalent to [path] by purely
    lexical processing: multiple separators become one, [.] elements are
    eliminated, an inner [..] is eliminated along with the element before
    it, [..] elements that begin a rooted path are eliminated, and the
    empty result is [.]. *)
Definition Clean (path : string) : string :=
  if is_empty path then "."
  else
    let rooted := String.prefix "/" path in
    let out := fold_left (clean_step rooted) (elements path) [] in
    let body := strings.Join (List.rev out) "/" in
    if rooted then "/" ++ body
    else if is_empty body then "." else body.

(** [Ext(path)]: the suffix beginning at the final dot in the final element
    of [path], empty if there is no dot.  [ext_scan] is the loop from the
    last byte backwards; [acc] is what was passed over. *)
Fixpoint ext_scan (r acc : string) : string :=
  match r with
  | "" => ""
  | String c r' =>
      if IsPathSeparator c then ""
      else if Ascii.eqb c "." then String c acc
      else ext_scan r' (String c acc)
  end.

Definition Ext (path : string) : string := ext_scan (rev path) "".

Fixpoint strip_separators (r : string) : string :=
  match r with
  | "" => ""
  | String c r' => if IsPathSeparator c then strip_separators r' else r
  end.

Fixpoint until_separator (r : string) : string :=
  match r with
  | "" => ""
  | String c r' => if IsPathSeparator c then "" else String c (until_separator r')
  end.

(** [Base(path)]: the last element of [path], trailing separators removed
    first; [.] for the empty path and [/] for a path of separators only. *)
Definition Base (path : string) : string :=
  if is_empty path then "."
  else
    let last := rev (until_separator (strip_separators (rev path))) in
    if is_empty last then "/" else last.

(** [SplitList(path)] splits a list of paths joined by the OS-specific
    [ListSeparator]; the empty string gives the empty list. *)
Definition SplitList (path : string) : list string :=
  if is_empty path then []
  else strings.Split path (String ListSeparator "").

(** *** [Match]: shell file name patterns *)

Inductive chunkResult : Type :=
| Rest (t : string)
| NoMatch
| BadPattern.

(** [getEsc]: a possibly escaped character of a character class. *)
Definition getEsc (chunk : string) : option (N * string) :=
  match chunk with
  | "" => None
  | String c rest =>
      if Ascii.eqb c "-" || Ascii.eqb c "]" then None
      else
        let chunk := if Ascii.eqb c "\" then rest else chunk in
        if is_empty chunk then None
        else
          let (r, n) := utf8.DecodeRuneInString chunk in
          let nchunk := drop n chunk in
          if (N.eqb r utf8.RuneError && (n =? 1)) || is_empty nchunk
          then None
          else Some (r, nchunk)
  end.

(** The ranges of a character class, up to its closing bracket. *)
Fixpoint ranges (fuel : nat) (r : N) (chunk : string) (nrange : nat)
  (matched : bool) : option (bool * string) :=
  match fuel with
  | 0 => None
  | S fuel' =>
      let more :=
        match getEsc chunk with
        | None => None
        | Some (lo, chunk1) =>
            let hi_rest :=
              match chunk1 with
              | String "-" rest => getEsc rest
              | _ => Some (lo, chunk1)
              end in
            match hi_rest with
            | None => None
            | Some (hi, chunk2) =>
                ranges fuel' r chunk2 (S nrange)
                  (matched || (N.leb lo r && N.leb r hi))
            end
        end in
      match chunk with
      | String "]" rest => if 0 <? nrange then Some (matched, rest) else more
      | _ => more
      end
  end.

(** [matchChunk]: does [chunk] (literals, classes and [?]) match the
    beginning of [s]?  After the match has failed the loop goes on reading
    [chunk] to check that it is well formed. *)
Fixpoint matchChunk_loop (fuel : nat) (chunk s : string) (failed : bool)
  : chunkResult :=
  match chunk with
  | "" => if failed then NoMatch else Rest s
  | String c chunk1 =>
      match fuel with
      | 0 => BadPattern
      | S fuel' =>
          let failed := failed || is_empty s in
          let literal (c : ascii) (chunk' : string) :=
            if failed then matchChunk_loop fuel' chunk' s true
            else
              match s with
              | String d s' => matchChunk_loop fuel' chunk' s' (negb (Ascii.eqb c d))
              | "" => matchChunk_loop fuel' chunk' s true
              end in
          if Ascii.eqb c "[" then
            let '(r, s1) :=
              if failed then (0%N, s)
              else let (r, n) := utf8.DecodeRuneInString s in (r, drop n s) in
            let '(negated, chunk2) :=
              match chunk1 with
              | String "^" t => (true, t)
              | _ => (false, chunk1)
              end in
            match ranges (S (String.length chunk2)) r chunk2 0 false with
            | None => BadPattern
            | Some (m, chunk3) =>
                matchChunk_loop fuel' chunk3 s1 (failed || Bool.eqb m negated)
            end
          else if Ascii.eqb c "?" then
            if failed then matchChunk_loop fuel' chunk1 s true
            else
              let sepfirst :=
                match s with
                | String d _ => IsPathSeparator d
                | "" => false
                end in
              let (_, n) := utf8.DecodeRuneInString s in
              matchChunk_loop fuel' chunk1 (drop n s) sepfirst
          else if Ascii.eqb c "\" then
            match chunk1 with
            | "" => BadPattern
            | String c' chunk2 => literal c' chunk2
            end
          else literal c chunk1
      end
  end.

Definition matchChunk (chunk s : string) : chunkResult :=
  matchChunk_loop (String.length chunk) chunk s false.

Fixpoint skipStars (pattern : string) : bool * string :=
  match pattern with
  | String "*" rest => (true, snd (skipStars rest))
  | _ => (false, pattern)
  end.

Fixpoint scan (inrange : bool) (pattern : string) : string * string :=
  match pattern with
  | "" => ("", "")
  | String c rest =>
      if Ascii.eqb c "\" then
        match rest with
        | "" => (String c "", "")
        | String d rest' =>
            let (a, b) := scan inrange rest' in (String c (String d a), b)
        end
      else if Ascii.eqb c "*" && negb inrange then ("", pattern)
      else
        let inrange :=
          if Ascii.eqb c "[" then true
          else if Ascii.eqb c "]" then false
          else inrange in
        let (a, b) := scan inrange rest in (String c a, b)
  end.

(** [scanChunk]: the next segment of the pattern, a star-free string
    possibly preceded by stars. *)
Definition scanChunk (pattern : string) : bool * string * string :=
  let (star, p) := skipStars pattern in
  let (chunk, rest) := scan false p in
  (star, chunk, rest).

Inductive starResult : Type :=
| Found (t : string)
| NotFound
| StarBad.

(** After a star: look for a match of [chunk] skipping [i+1] bytes of
    [name], never a separator; [last] says the pattern is exhausted. *)
Fixpoint starLoop (chunk : string) (last : bool) (name : string) : starResult :=
  match name with
  | "" => NotFound
  | String c name' =>
      if IsPathSeparator c then NotFound
      else
        match matchChunk chunk name' with
        | Rest t =>
            if last && negb (is_empty t) then starLoop chunk last name'
            else Found t
        | BadPattern => StarBad
        | NoMatch => starLoop chunk last name'
        end
  end.

Fixpoint Match_loop (fuel : nat) (pattern name : string) : option bool :=
  match pattern with
  | "" => Some (is_empty name)
  | _ =>
      match fuel with
      | 0 => None
      | S fuel' =>
          let '(star, chunk, pattern') := scanChunk pattern in
          if star && is_empty chunk then
            Some (negb (strings.Contains name (String Separator "")))
          else
            let after_star :=
              if star then
                match starLoop chunk (is_empty pattern') name with
                | Found t => Match_loop fuel' pattern' t
                | NotFound => Some false
                | StarBad => None
                end
              else Some false in
            match matchChunk chunk name with
            | Rest t =>
                if is_empty t || negb (is_empty pattern')
                then Match_loop fuel' pattern' t
                else after_star
            | BadPattern => None
            | NoMatch => after_star
            end
      end
  end.

(** [Match(pattern, name)]: [Some matched], or [None] for [ErrBadPattern]
    (with which Go returns [matched = false]). *)
Definition Match (pattern name : string) : option bool :=
  Match_loop (String.length pattern) pattern name.

End filepath.

(** ** regexp

    The package compiles only expressions of the shape [^q$] where [q] is
    [QuoteMeta] of a cleaned pattern in which some escaped stars were
    replaced by [.*].  The model covers that fragment of the syntax: the
    anchors [^] and [$], [.*], an escaped punctuation character, and any
    other character taken literally. *)

Module regexp.

(** [QuoteMeta]: every byte of [\.+*?()|[]{}^$] is escaped by a backslash. *)
Definition special (c : ascii) : bool :=
  existsb (Ascii.eqb c)
    ["\"; "."; "+"; "*"; "?"; "("; ")"; "|"; "["; "]"; "{"; "}"; "^"; "$"]%char.

Fixpoint QuoteMeta (s : string) : string :=
  match s with
  | "" => ""
  | String c s' =>
      if special c then String "\" (String c (QuoteMeta s'))
      else String c (QuoteMeta s')
  end.

(** The compiled program of the fragment.  A literal keeps its rune and
    the bytes that encode it. *)
Inductive inst : Type :=
| BeginText
| EndText
| Lit (r : N) (enc : string)
| AnyNotNLStar.

Definition isalnum (r : N) : bool :=
  ((48 <=? r) && (r <=? 57) || (65 <=? r) && (r <=? 90)
   || (97 <=? r) && (r <=? 122))%N.

(** Operators that may not be applied to [.*] again, or that [.*] may be
    followed by only with another meaning. *)
Definition repeat_op (c : ascii) : bool :=
  existsb (Ascii.eqb c) ["*"; "+"; "?"; "{"]%char.

Definition starts_with_repeat_op (s : string) : bool :=
  match s with
  | String c _ => repeat_op c
  | "" => false
  end.

(** The parser on the fragment; [None] is a syntax error (a rune that is
    not valid UTF-8 is [ErrInvalidUTF8]) or an expression outside the
    fragment.  The expressions the package compiles lie in the fragment:
    they are parsed whenever the pattern is valid UTF-8. *)
Fixpoint parse (fuel : nat) (s : string) : option (list inst) :=
  match fuel with
  | 0 => match s with "" => Some [] | _ => None end
  | S fuel' =>
      match s with
      | "" => Some []
      | String c s' =>
          let cons (i : inst) (rest : string) :=
            match parse fuel' rest with
            | Some ins => Some (i :: ins)
            | None => None
            end in
          if Ascii.eqb c "^" then cons BeginText s'
          else if Ascii.eqb c "$" then cons EndText s'
          else if Ascii.eqb c "." then
            match s' with
            | String "*" s'' =>
                if starts_with_repeat_op s'' then None
                else cons AnyNotNLStar s''
            | _ => None
            end
          else if Ascii.eqb c "\" then
            match s' with
            | String d s'' =>
                let r := N_of_ascii d in
                if (r <? 128)%N && negb (isalnum r)
                   && negb (starts_with_repeat_op s'')
                then cons (Lit r (String d "")) s''
                else None
            | "" => None
            end
          else if special c then None
          else
            let (r, n) := utf8.DecodeRuneInString s in
            if N.eqb r utf8.RuneError && (n =? 1) then None
            else if starts_with_repeat_op (drop n s) then None
            else cons (Lit r (take n s)) (drop n s)
      end
  end.

Record Regexp : Type := mkRegexp { expr : string; prog : list inst }.

Definition Compile (str : string) : option Regexp :=
  match parse (String.length str) str with
  | Some ins => Some (mkRegexp str ins)
  | None => None
  end.

(** [MustCompile] panics if the expression cannot be parsed. *)
Definition MustCompile (str : string) : result Regexp :=
  match Compile str with
  | Some re => Ok re
  | None => Panic
  end.

(** The runes of the input, as the matcher reads them: a byte that starts
    no valid encoding is read as [RuneError], one byte wide. *)
Fixpoint runes (fuel : nat) (s : string) : list N :=
  match fuel with
  | 0 => []
  | S fuel' =>
      match s with
      | "" => []
      | _ =>
          let (r, n) := utf8.DecodeRuneInString s in
          r :: runes fuel' (drop n s)
      end
  end.

(** [matches ins at_start rs]: some prefix of [rs] matches [ins]; [at_start]
    says [rs] begins the text.  [.] matches any rune but a newline. *)
Fixpoint matches (ins : list inst) : bool -> list N -> bool :=
  match ins with
  | [] => fun _ _ => true
  | BeginText :: ins' => fun at_start rs => at_start && matches ins' at_start rs
  | EndText :: ins' =>
      fun at_start rs =>
        match rs with
        | [] => matches ins' at_start []
        | _ :: _ => false
        end
  | Lit r _ :: ins' =>
      fun _ rs =>
        match rs with
        | r' :: rs' => N.eqb r r' && matches ins' false rs'
        | [] => false
        end
  | AnyNotNLStar :: ins' =>
      fix star (at_start : bool) (rs : list N) {struct rs} : bool :=
        matches ins' at_start rs
        || match rs with
           | r' :: rs' => negb (N.eqb r' 10) && star false rs'
           | [] => false
           end
  end.

Fixpoint search (ins : list inst) (at_start : bool) (rs : list N) : bool :=
  matches ins at_start rs
  || match rs with
     | _ :: rs' => search ins false rs'
     | [] => false
     end.

(** [MatchString]: the text contains a match of the expression. *)
Definition MatchString (re : Regexp) (s : string) : bool :=
  search (prog re) true (runes (String.length s) s).

Fixpoint literals (ins : list inst) : string * list inst :=
  match ins with
  | Lit r enc :: ins' =>
      if N.eqb r utf8.RuneError then ("", ins)
      else let (p, rest) := literals ins' in (enc ++ p, rest)
  | _ => ("", ins)
  end.

(** [LiteralPrefix]: a literal string that must begin any match, and
    whether that string comprises the entire expression.  The string is
    the run of literals at the head of the program (after the anchor); the
    flag holds when nothing but the end of the text follows a non-empty
    run. *)
Definition LiteralPrefix (re : Regexp) : string * bool :=
  match prog re with
  | BeginText :: ins =>
      let (lit, rest) := literals ins in
      (lit,
       match rest with
       | [EndText] => negb (is_empty lit)
       | _ => false
       end)
  | ins =>
      let (lit, rest) := literals ins in
      (lit, match rest with [] => true | _ => false end)
  end.

End regexp.

(** ** Package filepathfilter *)

(** [sep = string(filepath.Separator)] *)
Definition sep : string := String filepath.Separator "".

(** [matched, _ := filepath.Match(pattern, name)] *)
Definition matched (pattern name : string) : bool :=
  match filepath.Match pattern name with
  | Some m => m
  | None => false
  end.

(** The [Pattern] interface.  [HasPrefix] and [Match] may panic. *)
Module Pattern.

Class t (P : Type) : Type := {
  HasPrefix : P -> string -> result bool;
  Match : P -> string -> result bool;
  String : P -> string
}.

End Pattern.

Module pathPrefixPattern.

Record t : Type := mk { rawPattern : string; relative : string; prefix : string }.

Definition Match (p : t) (name : string) : bool :=
  if String.eqb name (relative p) || strings.HasPrefix name (prefix p) then true
  else matched (rawPattern p) name.

Definition HasPrefix (p : t) (name : string) : bool :=
  strings.HasPrefix (relative p) name.

Definition String (p : t) : string := rawPattern p.

End pathPrefixPattern.

Module pathPattern.

Record t : Type :=
  mk { rawPattern : string; prefix : string; suffix : string; inner : string }.

Definition Match (p : t) (name : string) : bool :=
  if strings.HasPrefix name (prefix p) || strings.HasSuffix name (suffix p)
     || strings.Contains name (inner p)
  then true
  else matched (rawPattern p) name.

Definition HasPrefix (p : t) (name : string) : bool :=
  strings.HasPrefix (prefix p) name.

Definition String (p : t) : string := rawPattern p.

End pathPattern.

Module simpleExtPattern.

Record t : Type := mk { ext : string }.

Definition Match (p : t) (name : string) : bool := strings.HasSuffix name (ext p).

Definition HasPrefix (p : t) (name : string) : bool := true.

(** [fmt.Sprintf("*%s", p.ext)] *)
Definition String (p : t) : string := "*" ++ ext p.

End simpleExtPattern.

Module pathfulWildcardPattern.

Record t : Type := mk { wildDirs : list string }.

(** What the body of the loop over the components does: go on to the next
    component, or return from [partial]. *)
Inductive step : Type :=
| Continue
| Return (s : string).

(** The body of [for i, dir := range splits].  The inner [splits] shadows
    the outer one, also in [splits[:i]].  The inner [for len(splits) > 0]
    runs its body once: every path through it ends in [break] or
    [return], so [matched] is still [0] wherever [dir[matched:]] is read,
    and the [matched] and [splits] assigned before the first [break] are
    not read again. *)
Definition partial_dir (p : t) (i : nat) (dir : string) : result step :=
  match nth_error (wildDirs p) i with
  | None => Panic
  | Some wildDir =>
      let matched := 0 in
      let splits := strings.SplitN wildDir "*" 2 in
      if 0 <? strings.len splits then
        s0 <- strings.index splits 0 ;;
        if negb (strings.HasPrefix (drop matched dir) s0) then
          done <- strings.upto splits i ;;
          Ok (Return (strings.Join done sep))
        else if strings.len splits =? 2 then
          s1 <- strings.index splits 1 ;;
          if strings.Contains s1 "*" then Ok Continue
          else if negb (strings.HasSuffix (drop matched dir) s1) then
            done <- strings.upto splits i ;;
            Ok (Return (strings.Join done sep))
          else Ok Continue
        else Ok Continue
      else Ok Continue
  end.

Fixpoint partial_loop (p : t) (name : string) (i : nat) (splits : list string)
  : result string :=
  match splits with
  | [] => Ok name
  | dir :: rest =>
      st <- partial_dir p i dir ;;
      match st with
      | Continue => partial_loop p name (S i) rest
      | Return s => Ok s
      end
  end.

Definition partial (p : t) (name : string) : result string :=
  partial_loop p name 0 (filepath.SplitList name).

Definition HasPrefix (p : t) (name : string) : result bool :=
  s <- partial p name ;; Ok (0 <? String.length s).

Definition Match (p : t) (name : string) : result bool :=
  s <- partial p name ;; Ok (String.eqb s name).

Definition String (p : t) : string := strings.Join (wildDirs p) sep.

End pathfulWildcardPattern.

Module pathlessWildcardPattern.

Record t : Type := mk { rawPattern : string; wildcardRE : regexp.Regexp }.

Definition Match (p : t) (name : string) : bool :=
  matched (rawPattern p) name
  || regexp.MatchString (wildcardRE p) (filepath.Base name).

Definition HasPrefix (p : t) (name : string) : bool :=
  let (lit, ok) := regexp.LiteralPrefix (wildcardRE p) in
  if negb ok then true
  else strings.HasPrefix name lit.

Definition String (p : t) : string := rawPattern p.

End pathlessWildcardPattern.

Module doubleWildcardPattern.

Record t : Type := mk { rawPattern : string; wildcardRE : regexp.Regexp }.

Definition Match (p : t) (name : string) : bool :=
  matched (rawPattern p) name || regexp.MatchString (wildcardRE p) name.

Definition HasPrefix (p : t) (name : string) : bool :=
  let (lit, ok) := regexp.LiteralPrefix (wildcardRE p) in
  if negb ok then true
  else strings.HasPrefix name lit.

Definition String (p : t) : string := rawPattern p.

End doubleWildcardPattern.

(** The receiver of the methods of [noOpMatcher] may be nil. *)
Module noOpMatcher.

Record t : Type := mk { pattern : string }.

Definition Match (n : option t) (name : string) : bool := true.

Definition HasPrefix (n : option t) (name : string) : bool := true.

Definition String (n : option t) : string :=
  match n with
  | None => ""
  | Some n => pattern n
  end.

End noOpMatcher.

(** The patterns of the package. *)
Inductive pattern : Type :=
| PathPrefix (p : pathPrefixPattern.t)
| Path (p : pathPattern.t)
| SimpleExt (p : simpleExtPattern.t)
| PathfulWildcard (p : pathfulWildcardPattern.t)
| PathlessWildcard (p : pathlessWildcardPattern.t)
| DoubleWildcard (p : doubleWildcardPattern.t)
| NoOp (n : option noOpMatcher.t).

#[export] Instance pattern_Pattern : Pattern.t pattern := {
  HasPrefix p name :=
    match p with
    | PathPrefix p => Ok (pathPrefixPattern.HasPrefix p name)
    | Path p => Ok (pathPattern.HasPrefix p name)
    | SimpleExt p => Ok (simpleExtPattern.HasPrefix p name)
    | PathfulWildcard p => pathfulWildcardPattern.HasPrefix p name
    | PathlessWildcard p => Ok (pathlessWildcardPattern.HasPrefix p name)
    | DoubleWildcard p => Ok (doubleWildcardPattern.HasPrefix p name)
    | NoOp n => Ok (noOpMatcher.HasPrefix n name)
    end;
  Match p name :=
    match p with
    | PathPrefix p => Ok (pathPrefixPattern.Match p name)
    | Path p => Ok (pathPattern.Match p name)
    | SimpleExt p => Ok (simpleExtPattern.Match p name)
    | PathfulWildcard p => pathfulWildcardPattern.Match p name
    | PathlessWildcard p => Ok (pathlessWildcardPattern.Match p name)
    | DoubleWildcard p => Ok (doubleWildcardPattern.Match p name)
    | NoOp n => Ok (noOpMatcher.Match n name)
    end;
  String p :=
    match p with
    | PathPrefix p => pathPrefixPattern.String p
    | Path p => pathPattern.String p
    | SimpleExt p => simpleExtPattern.String p
    | PathfulWildcard p => pathfulWildcardPattern.String p
    | PathlessWildcard p => pathlessWildcardPattern.String p
    | DoubleWildcard p => doubleWildcardPattern.String p
    | NoOp n => noOpMatcher.String n
    end
}.

(** [localDirSet], a map used as a set. *)
Definition localDirSet : list string := ["*"; "*.*"; "."; "./"; ".\"].

Definition local (s : string) : bool := existsb (String.eqb s) localDirSet.

Definition NewPattern (rawpattern : string) : result pattern :=
  let cleanpattern := filepath.Clean rawpattern in
  if local cleanpattern then
    Ok (NoOp (Some (noOpMatcher.mk cleanpattern)))
  else
    let hasPathSep := strings.Contains cleanpattern sep in
    let ext := filepath.Ext cleanpattern in
    let plen := String.length cleanpattern in
    if (1 <? plen) && negb hasPathSep && strings.HasPrefix cleanpattern "*"
       && String.eqb (take (plen - 1) (drop 1 cleanpattern)) ext
    then Ok (SimpleExt (simpleExtPattern.mk ext))
    else if hasPathSep && strings.Contains cleanpattern "**" then
      let pattern := regexp.QuoteMeta cleanpattern in
      let regpattern := "^" ++ strings.Replace pattern "\*\*" ".*" ++ "$" in
      re <- regexp.MustCompile regpattern ;;
      Ok (DoubleWildcard (doubleWildcardPattern.mk cleanpattern re))
    else if strings.Contains cleanpattern "*" then
      if negb hasPathSep then
        let pattern := regexp.QuoteMeta cleanpattern in
        let regpattern := "^" ++ strings.Replace pattern "\*" ".*" ++ "$" in
        re <- regexp.MustCompile regpattern ;;
        Ok (PathlessWildcard (pathlessWildcardPattern.mk cleanpattern re))
      else
        Ok (PathfulWildcard
              (pathfulWildcardPattern.mk (filepath.SplitList cleanpattern)))
    else if hasPathSep && strings.HasPrefix cleanpattern sep then
      let rel := drop 1 cleanpattern in
      let prefix := rel in
      let '(rel, prefix) :=
        if strings.HasSuffix rel sep
        then (take (String.length rel - 1) rel, prefix)
        else (rel, prefix ++ sep) in
      Ok (PathPrefix (pathPrefixPattern.mk cleanpattern rel prefix))
    else
      Ok (Path (pathPattern.mk cleanpattern (cleanpattern ++ sep)
                  (sep ++ cleanpattern) (sep ++ cleanpattern ++ sep))).

Fixpoint convertToPatterns (rawpatterns : list string) : result (list pattern) :=
  match rawpatterns with
  | [] => Ok []
  | raw :: rest =>
      p <- NewPattern raw ;;
      ps <- convertToPatterns rest ;;
      Ok (p :: ps)
  end.

Module Filter.

Record t (P : Type) : Type := mk { include : list P; exclude : list P }.
Arguments mk {P} include exclude.
Arguments include {P} _.
Arguments exclude {P} _.

Section Methods.

Context {P : Type} `{Pattern.t P}.

(** [patternsToStrings] *)
Definition patternsToStrings (ps : list P) : list string :=
  map Pattern.String ps.

Definition Include (f : t P) : list string := patternsToStrings (include f).

Definition Exclude (f : t P) : list string := patternsToStrings (exclude f).

(** [for _, p := range ps { if test(p) { ... } }]: the first pattern, in
    order, on which [test] holds. *)
Fixpoint first (test : P -> result bool) (ps : list P) : result (option P) :=
  match ps with
  | [] => Ok None
  | p :: ps' =>
      b <- test p ;;
      if b then Ok (Some p) else first test ps'
  end.

(** The loop labelled [L], from [i] down to [1]. *)
Fixpoint HasPrefix_loop (f : t P) (parts : list string) (i : nat) : result bool :=
  match i with
  | 0 => Ok false
  | S i' =>
      let prefix := strings.Join (firstn i parts) sep in
      ex <- first (fun p => Pattern.Match p prefix) (exclude f) ;;
      match ex with
      | Some _ => Ok false
      | None =>
          if List.length (include f) =? 0 then Ok true
          else
            inc <- first (fun p => Pattern.HasPrefix p prefix) (include f) ;;
            match inc with
            | Some _ => Ok true
            | None => HasPrefix_loop f parts i'
            end
      end
  end.

Definition HasPrefix (f : option (t P)) (prefix : string) : result bool :=
  match f with
  | None => Ok true
  | Some f =>
      let parts := strings.Split prefix sep in
      HasPrefix_loop f parts (List.length parts)
  end.

Definition AllowsPattern (f : option (t P)) (filename : string)
  : result (string * bool) :=
  match f with
  | None => Ok ("", true)
  | Some f =>
      if List.length (include f) + List.length (exclude f) =? 0 then Ok ("", true)
      else
        let cleanedName := filepath.Clean filename in
        let excludes (pattern : string) :=
          ex <- first (fun p => Pattern.Match p cleanedName) (exclude f) ;;
          match ex with
          | Some ex => Ok (Pattern.String ex, false)
          | None => Ok (pattern, true)
          end in
        if 0 <? List.length (include f) then
          inc <- first (fun p => Pattern.Match p cleanedName) (include f) ;;
          match inc with
          | None => Ok ("", false)
          | Some inc => excludes (Pattern.String inc)
          end
        else excludes ""
  end.

Definition Allows (f : option (t P)) (filename : string) : result bool :=
  r <- AllowsPattern f filename ;; Ok (snd r).

End Methods.

End Filter.

Definition NewFromPatterns {P : Type} (include exclude : list P) : Filter.t P :=
  Filter.mk include exclude.

Definition New (include exclude : list string) : result (Filter.t pattern) :=
  inc <- convertToPatterns include ;;
  exc <- convertToPatterns exclude ;;
  Ok (NewFromPatterns inc exc).

(** ** Vocabulary of the specification *)

Section Vocabulary.

Context {P : Type} `{Pattern.t P}.

(** Every pattern of [ps] was tested against [name] and none matched. *)
Definition no_match (ps : list P) (name : string) : Prop :=
  Forall (fun q => Pattern.Match q name = Ok false) ps.


(** Some exclude pattern fully matches the ancestor prefix [a]. *)
Definition excluded (f : Filter.t P) (a : string) : Prop :=
  exists p, In p (Filter.exclude f) /\ Pattern.Match p a = Ok true.

(** Some include pattern's [HasPrefix] holds for the ancestor prefix [a]. *)
Definition included (f : Filter.t P) (a : string) : Prop :=
  exists p, In p (Filter.include f) /\ Pattern.HasPrefix p a = Ok true.

(** No test of a pattern of [f] on a prefix of [anc] panics. *)
Definition returns (f : Filter.t P) (anc : list string) : Prop :=
  forall a p, In a anc ->
    (In p (Filter.exclude f) -> Pattern.Match p a <> Panic)
    /\ (In p (Filter.include f) -> Pattern.HasPrefix p a <> Panic).

(** The outcome [b] of walking the ancestor prefixes [anc] in order: true
    exactly when some ancestor is reached with no exclude pattern matching
    it or any ancestor before it, and there the include list is empty or
    some include pattern has it as a prefix. *)
Definition walk_result (f : Filter.t P) (anc : list string) (b : bool) : Prop :=
  b = true <->
  exists pre a post,
    anc = (pre ++ a :: post)%list
    /\ (forall x, In x (pre ++ [a])%list -> ~ excluded f x)
    /\ (Filter.include f = [] \/ included f a).

End Vocabulary.

(** The prefixes [strings.Join(parts[:j], sep)] for [j] from [i] down to
    [1]. *)
Definition ancestors_from (parts : list string) (i : nat) : list string :=
  map (fun j => strings.Join (firstn j parts) sep) (List.rev (seq 1 i)).

(** The ancestor prefixes of [prefix], the longest first. *)
Definition ancestors (prefix : string) : list string :=
  let parts := strings.Split prefix sep in
  ancestors_from parts (List.length parts).

(** The ancestor prefixes down to the empty one, of no component. *)
Definition ancestors_to_empty (prefix : string) : list string :=
  let parts := strings.Split prefix sep in
  map (fun j => strings.Join (firstn j parts) sep)
    (List.rev (seq 0 (S (List.length parts)))).

(** [s] ends with [suffix]. *)
Definition ends_with (s suffix : string) : Prop :=
  exists pre, s = pre ++ suffix.

(** [raw] has the form of a star followed by its own file extension, with
    no path separator. *)
Definition star_ext (raw : string) : Prop :=
  strings.Contains raw sep = false /\ raw = "*" ++ filepath.Ext raw.

(** The string a compiled pattern gives back for [raw]: the cleaned
    pattern, in which a pathful-wildcard pattern has been split at the
    list separator and joined with the path separator. *)
Definition canonical (raw : string) : string :=
  let c := filepath.Clean raw in
  if strings.Contains c "*" && strings.Contains c sep
     && negb (strings.Contains c "**")
  then strings.Join (filepath.SplitList c) sep
  else c.

(** [s] contains a path separator. *)
Fixpoint has_sep (s : string) : bool :=
  match s with
  | "" => false
  | String c s' => filepath.IsPathSeparator c || has_sep s'
  end.

(** An element that [Clean] may write: not empty, not [.], free of
    separators. *)
Definition kept (e : string) : Prop :=
  e <> "" /\ e <> "." /\ has_sep e = false.

(** The [..] elements written by [Clean] are below every other element. *)
Fixpoint dotdots_below (out : list string) : bool :=
  match out with
  | [] => true
  | top :: out' =>
      if String.eqb top ".." then forallb (String.eqb "..") out'
      else dotdots_below out'
  end.

(** What [Clean] has written at any point, the last element first. *)
Definition written (rooted : bool) (out : list string) : Prop :=
  Forall kept out
  /\ (if rooted then Forall (fun e => e <> "..") out
      else dotdots_below out = true).

(** What [NewPattern] makes of a cleaned pattern before compiling it: a
    sequence of characters to match literally and of wildcards. *)
Inductive token : Type :=
| TAny
| TChar (a : ascii).

(** The expression of a token: [.*] for a wildcard, the character as
    [QuoteMeta] quotes it otherwise. *)
Definition render1 (t : token) : string :=
  match t with
  | TAny => ".*"
  | TChar a =>
      if regexp.special a then String "\" (String a "") else String a ""
  end.

Fixpoint render (ts : list token) : string :=
  match ts with
  | [] => ""
  | t :: ts' => render1 t ++ render ts'
  end.

(** Pathless-wildcard patterns: every star is a wildcard. *)
Fixpoint stars (c : string) : list token :=
  match c with
  | "" => []
  | String a c' => (if Ascii.eqb a "*" then TAny else TChar a) :: stars c'
  end.

(** Double-wildcard patterns: every pair of stars, from the left, is a
    wildcard; a star left alone is a character. *)
Fixpoint double_stars (c : string) : list token :=
  match c with
  | "" => []
  | String a c' =>
      match c' with
      | String b c'' =>
          if Ascii.eqb a "*" && Ascii.eqb b "*" then TAny :: double_stars c''
          else TChar a :: double_stars c'
      | "" => [TChar a]
      end
  end.

(** Every byte of [s] is an ASCII character. *)
Fixpoint ascii_only (s : string) : bool :=
  match s with
  | "" => true
  | String a s' => (N_of_ascii a <? 128)%N && ascii_only s'
  end.

(** [s] begins with a star. *)
Definition starts_with_star (s : string) : bool :=
  match s with
  | String b _ => Ascii.eqb b "*"
  | "" => false
  end.

(** The first [k] bytes of [s] are there and are not ASCII characters. *)
Fixpoint high_bytes (k : nat) (s : string) : bool :=
  match k with
  | 0 => true
  | S k' =>
      match s with
      | String b s' => (128 <=? N_of_ascii b)%N && high_bytes k' s'
      | "" => false
      end
  end.

(** [s] is valid UTF-8 ([utf8.ValidString]): it is a sequence of runes
    none of which is read as an encoding error. *)
Inductive Valid : string -> Prop :=
| Valid_nil : Valid ""
| Valid_rune (a : ascii) (t : string) (r : N) (k : nat) :
    utf8.DecodeRuneInString (String a t) = (r, S k) ->
    N.eqb r utf8.RuneError && (S k =? 1) = false ->
    Valid (drop k t) ->
    Valid (String a t).

(** The characters of the tokens form valid runes. *)
Inductive tokens_valid : list token -> Prop :=
| tokens_valid_nil : tokens_valid []
| tokens_valid_any (ts : list token) :
    tokens_valid ts -> tokens_valid (TAny :: ts)
| tokens_valid_rune (a : ascii) (u : string) (ts : list token) (r : N) :
    utf8.DecodeRuneInString (String a u) = (r, S (String.length u)) ->
    N.eqb r utf8.RuneError && (S (String.length u) =? 1) = false ->
    tokens_valid ts ->
    tokens_valid (TChar a :: map TChar (list_ascii_of_string u) ++ ts)%list.

(** The byte [c] occurs in [s]. *)
Fixpoint occurs (c : ascii) (s : string) : bool :=
  match s with
  | "" => false
  | String a s' => Ascii.eqb a c || occurs c s'
  end.

(** Some pattern of [ps] matches [name]; a test that panics counts for
    nothing. *)
Definition hits {P : Type} `{Pattern.t P} (ps : list P) (name : string) : bool :=
  existsb (fun p => match Pattern.Match p name with
                    | Ok b => b
                    | Panic => false
                    end) ps.

Definition is_nil {A : Type} (l : list A) : bool :=
  match l with
  | [] => true
  | _ :: _ => false
  end.

(** No byte of [s] is special in a shell file name pattern: no star, no
    question mark, no opening bracket, no backslash. *)
Fixpoint glob_free (s : string) : bool :=
  match s with
  | "" => true
  | String a s' =>
      negb (existsb (Ascii.eqb a) ["*"; "?"; "["; "\"]%char) && glob_free s'
  end.

(** The line feed, the one rune that [.] does not match. *)
Definition newline : ascii := ascii_of_nat 10.

(** The names a sequence of tokens stands for: a character stands for
    itself and a wildcard for any run of characters free of line feeds. *)
Inductive wild : list token -> string -> Prop :=
| wild_nil : wild [] ""
| wild_char (a : ascii) (ts : list token) (s : string) :
    wild ts s -> wild (TChar a :: ts) (String a s)
| wild_any (mid : string) (ts : list token) (s : string) :
    occurs newline mid = false -> wild ts s -> wild (TAny :: ts) (mid ++ s).

(** The instruction compiled for a token whose character is ASCII. *)
Definition inst_of (t : token) : regexp.inst :=
  match t with
  | TAny => regexp.AnyNotNLStar
  | TChar a => regexp.Lit (N_of_ascii a) (String a "")
  end.

(** The characters of the tokens are ASCII characters. *)
Definition ascii_tokens (ts : list token) : Prop :=
  Forall (fun t => match t with
                   | TAny => True
                   | TChar a => (N_of_ascii a <? 128)%N = true
                   end) ts.

(** The bytes of [s] as runes. *)
Definition codes (s : string) : list N :=
  map N_of_ascii (list_ascii_of_string s).

(** * Properties *)

(** Closed goals about concrete patterns and names are settled by running
    the definitions. *)
Ltac conjuncts :=
  repeat match goal with |- _ /\ _ => split end.

Ltac run := conjuncts; vm_compute; reflexivity.

(** ** The library models on the library's own examples *)

Example Clean_examples :
  map filepath.Clean
    ["abc"; "abc/def"; "."; ".."; "../.."; "../../abc"; "/abc"; "/"; "";
     "abc/"; "./"; "../"; "../../"; "/abc/"; "abc//def//ghi"; "abc//";
     "abc/./def"; "/./abc/def"; "abc/."; "abc/def/ghi/../jkl";
     "abc/def/../ghi/../jkl"; "abc/def/.."; "abc/def/../.."; "/abc/def/../..";
     "abc/def/../../.."; "/abc/def/../../..";
     "abc/def/../../../ghi/jkl/../../../mno"; "/../abc"; "a/../b:/../../c";
     "abc/./../def"; "abc//./../def"; "abc/../../././../def"; "//abc";
     "///abc"; "//abc//"]
  = ["abc"; "abc/def"; "."; ".."; "../.."; "../../abc"; "/abc"; "/"; ".";
     "abc"; "."; ".."; "../.."; "/abc"; "abc/def/ghi"; "abc";
     "abc/def"; "/abc/def"; "abc"; "abc/def/jkl";
     "abc/jkl"; "abc"; "."; "/";
     ".."; "/";
     "../../mno"; "/abc"; "../c";
     "def"; "def"; "../../def"; "/abc";
     "/abc"; "/abc"].
Proof. vm_compute. reflexivity. Qed.

Example Ext_examples :
  map filepath.Ext ["path.go"; "path.pb.go"; "a.dir/b"; "a.dir/b.go"; "a.dir/"]
  = [".go"; ".go"; ""; ".go"; ""].
Proof. vm_compute. reflexivity. Qed.

Example Base_examples :
  map filepath.Base
    [""; "."; "/."; "/"; "////"; "x/"; "abc"; "abc/def"; "a/b/.x"; "a/b/c.";
     "a/b/c.x"]
  = ["."; "."; "."; "/"; "/"; "x"; "abc"; "def"; ".x"; "c."; "c.x"].
Proof. vm_compute. reflexivity. Qed.

Example SplitList_examples :
  map filepath.SplitList [""; "a"; "/a/b:/c/d"; "sub/*.txt"]
  = [[]; ["a"]; ["/a/b"; "/c/d"]; ["sub/*.txt"]].
Proof. vm_compute. reflexivity. Qed.

Example Match_examples :
  map (fun pn => filepath.Match (fst pn) (snd pn))
    [("abc", "abc"); ("*", "abc"); ("*c", "abc"); ("a*", "a"); ("a*", "abc");
     ("a*", "ab/c"); ("a*/b", "abc/b"); ("a*/b", "a/c/b");
     ("a*b*c*d*e*/f", "axbxcxdxe/f"); ("a*b*c*d*e*/f", "axbxcxdxexxx/f");
     ("a*b*c*d*e*/f", "axbxcxdxe/xxx/f"); ("a*b*c*d*e*/f", "axbxcxdxexxx/fff");
     ("a*b?c*x", "abxbbxdbxebxczzx"); ("a*b?c*x", "abxbbxdbxebxczzy");
     ("ab[c]", "abc"); ("ab[b-d]", "abc"); ("ab[e-g]", "abc"); ("ab[^c]", "abc");
     ("ab[^b-d]", "abc"); ("ab[^e-g]", "abc"); ("a\*b", "a*b"); ("a\*b", "ab");
     ("a?b", "a/b"); ("a*b", "a/b"); ("[\]a]", "]"); ("[\-]", "-");
     ("[x\-]", "x"); ("[x\-]", "-"); ("[x\-]", "z"); ("[\-x]", "x");
     ("[\-x]", "-"); ("[\-x]", "a"); ("[]a]", "]"); ("[-]", "-"); ("[x-]", "x");
     ("[-x]", "x"); ("\", "a"); ("[a-b-c]", "a"); ("[", "a"); ("[^", "a");
     ("[^bc", "a"); ("a[", "a"); ("a[", "ab"); ("a[", "x"); ("a/b[", "x");
     ("*x", "xxx")]
  = [Some true; Some true; Some true; Some true; Some true;
     Some false; Some true; Some false;
     Some true; Some true;
     Some false; Some false;
     Some true; Some false;
     Some true; Some true; Some false; Some false;
     Some false; Some true; Some true; Some false;
     Some false; Some false; Some true; Some true;
     Some true; Some true; Some false; Some true;
     Some true; Some false; None; None; None;
     None; None; None; None; None;
     None; None; None; None; None;
     Some true].
Proof. vm_compute. reflexivity. Qed.

Example QuoteMeta_example :
  regexp.QuoteMeta "Escaping $5 for a*b.txt" = "Escaping \$5 for a\*b\.txt".
Proof. reflexivity. Qed.

Example LiteralPrefix_examples :
  map (fun e => option_map regexp.LiteralPrefix (regexp.Compile e))
    ["^src/.*$"; "^src$"; "^.*/a\.txt$"]
  = [Some ("src/", false); Some ("src", true); Some ("", false)].
Proof. vm_compute. reflexivity. Qed.

(** ** The examples of the specification *)

(** A rooted pattern matches its target and what lies below it. *)
Example rooted_pattern :
  exists p,
    NewPattern "/root" = Ok p
    /\ map (Pattern.Match p) ["root"; "root/child"; "other/root"]
       = [Ok true; Ok true; Ok false].
Proof. eexists. split; [ vm_compute; reflexivity | run ]. Qed.

(** A plain pattern matches as a path component anywhere in the path. *)
Example plain_pattern :
  exists p,
    NewPattern "build" = Ok p
    /\ map (Pattern.Match p)
         ["build"; "build/output"; "src/build"; "src/build/output"; "buildx"]
       = [Ok true; Ok true; Ok true; Ok true; Ok false].
Proof. eexists. split; [ vm_compute; reflexivity | run ]. Qed.

(** Include [*.go], exclude [*_test.go]. *)
Example go_sources :
  exists f,
    New ["*.go"] ["*_test.go"] = Ok f
    /\ map (Filter.Allows (Some f)) ["main.go"; "main_test.go"; "main.py"]
       = [Ok true; Ok false; Ok false].
Proof. eexists. split; [ vm_compute; reflexivity | run ]. Qed.

(** A nil filter allows every path and every prefix. *)
Example nil_filter (s : string) :
  Filter.Allows (@None (Filter.t pattern)) s = Ok true
  /\ Filter.HasPrefix (@None (Filter.t pattern)) s = Ok true.
Proof. split; reflexivity. Qed.

(** C2 (code at the failing input): the pattern [sub/*.txt] is compiled to
    a pathful-wildcard pattern whose only component is the whole pattern,
    since [filepath.SplitList] splits at the list separator; it matches
    [sub/a.txt], does not match [other/sub/a.txt], and matches
    [sub/dir/a.txt]: the star crosses the separator. *)
Theorem pathful_star_crosses_separator :
  exists p,
    NewPattern "sub/*.txt" = Ok (PathfulWildcard p)
    /\ pathfulWildcardPattern.wildDirs p = ["sub/*.txt"]
    /\ Pattern.Match (PathfulWildcard p) "sub/a.txt" = Ok true
    /\ Pattern.Match (PathfulWildcard p) "other/sub/a.txt" = Ok false
    /\ Pattern.Match (PathfulWildcard p) "sub/dir/a.txt" = Ok true.
Proof.
  eexists. split; [ vm_compute; reflexivity | run ].
Qed.

(** C3 (code at the failing input): the expression compiled for [src/**]
    is [^src/.*$], whose literal prefix is [src/] and is not the entire
    expression; the second result of [LiteralPrefix] being false,
    [HasPrefix] answers true for [docs], which does not start with
    [src/]. *)
Theorem doubleWildcard_HasPrefix_ignores_literal :
  exists p,
    NewPattern "src/**" = Ok (DoubleWildcard p)
    /\ regexp.expr (doubleWildcardPattern.wildcardRE p) = "^src/.*$"
    /\ regexp.LiteralPrefix (doubleWildcardPattern.wildcardRE p) = ("src/", false)
    /\ strings.HasPrefix "docs" "src/" = false
    /\ Pattern.HasPrefix (DoubleWildcard p) "docs" = Ok true.
Proof.
  eexists. split; [ vm_compute; reflexivity | run ].
Qed.

(** C4 (code at the failing input): the filter with include [src/**] and no
    exclude answers true for the prefix [src] and, no pruning taking
    place, true for the prefix [docs] as well. *)
Theorem Filter_HasPrefix_does_not_prune_docs :
  exists f,
    New ["src/**"] [] = Ok f
    /\ Filter.HasPrefix (Some f) "src" = Ok true
    /\ Filter.HasPrefix (Some f) "docs" = Ok true.
Proof.
  eexists. split; [ vm_compute; reflexivity | run ].
Qed.

(** C5 (as stated, refuted): the double-wildcard pattern compiled for
    [**/a.txt] does not match the bare [a.txt]. *)
Lemma doubleWildcard_bare_name_not_matched :
  ~ (forall p name,
        NewPattern "**/a.txt" = Ok p ->
        In name ["a.txt"; "x/a.txt"; "x/y/a.txt"] ->
        Pattern.Match p name = Ok true).
Proof.
  intros Hall.
  assert (Hnew : exists p, NewPattern "**/a.txt" = Ok p
                           /\ Pattern.Match p "a.txt" = Ok false).
  { eexists. split; [ vm_compute; reflexivity | run ]. }
  destruct Hnew as [p [Hp Hm]].
  specialize (Hall p "a.txt" Hp (or_introl eq_refl)).
  rewrite Hm in Hall. discriminate.
Qed.

(** C5 (amended): [**/a.txt] is compiled to a double-wildcard pattern with
    the expression [^.*/a\.txt$]; it matches [x/a.txt] and [x/y/a.txt], and
    it does not match [a.txt], where no separator precedes the name. *)
Theorem doubleWildcard_needs_separator :
  exists p,
    NewPattern "**/a.txt" = Ok (DoubleWildcard p)
    /\ regexp.expr (doubleWildcardPattern.wildcardRE p) = "^.*/a\.txt$"
    /\ Pattern.Match (DoubleWildcard p) "x/a.txt" = Ok true
    /\ Pattern.Match (DoubleWildcard p) "x/y/a.txt" = Ok true
    /\ Pattern.Match (DoubleWildcard p) "a.txt" = Ok false.
Proof.
  eexists. split; [ vm_compute; reflexivity | run ].
Qed.

(** ** Byte strings *)

Lemma str_append_nil_r (s : string) : s ++ "" = s.
Proof. induction s; simpl; congruence. Qed.

Lemma str_append_assoc (a b c : string) : (a ++ b) ++ c = a ++ b ++ c.
Proof. induction a; simpl; congruence. Qed.

Lemma str_length_append (a b : string) :
  String.length (a ++ b) = String.length a + String.length b.
Proof. induction a; simpl; congruence. Qed.

Lemma take_drop (n : nat) (s : string) : take n s ++ drop n s = s.
Proof.
  revert s. induction n as [|n IH]; intros [|c s]; simpl; try reflexivity.
  now rewrite IH.
Qed.

Lemma take_all (s : string) : take (String.length s) s = s.
Proof. induction s; simpl; congruence. Qed.

Lemma drop_append (a b : string) : drop (String.length a) (a ++ b) = b.
Proof. induction a; simpl; [ now destruct b | assumption ]. Qed.

Lemma str_length_drop (n : nat) (s : string) :
  String.length (drop n s) = String.length s - n.
Proof.
  revert s. induction n as [|n IH]; intros [|c s]; simpl; auto.
Qed.

Lemma prefix_append (p t : string) : String.prefix p (p ++ t) = true.
Proof.
  induction p as [|c p IH]; simpl; [ now destruct t | ].
  destruct (ascii_dec c c); [ assumption | contradiction ].
Qed.

Lemma prefix_inv (p s : string) :
  String.prefix p s = true -> exists t, s = p ++ t.
Proof.
  revert s. induction p as [|c p IH]; intros s Hp.
  - now exists s.
  - destruct s as [|d s]; simpl in Hp; [ discriminate | ].
    destruct (ascii_dec c d) as [->|]; [ | discriminate ].
    destruct (IH s Hp) as [t ->]. now exists t.
Qed.

Lemma HasSuffix_ends_with (s suffix : string) :
  strings.HasSuffix s suffix = true <-> ends_with s suffix.
Proof.
  unfold strings.HasSuffix, ends_with. split.
  - intros Hs. apply andb_true_iff in Hs. destruct Hs as [_ Heq].
    apply String.eqb_eq in Heq.
    exists (take (String.length s - String.length suffix) s).
    rewrite <- Heq at 2. symmetry. apply take_drop.
  - intros [pre ->]. rewrite str_length_append.
    apply andb_true_iff. split.
    + apply Nat.leb_le. lia.
    + replace (String.length pre + String.length suffix - String.length suffix)
        with (String.length pre) by lia.
      rewrite drop_append. apply String.eqb_refl.
Qed.

(** ** filepath.Clean *)

Lemma elements_no_sep (path : string) :
  Forall (fun e => has_sep e = false) (filepath.elements path).
Proof.
  induction path as [|c rest IH]; simpl.
  - repeat constructor.
  - destruct (filepath.IsPathSeparator c) eqn:Hc.
    + constructor; [ reflexivity | assumption ].
    + destruct (filepath.elements rest) as [|e es].
      * repeat constructor. simpl. now rewrite Hc.
      * inversion IH; subst. constructor; [ | assumption ].
        simpl. now rewrite Hc.
Qed.

Lemma elements_single (s : string) :
  has_sep s = false -> filepath.elements s = [s].
Proof.
  induction s as [|c s IH]; simpl; [ reflexivity | ].
  intros Hs. apply orb_false_iff in Hs. destruct Hs as [Hc Hs].
  rewrite Hc, (IH Hs). reflexivity.
Qed.

Lemma elements_app_sep (x t : string) :
  has_sep x = false ->
  filepath.elements (x ++ String filepath.Separator t) = x :: filepath.elements t.
Proof.
  induction x as [|c x IH]; simpl; [ reflexivity | ].
  intros Hx. apply orb_false_iff in Hx. destruct Hx as [Hc Hx].
  rewrite Hc, (IH Hx). reflexivity.
Qed.

Lemma elements_Join (l : list string) :
  Forall (fun e => has_sep e = false) l -> l <> [] ->
  filepath.elements (strings.Join l "/") = l.
Proof.
  induction l as [|x l IH]; intros Hl Hne; [ contradiction | ].
  inversion Hl as [|? ? Hx Hl']; subst.
  destruct l as [|y l].
  - simpl. now apply elements_single.
  - change (strings.Join (x :: y :: l) "/")
      with (x ++ String filepath.Separator (strings.Join (y :: l) "/")).
    rewrite (elements_app_sep _ _ Hx), IH; [ reflexivity | assumption | discriminate ].
Qed.

Lemma kept_dotdot : kept "..".
Proof. repeat split; discriminate. Qed.

Lemma written_nil (rooted : bool) : written rooted [].
Proof. split; [ constructor | destruct rooted; [ constructor | reflexivity ] ]. Qed.

Lemma dotdots_only_below (out : list string) :
  forallb (String.eqb "..") out = true -> dotdots_below out = true.
Proof.
  induction out as [|x out IH]; [ reflexivity | ].
  cbn [forallb dotdots_below]. intros Hs.
  apply andb_true_iff in Hs. destruct Hs as [Hx Hs].
  rewrite String.eqb_sym in Hx. rewrite Hx. assumption.
Qed.

Lemma written_tail (rooted : bool) (e : string) (out : list string) :
  written rooted (e :: out) -> written rooted out.
Proof.
  intros [Hk Hs]. inversion Hk; subst. split; [ assumption | ].
  destruct rooted.
  - now inversion Hs.
  - cbn [dotdots_below] in Hs.
    destruct (String.eqb_spec e ".."); [ | assumption ].
    now apply dotdots_only_below.
Qed.

Lemma clean_step_written (rooted : bool) (out : list string) (e : string) :
  has_sep e = false -> written rooted out ->
  written rooted (filepath.clean_step rooted out e).
Proof.
  intros He Hw. unfold filepath.clean_step.
  destruct (String.eqb_spec e ""); [ assumption | ].
  destruct (String.eqb_spec e "."); [ assumption | ]. simpl.
  destruct (String.eqb_spec e "..") as [->|Hdd].
  - destruct out as [|top out'].
    + destruct rooted; [ apply written_nil | ].
      split; [ repeat constructor; discriminate | reflexivity ].
    + destruct (String.eqb_spec top "..") as [->|Htop].
      * destruct Hw as [Hk Hs]. split.
        -- constructor; [ apply kept_dotdot | assumption ].
        -- destruct rooted; [ inversion Hs; congruence | ].
           simpl in Hs |- *. assumption.
      * eapply written_tail; eassumption.
  - destruct Hw as [Hk Hs]. split.
    + constructor; [ repeat split; assumption | assumption ].
    + destruct rooted; [ constructor; assumption | ].
      simpl. destruct (String.eqb_spec e ".."); [ contradiction | assumption ].
Qed.

Lemma clean_fold_written (rooted : bool) (es out : list string) :
  Forall (fun e => has_sep e = false) es -> written rooted out ->
  written rooted (fold_left (filepath.clean_step rooted) es out).
Proof.
  revert out. induction es as [|e es IH]; intros out Hes Hw; simpl.
  - assumption.
  - inversion Hes; subst. apply IH; [ assumption | ].
    now apply clean_step_written.
Qed.

(** Reading back what was written writes it again. *)
Lemma clean_refold (rooted : bool) (out : list string) :
  written rooted out ->
  fold_left (filepath.clean_step rooted) (List.rev out) [] = out.
Proof.
  induction out as [|e out IH]; intros Hw; [ reflexivity | ].
  simpl. rewrite fold_left_app. simpl.
  rewrite (IH (written_tail _ _ _ Hw)).
  destruct Hw as [Hk Hs]. inversion Hk as [|? ? [He0 [He1 _]] _]; subst.
  unfold filepath.clean_step.
  destruct (String.eqb_spec e ""); [ contradiction | ].
  destruct (String.eqb_spec e "."); [ contradiction | ]. simpl.
  destruct (String.eqb_spec e "..") as [->|]; [ | reflexivity ].
  destruct rooted.
  - inversion Hs; congruence.
  - destruct out as [|top out']; [ reflexivity | ].
    cbn [dotdots_below forallb] in Hs. rewrite String.eqb_refl in Hs.
    apply andb_true_iff in Hs. destruct Hs as [Htop _].
    rewrite String.eqb_sym in Htop. rewrite Htop. reflexivity.
Qed.

Lemma Join_not_rooted (e : string) (l : list string) :
  e <> "" -> has_sep e = false ->
  String.prefix "/" (strings.Join (e :: l) "/") = false
  /\ is_empty (strings.Join (e :: l) "/") = false.
Proof.
  intros He Hs. destruct e as [|c e]; [ contradiction | ].
  simpl in Hs. apply orb_false_iff in Hs. destruct Hs as [Hc _].
  assert (Hp : forall t, String.prefix "/" (String c t) = false).
  { intros t. cbn [String.prefix].
    destruct (ascii_dec "/" c) as [<-|]; [ discriminate | reflexivity ]. }
  destruct l; simpl strings.Join; split; try apply Hp; reflexivity.
Qed.

Lemma prefix_nil (s : string) : String.prefix "" s = true.
Proof. now destruct s. Qed.

Lemma Clean_rooted (path : string) :
  String.prefix "/" path = true ->
  filepath.Clean path =
  "/" ++ strings.Join
           (List.rev (fold_left (filepath.clean_step true) (filepath.elements path) []))
           "/".
Proof.
  intros Hr. unfold filepath.Clean. rewrite Hr.
  destruct path; [ discriminate | reflexivity ].
Qed.

Lemma Clean_not_rooted (path : string) :
  is_empty path = false -> String.prefix "/" path = false ->
  filepath.Clean path =
  let body :=
    strings.Join
      (List.rev (fold_left (filepath.clean_step false) (filepath.elements path) []))
      "/" in
  if is_empty body then "." else body.
Proof.
  intros He Hr. unfold filepath.Clean. rewrite He, Hr. reflexivity.
Qed.

(** What [Clean] returns is clean. *)
Lemma Clean_idempotent (path : string) :
  filepath.Clean (filepath.Clean path) = filepath.Clean path.
Proof.
  destruct (is_empty path) eqn:Hempty.
  { destruct path; [ reflexivity | discriminate ]. }
  destruct (String.prefix "/" path) eqn:Hr.
  - rewrite (Clean_rooted path Hr).
    set (out := fold_left (filepath.clean_step true) (filepath.elements path) []).
    assert (Hw : written true out).
    { apply clean_fold_written; [ apply elements_no_sep | apply written_nil ]. }
    rewrite Clean_rooted by apply (prefix_append "/").
    destruct out as [|e out'] eqn:Hout; [ reflexivity | ].
    change (filepath.elements ("/" ++ strings.Join (List.rev (e :: out')) "/"))
      with ("" :: filepath.elements (strings.Join (List.rev (e :: out')) "/")).
    rewrite elements_Join.
    + cbn [fold_left].
      change (filepath.clean_step true [] "") with (@nil string).
      rewrite (clean_refold true (e :: out') Hw). reflexivity.
    + apply Forall_rev. destruct Hw as [Hk _].
      eapply Forall_impl; [ | exact Hk ]. now intros x [_ [_ Hx]].
    + simpl. intros Hnil. apply app_eq_nil in Hnil. destruct Hnil; discriminate.
  - rewrite (Clean_not_rooted path Hempty Hr). cbv zeta.
    set (out := fold_left (filepath.clean_step false) (filepath.elements path) []).
    assert (Hw : written false out).
    { apply clean_fold_written; [ apply elements_no_sep | apply written_nil ]. }
    destruct (List.rev out) as [|e l] eqn:Hrev; [ reflexivity | ].
    assert (Hk : Forall kept (e :: l)).
    { destruct Hw as [Hk _]. apply Forall_rev in Hk. now rewrite Hrev in Hk. }
    assert (He : kept e) by now inversion Hk.
    destruct He as [He0 [_ Hes]].
    destruct (Join_not_rooted e l He0 Hes) as [Hp He].
    rewrite He, (Clean_not_rooted _ He Hp). cbv zeta.
    rewrite elements_Join.
    + rewrite <- Hrev, (clean_refold false out Hw), Hrev, He. reflexivity.
    + eapply Forall_impl; [ | exact Hk ]. now intros x [_ [_ Hx]].
    + discriminate.
Qed.

(** ** The loops over a pattern list *)

Section Loops.

Context {P : Type} `{Pattern.t P}.

Lemma first_none (test : P -> result bool) (ps : list P) :
  Forall (fun q => test q = Ok false) ps -> Filter.first test ps = Ok None.
Proof.
  induction 1 as [|q ps Hq _ IH]; simpl; [ reflexivity | ].
  now rewrite Hq.
Qed.


(** When no test panics the loop returns, and what it returns is the first
    pattern that passes. *)
Lemma first_returns (test : P -> result bool) (ps : list P) :
  (forall q, In q ps -> test q <> Panic) ->
  (exists p, Filter.first test ps = Ok (Some p) /\ In p ps /\ test p = Ok true)
  \/ (Filter.first test ps = Ok None /\ forall q, In q ps -> test q = Ok false).
Proof.
  induction ps as [|q ps IH]; intros Hret.
  - right. split; [ reflexivity | intros q [] ].
  - simpl. destruct (test q) as [[|]|] eqn:Hq.
    + left. exists q. simpl. auto.
    + destruct IH as [[p [Hf [Hin Hp]]]|[Hf Hall]].
      * intros q' Hin. apply Hret. now right.
      * left. exists p. simpl. auto.
      * right. split; [ assumption | ].
        intros q' [<-|Hin]; auto.
    + exfalso. apply (Hret q); [ now left | assumption ].
Qed.

End Loops.

(** ** Filter.AllowsPattern *)

Section AllowsPattern.

Context {P : Type} `{Pattern.t P}.



End AllowsPattern.


(** ** Filter.HasPrefix *)

Lemma ancestors_from_S (parts : list string) (i : nat) :
  ancestors_from parts (S i)
  = strings.Join (firstn (S i) parts) sep :: ancestors_from parts i.
Proof.
  unfold ancestors_from. rewrite seq_S, rev_app_distr. reflexivity.
Qed.

Section HasPrefix.

Context {P : Type} `{Pattern.t P}.

Lemma returns_tail (f : Filter.t P) (a : string) (anc : list string) :
  returns f (a :: anc) -> returns f anc.
Proof. intros Hret x p Hin. apply Hret. now right. Qed.

Lemma walk_result_excluded (f : Filter.t P) (a : string) (anc : list string) :
  excluded f a -> walk_result f (a :: anc) false.
Proof.
  intros Hex. split; [ discriminate | ].
  intros [pre [x [post [Hanc [Hnot _]]]]]. exfalso.
  apply (Hnot a); [ | assumption ].
  destruct pre as [|y pre]; injection Hanc as -> _; now left.
Qed.

Lemma walk_result_here (f : Filter.t P) (a : string) (anc : list string) :
  ~ excluded f a -> Filter.include f = [] \/ included f a ->
  walk_result f (a :: anc) true.
Proof.
  intros Hnot Hinc. split; [ | reflexivity ].
  intros _. exists [], a, anc. split; [ reflexivity | ].
  split; [ | assumption ].
  intros x [<-|[]]. assumption.
Qed.

Lemma walk_result_next (f : Filter.t P) (a : string) (anc : list string) (b : bool) :
  ~ excluded f a -> Filter.include f <> [] -> ~ included f a ->
  walk_result f anc b -> walk_result f (a :: anc) b.
Proof.
  intros Hnot Hne Hninc [Hto Hfrom]. split.
  - intros Hb. destruct (Hto Hb) as [pre [x [post [-> [Hpre Hx]]]]].
    exists (a :: pre), x, post. split; [ reflexivity | ].
    split; [ | assumption ].
    intros y [<-|Hin]; [ assumption | now apply Hpre ].
  - intros [pre [x [post [Hanc [Hpre Hx]]]]]. apply Hfrom.
    destruct pre as [|y pre].
    + injection Hanc as <- _. destruct Hx; contradiction.
    + injection Hanc as <- ->. exists pre, x, post.
      split; [ reflexivity | ].
      split; [ | assumption ].
      intros z Hin. apply Hpre. now right.
Qed.

(** C6 (amended): [HasPrefix] on a non-nil filter splits the prefix at the
    separator and examines the ancestor prefixes from the full prefix down
    to its first component alone, the longest first; the prefix of no
    component is not examined.  Provided the tests return: if an exclude
    pattern matches an examined ancestor the walk is aborted and the result
    is false; otherwise with an empty include list the result is true at
    the first ancestor; otherwise the result is true exactly when the
    [HasPrefix] of some include pattern holds for an examined ancestor. *)
Theorem HasPrefix_walks_ancestors (f : Filter.t P) (prefix : string) :
  returns f (ancestors prefix) ->
  exists b,
    Filter.HasPrefix (Some f) prefix = Ok b
    /\ walk_result f (ancestors prefix) b.
Proof.
  unfold Filter.HasPrefix, ancestors.
  generalize (strings.Split prefix sep) as parts. intros parts.
  generalize (List.length parts) as i.
  induction i as [|i IH]; intros Hret.
  - exists false. split; [ reflexivity | ].
    split; [ discriminate | ].
    intros [pre [a [post [Hanc _]]]]. destruct pre; discriminate.
  - rewrite ancestors_from_S in Hret |- *.
    set (a := strings.Join (firstn (S i) parts) sep) in *.
    cbn [Filter.HasPrefix_loop]. fold a.
    destruct (first_returns (fun p => Pattern.Match p a) (Filter.exclude f))
      as [[e [Hf [Hin He]]]|[Hf Hall]].
    { intros q Hq. apply (Hret a q); [ now left | assumption ]. }
    + rewrite Hf. cbn [bind]. exists false. split; [ reflexivity | ].
      apply walk_result_excluded. now exists e.
    + rewrite Hf. cbn [bind].
      assert (Hnot : ~ excluded f a).
      { intros [e [Hin He]]. rewrite (Hall e Hin) in He. discriminate. }
      destruct (Filter.include f) as [|p0 ps] eqn:Hinc.
      * exists true. split; [ reflexivity | ].
        apply walk_result_here; [ assumption | now left ].
      * cbn [List.length Nat.eqb]. rewrite <- Hinc in *.
        destruct (first_returns (fun p => Pattern.HasPrefix p a) (Filter.include f))
          as [[p [Hg [Hpin Hp]]]|[Hg Hnone]].
        { intros q Hq. apply (Hret a q); [ now left | assumption ]. }
        -- rewrite Hg. cbn [bind]. exists true. split; [ reflexivity | ].
           apply walk_result_here; [ assumption | right; now exists p ].
        -- rewrite Hg. cbn [bind].
           destruct (IH (returns_tail _ _ _ Hret)) as [b [Hb Hwalk]].
           exists b. split; [ assumption | ].
           apply walk_result_next; try assumption.
           ++ rewrite Hinc. discriminate.
           ++ intros [p [Hpin Hp]]. rewrite (Hnone p Hpin) in Hp. discriminate.
Qed.

End HasPrefix.

(** The tests of the filter with include [foo] return on every prefix, and
    the walk over the ancestors of [foo/bar] ends with some result. *)
Lemma HasPrefix_walks_ancestors_witness :
  exists f,
    New ["foo"] [] = Ok f
    /\ returns f (ancestors "foo/bar")
    /\ exists b,
         Filter.HasPrefix (Some f) "foo/bar" = Ok b
         /\ walk_result f (ancestors "foo/bar") b.
Proof.
  pose (f := match New ["foo"] [] with
             | Ok f => f
             | Panic => Filter.mk [] []
             end).
  assert (Hret : returns f (ancestors "foo/bar")).
  { intros a p _. split; intros Hp; vm_compute in Hp;
      [ contradiction | destruct Hp as [<-|[]]; discriminate ]. }
  exists f. split; [ vm_compute; reflexivity | ].
  split; [ exact Hret | ].
  exact (HasPrefix_walks_ancestors f "foo/bar" Hret).
Defined.

(** C6 (as stated, refuted): were the ancestors examined down to the empty
    one, the filter with include [foo] would answer true for the prefix
    [bar], the empty string being a prefix of [foo/]; it answers false. *)
Lemma HasPrefix_stops_at_first_component :
  ~ (forall (f : Filter.t pattern) (prefix : string),
        returns f (ancestors_to_empty prefix) ->
        exists b,
          Filter.HasPrefix (Some f) prefix = Ok b
          /\ walk_result f (ancestors_to_empty prefix) b).
Proof.
  intros Hall.
  pose (f := match New ["foo"] [] with
             | Ok f => f
             | Panic => Filter.mk [] []
             end).
  destruct (Hall f "bar") as [b [Hb [Hto Hfrom]]].
  { intros a p _. split; intros Hp; vm_compute in Hp;
      [ contradiction | destruct Hp as [<-|[]]; discriminate ]. }
  assert (Hfalse : Filter.HasPrefix (Some f) "bar" = Ok false)
    by (vm_compute; reflexivity).
  rewrite Hfalse in Hb. injection Hb as <-.
  assert (Htrue : false = true); [ | discriminate ].
  apply Hfrom. exists ["bar"], "", []. split; [ vm_compute; reflexivity | ].
  split.
  - intros x _ [p [Hin _]]. vm_compute in Hin. exact Hin.
  - right. exists (nth 0 (Filter.include f) (NoOp None)).
    split; [ now left | vm_compute; reflexivity ].
Qed.

(** ** Cleaning at query time *)

(** C8 (amended): [AllowsPattern], and [Allows] with it, answers for a
    file name as for the cleaned file name, on every filter, the nil one
    included.  ([HasPrefix] splits the prefix as it is given.) *)
Theorem AllowsPattern_cleans_first {P : Type} `{Pattern.t P}
  (f : option (Filter.t P)) (p : string) :
  Filter.AllowsPattern f p = Filter.AllowsPattern f (filepath.Clean p)
  /\ Filter.Allows f p = Filter.Allows f (filepath.Clean p).
Proof.
  assert (Heq : Filter.AllowsPattern f p
                = Filter.AllowsPattern f (filepath.Clean p)).
  { unfold Filter.AllowsPattern. now rewrite Clean_idempotent. }
  split; [ assumption | ].
  unfold Filter.Allows. now rewrite Heq.
Qed.

(** C8 (as stated, refuted): the filter with include [foo] answers false
    for the prefix [./foo] and true for the cleaned prefix [foo]. *)
Lemma HasPrefix_does_not_clean :
  ~ (forall (f : Filter.t pattern) (p : string),
        Filter.AllowsPattern (Some f) p
        = Filter.AllowsPattern (Some f) (filepath.Clean p)
        /\ Filter.HasPrefix (Some f) p
           = Filter.HasPrefix (Some f) (filepath.Clean p)).
Proof.
  intros Hall.
  pose (f := match New ["foo"] [] with
             | Ok f => f
             | Panic => Filter.mk [] []
             end).
  destruct (Hall f "./foo") as [_ Heq].
  vm_compute in Heq. discriminate.
Qed.

(** ** Pattern strings *)

Lemma local_cases (c : string) :
  local c = true ->
  c = "*" \/ c = "*.*" \/ c = "." \/ c = "./" \/ c = ".\".
Proof.
  unfold local, localDirSet. cbn [existsb]. intros Hc.
  repeat (apply orb_true_iff in Hc; destruct Hc as [Hc|Hc];
          [ apply String.eqb_eq in Hc; tauto | ]).
  discriminate.
Qed.

Lemma prefix_star (c : string) :
  strings.HasPrefix c "*" = true -> c = "*" ++ drop 1 c.
Proof.
  intros Hp. apply prefix_inv in Hp. destruct Hp as [t ->]. reflexivity.
Qed.

(** The string of a compiled pattern is the canonical form of the raw
    pattern. *)
Lemma NewPattern_String (raw : string) (p : pattern) :
  NewPattern raw = Ok p -> Pattern.String p = canonical raw.
Proof.
  unfold NewPattern, canonical. set (c := filepath.Clean raw).
  destruct (local c) eqn:Hlocal.
  { intros Hp. injection Hp as <-. cbn.
    destruct (local_cases c Hlocal) as [->|[->|[->|[->| ->]]]]; reflexivity. }
  destruct (strings.Contains c sep) eqn:Hsep.
  - rewrite andb_false_r. cbn [negb andb].
    destruct (strings.Contains c "**") eqn:Hss.
    + rewrite andb_false_r. cbn [negb].
      destruct (regexp.MustCompile _); [ | discriminate ].
      intros Hp. injection Hp as <-. reflexivity.
    + destruct (strings.Contains c "*") eqn:Hs; cbn [andb negb].
      * intros Hp. injection Hp as <-. reflexivity.
      * destruct (strings.HasPrefix c sep).
        -- destruct (strings.HasSuffix (drop 1 c) sep);
             intros Hp; injection Hp as <-; reflexivity.
        -- intros Hp. injection Hp as <-. reflexivity.
  - rewrite !andb_false_r. cbn [negb andb]. rewrite andb_true_r.
    destruct ((1 <? String.length c) && strings.HasPrefix c "*"
              && String.eqb (take (String.length c - 1) (drop 1 c)) (filepath.Ext c))
      eqn:Hext.
    + intros Hp. injection Hp as <-. cbn.
      apply andb_true_iff in Hext. destruct Hext as [Hext Heq].
      apply andb_true_iff in Hext. destruct Hext as [_ Hstar].
      apply String.eqb_eq in Heq. rewrite <- Heq.
      rewrite (prefix_star c Hstar) at 3. f_equal.
      rewrite <- (take_all (drop 1 c)) at 2. f_equal.
      rewrite str_length_drop. reflexivity.
    + destruct (strings.Contains c "*").
      * destruct (regexp.MustCompile _); [ | discriminate ].
        intros Hp. injection Hp as <-. reflexivity.
      * intros Hp. injection Hp as <-. reflexivity.
Qed.

Lemma convertToPatterns_Strings (raws : list string) (ps : list pattern) :
  convertToPatterns raws = Ok ps ->
  Filter.patternsToStrings ps = map canonical raws.
Proof.
  revert ps. induction raws as [|raw raws IH]; intros ps; simpl.
  - intros Hps. injection Hps as <-. reflexivity.
  - destruct (NewPattern raw) as [p|] eqn:Hp; [ | discriminate ].
    destruct (convertToPatterns raws) as [ps'|]; [ | discriminate ].
    cbn [bind]. intros Hps. injection Hps as <-.
    cbn [Filter.patternsToStrings map].
    rewrite (NewPattern_String _ _ Hp). f_equal. now apply IH.
Qed.

Lemma Join_SplitList_no_list_separator (c : string) :
  strings.Contains c ":" = false ->
  strings.Join (filepath.SplitList c) sep = c.
Proof.
  unfold strings.Contains, filepath.SplitList, strings.Split. intros Hc.
  destruct c as [|a c]; [ reflexivity | ].
  cbn [is_empty String.length strings.fill].
  change (String filepath.ListSeparator "") with ":".
  destruct (strings.cut ":" (String a c)); [ discriminate | reflexivity ].
Qed.

(** A raw pattern that is clean and holds no list separator is its own
    canonical form. *)
Lemma canonical_clean (raw : string) :
  filepath.Clean raw = raw -> strings.Contains raw ":" = false ->
  canonical raw = raw.
Proof.
  intros Hclean Hcolon. unfold canonical. rewrite Hclean.
  destruct (_ && _); [ now apply Join_SplitList_no_list_separator | reflexivity ].
Qed.

Lemma canonical_no_list_separator (raw : string) :
  strings.Contains (filepath.Clean raw) ":" = false ->
  canonical raw = filepath.Clean raw.
Proof.
  intros Hcolon. unfold canonical.
  rewrite (Join_SplitList_no_list_separator _ Hcolon). now destruct (_ && _).
Qed.

(** C7 (amended): for raw patterns whose cleaned forms hold no list
    separator, the filter built by [New], when [New] returns, gives back
    with [Include] and [Exclude] the cleaned raw patterns, in order.  The
    original strings come back when they are clean. *)
Theorem Include_Exclude_cleaned (include exclude : list string)
  (f : Filter.t pattern) :
  New include exclude = Ok f ->
  Forall (fun raw => strings.Contains (filepath.Clean raw) ":" = false)
    (include ++ exclude)%list ->
  (Filter.Include f = map filepath.Clean include
   /\ Filter.Exclude f = map filepath.Clean exclude)
  /\ (Forall (fun raw => filepath.Clean raw = raw) (include ++ exclude)%list ->
      Filter.Include f = include /\ Filter.Exclude f = exclude).
Proof.
  unfold New, NewFromPatterns.
  destruct (convertToPatterns include) as [inc|] eqn:Hinc; [ | discriminate ].
  destruct (convertToPatterns exclude) as [exc|] eqn:Hexc; [ | discriminate ].
  cbn [bind]. intros Hf Hcolon. injection Hf as <-.
  apply Forall_app in Hcolon. destruct Hcolon as [Hci Hce].
  unfold Filter.Include, Filter.Exclude. cbn [Filter.include Filter.exclude].
  rewrite (convertToPatterns_Strings _ _ Hinc), (convertToPatterns_Strings _ _ Hexc).
  assert (Hi : map canonical include = map filepath.Clean include).
  { apply map_ext_Forall. eapply Forall_impl; [ | exact Hci ].
    intros raw. apply canonical_no_list_separator. }
  assert (He : map canonical exclude = map filepath.Clean exclude).
  { apply map_ext_Forall. eapply Forall_impl; [ | exact Hce ].
    intros raw. apply canonical_no_list_separator. }
  rewrite Hi, He. split; [ split; reflexivity | ].
  intros Hclean. apply Forall_app in Hclean. destruct Hclean as [Hli Hle].
  split.
  - rewrite <- (map_id include) at 2. now apply map_ext_Forall.
  - rewrite <- (map_id exclude) at 2. now apply map_ext_Forall.
Qed.

(** The filter with include [./src//lib/] and [src/**/*.go] and exclude
    [vendor] gives back [src/lib], [src/**/*.go] and [vendor]. *)
Lemma Include_Exclude_cleaned_witness :
  exists f,
    New ["./src//lib/"; "src/**/*.go"] ["vendor"] = Ok f
    /\ Filter.Include f = ["src/lib"; "src/**/*.go"]
    /\ Filter.Exclude f = ["vendor"].
Proof.
  pose (f := match New ["./src//lib/"; "src/**/*.go"] ["vendor"] with
             | Ok f => f
             | Panic => Filter.mk [] []
             end).
  assert (Hf : New ["./src//lib/"; "src/**/*.go"] ["vendor"] = Ok f)
    by (vm_compute; reflexivity).
  exists f. split; [ exact Hf | ].
  apply (Include_Exclude_cleaned _ _ f Hf).
  repeat constructor.
Defined.

(** C7 (as stated, refuted): the raw pattern [a//b] comes back as [a/b]. *)
Lemma Include_is_cleaned :
  ~ (forall (include exclude : list string) (f : Filter.t pattern),
        New include exclude = Ok f ->
        Filter.Include f = include /\ Filter.Exclude f = exclude).
Proof.
  intros Hall.
  pose (f := match New ["a//b"] [] with
             | Ok f => f
             | Panic => Filter.mk [] []
             end).
  destruct (Hall ["a//b"] [] f) as [Hinc _]; [ vm_compute; reflexivity | ].
  vm_compute in Hinc. discriminate.
Qed.

(** ** Simple extensions and the local directory *)

Lemma Contains_sep_has_sep (s : string) : strings.Contains s sep = has_sep s.
Proof.
  unfold strings.Contains, sep.
  induction s as [|c s IH]; [ reflexivity | ].
  cbn [strings.cut String.prefix has_sep].
  unfold filepath.IsPathSeparator.
  destruct (ascii_dec filepath.Separator c) as [<-|Hc].
  - rewrite prefix_nil. reflexivity.
  - destruct (Ascii.eqb_spec c filepath.Separator) as [->|_]; [ contradiction | ].
    cbn [orb]. rewrite <- IH.
    destruct (strings.cut (String filepath.Separator "") s) as [[a b]|]; reflexivity.
Qed.

(** A single element other than the empty one and [.] is clean. *)
Lemma Clean_single_element (s : string) :
  has_sep s = false -> s <> "" -> s <> "." -> filepath.Clean s = s.
Proof.
  intros Hs He Hd.
  destruct (Join_not_rooted s [] He Hs) as [Hp Hn]. cbn [strings.Join] in Hp, Hn.
  rewrite (Clean_not_rooted s Hn Hp), (elements_single s Hs). cbv zeta.
  cbn [fold_left]. unfold filepath.clean_step.
  destruct (String.eqb_spec s ""); [ contradiction | ].
  destruct (String.eqb_spec s "."); [ contradiction | ]. cbn [orb].
  destruct (String.eqb_spec s "..") as [->|_]; cbn [List.rev app strings.Join].
  - reflexivity.
  - now rewrite Hn.
Qed.

Lemma ends_with_nil (name : string) : ends_with name "".
Proof. exists name. symmetry. apply str_append_nil_r. Qed.

(** C9 (amended): a raw pattern made of a star and its own file extension,
    with no path separator, compiles to a pattern whose [HasPrefix] is
    true for every name and, unless the raw pattern is [*.*], whose
    [Match] is true exactly for the names that end with the extension;
    [*.*] belongs to the local directory set and matches every name.  So
    [*.txt] matches [a.txt], [dir/a.txt] and [dir/sub/a.txt] and neither
    [a.txtx] nor [a.tx]. *)
Theorem simple_extension_semantics (raw : string) :
  star_ext raw ->
  exists p,
    NewPattern raw = Ok p
    /\ (forall name, Pattern.HasPrefix p name = Ok true)
    /\ (forall name, exists b,
          Pattern.Match p name = Ok b
          /\ (raw <> "*.*" -> (b = true <-> ends_with name (filepath.Ext raw)))
          /\ (raw = "*.*" -> b = true))
    /\ (raw = "*.txt" ->
        Pattern.Match p "a.txt" = Ok true
        /\ Pattern.Match p "dir/a.txt" = Ok true
        /\ Pattern.Match p "dir/sub/a.txt" = Ok true
        /\ Pattern.Match p "a.txtx" = Ok false
        /\ Pattern.Match p "a.tx" = Ok false).
Proof.
  intros [Hsep Hraw].
  assert (Hclean : filepath.Clean raw = raw).
  { apply Clean_single_element.
    - now rewrite <- Contains_sep_has_sep.
    - rewrite Hraw. discriminate.
    - rewrite Hraw. discriminate. }
  unfold NewPattern. rewrite Hclean, Hsep.
  remember (filepath.Ext raw) as e eqn:He.
  destruct (local raw) eqn:Hlocal.
  - eexists. split; [ reflexivity | ].
    split; [ reflexivity | ]. split.
    + intros name. exists true. split; [ reflexivity | ].
      split; [ | reflexivity ].
      intros Hne. split; [ intros _ | reflexivity ].
      destruct (local_cases raw Hlocal) as [H1|[H1|[H1|[H1|H1]]]];
        try (rewrite H1 in Hraw; discriminate).
      * rewrite H1 in He. vm_compute in He. rewrite He. apply ends_with_nil.
      * contradiction.
    + intros ->. discriminate.
  - assert (Hcond : (1 <? String.length raw) && negb false
                    && strings.HasPrefix raw "*"
                    && String.eqb (take (String.length raw - 1) (drop 1 raw)) e
                    = true).
    { rewrite Hraw.
      assert (Hlen : (1 <? String.length ("*" ++ e)) = true).
      { destruct e; [ | reflexivity ].
        rewrite Hraw in Hlocal. discriminate. }
      rewrite Hlen. cbn [negb andb].
      unfold strings.HasPrefix. rewrite prefix_append. cbn [andb].
      replace (String.length ("*" ++ e) - 1) with (String.length e)
        by (cbn [append String.length]; lia).
      change (drop 1 ("*" ++ e)) with e. rewrite take_all.
      apply String.eqb_refl. }
    rewrite Hcond. eexists. split; [ reflexivity | ].
    split; [ reflexivity | ]. split.
    + intros name. exists (strings.HasSuffix name e). split; [ reflexivity | ].
      split.
      * intros _. apply HasSuffix_ends_with.
      * intros ->. discriminate.
    + intros ->. vm_compute in He. rewrite He. run.
Qed.

(** [*.log] is a star followed by its own extension. *)
Lemma simple_extension_semantics_witness :
  star_ext "*.log"
  /\ exists p,
       NewPattern "*.log" = Ok p
       /\ (forall name, Pattern.HasPrefix p name = Ok true)
       /\ (forall name, exists b,
             Pattern.Match p name = Ok b
             /\ ("*.log" <> "*.*" ->
                 (b = true <-> ends_with name (filepath.Ext "*.log")))
             /\ ("*.log" = "*.*" -> b = true))
       /\ ("*.log" = "*.txt" ->
           Pattern.Match p "a.txt" = Ok true
           /\ Pattern.Match p "dir/a.txt" = Ok true
           /\ Pattern.Match p "dir/sub/a.txt" = Ok true
           /\ Pattern.Match p "a.txtx" = Ok false
           /\ Pattern.Match p "a.tx" = Ok false).
Proof.
  assert (Hform : star_ext "*.log") by (split; vm_compute; reflexivity).
  split; [ exact Hform | ].
  exact (simple_extension_semantics "*.log" Hform).
Defined.

(** C9 (as stated, refuted): [*.*] is a star followed by its own
    extension [.*], yet its pattern matches [a], which does not end with
    [.*]. *)
Lemma star_dot_star_matches_everything :
  ~ (forall (raw : string) (p : pattern) (name : string),
        star_ext raw -> NewPattern raw = Ok p ->
        (Pattern.Match p name = Ok true <-> ends_with name (filepath.Ext raw))
        /\ Pattern.HasPrefix p name = Ok true).
Proof.
  intros Hall.
  destruct (Hall "*.*" (NoOp (Some (noOpMatcher.mk "*.*"))) "a") as [[Hto _] _].
  - split; vm_compute; reflexivity.
  - vm_compute. reflexivity.
  - destruct (Hto eq_refl) as [pre Hpre].
    apply (f_equal String.length) in Hpre.
    rewrite str_length_append in Hpre. vm_compute in Hpre.
    change (1 = String.length pre + 2) in Hpre. lia.
Qed.

Lemma convertToPatterns_In (raws : list string) (ps : list pattern) (raw : string) :
  convertToPatterns raws = Ok ps -> In raw raws ->
  exists p, NewPattern raw = Ok p /\ In p ps.
Proof.
  revert ps. induction raws as [|r raws IH]; intros ps Hps Hin; [ contradiction | ].
  simpl in Hps.
  destruct (NewPattern r) as [p|] eqn:Hp; [ | discriminate ].
  destruct (convertToPatterns raws) as [ps'|]; [ | discriminate ].
  cbn [bind] in Hps. injection Hps as <-.
  destruct Hin as [->|Hin].
  - exists p. split; [ assumption | now left ].
  - destruct (IH ps' eq_refl Hin) as [q [Hq Hqin]].
    exists q. split; [ assumption | now right ].
Qed.

(** ** Where a test can panic *)

Lemma fill_not_nil (k : nat) (sep' s : string) : strings.fill k sep' s <> [].
Proof.
  destruct k; simpl; [ discriminate | ].
  destruct (strings.cut sep' s) as [[a b]|]; discriminate.
Qed.

(** A slice made by [SplitN] has its elements in its array. *)
Lemma SplitN_index (s sep' : string) (n i : nat) :
  i < strings.len (strings.SplitN s sep' n) ->
  exists x, strings.index (strings.SplitN s sep' n) i = Ok x.
Proof.
  unfold strings.SplitN, strings.index. cbn [strings.len strings.arr].
  intros Hi. apply Nat.ltb_lt in Hi as Hlt. rewrite Hlt.
  destruct (nth_error _ i) as [x|] eqn:Hx; [ now exists x | ].
  apply nth_error_None in Hx. rewrite length_app in Hx. lia.
Qed.

Lemma SplitN_len_pos (s sep' : string) (n : nat) :
  0 < strings.len (strings.SplitN s sep' n).
Proof.
  unfold strings.SplitN. cbn [strings.len].
  pose proof (fill_not_nil (Nat.min n (String.length s + 1) - 1) sep' s) as Hne.
  destruct (strings.fill _ sep' s); [ contradiction | simpl; lia ].
Qed.

Lemma SplitList_no_list_separator (name : string) :
  strings.Contains name ":" = false ->
  filepath.SplitList name = [] \/ filepath.SplitList name = [name].
Proof.
  unfold strings.Contains, filepath.SplitList, strings.Split. intros Hc.
  destruct name as [|a name]; [ now left | right ].
  cbn [is_empty String.length strings.fill].
  change (String filepath.ListSeparator "") with ":".
  destruct (strings.cut ":" (String a name)); [ discriminate | reflexivity ].
Qed.

(** The first component never panics when the pattern has a component. *)
Lemma partial_dir_first (p : pathfulWildcardPattern.t) (dir : string) :
  pathfulWildcardPattern.wildDirs p <> [] ->
  exists st, pathfulWildcardPattern.partial_dir p 0 dir = Ok st.
Proof.
  intros Hne. unfold pathfulWildcardPattern.partial_dir.
  destruct (pathfulWildcardPattern.wildDirs p) as [|wd wds]; [ contradiction | ].
  cbn [nth_error]. set (splits := strings.SplitN wd "*" 2).
  pose proof (SplitN_len_pos wd "*" 2) as Hpos. fold splits in Hpos.
  apply Nat.ltb_lt in Hpos as Hlt. rewrite Hlt.
  destruct (SplitN_index wd "*" 2 0 Hpos) as [s0 Hs0]. fold splits in Hs0.
  rewrite Hs0. cbn [bind].
  assert (Hup : strings.upto splits 0 = Ok []) by reflexivity.
  destruct (negb (strings.HasPrefix (drop 0 dir) s0)).
  { rewrite Hup. cbn [bind]. eauto. }
  destruct (strings.len splits =? 2) eqn:Hlen; [ | eauto ].
  apply Nat.eqb_eq in Hlen.
  destruct (SplitN_index wd "*" 2 1) as [s1 Hs1]; [ fold splits; lia | ].
  fold splits in Hs1. rewrite Hs1. cbn [bind].
  destruct (strings.Contains s1 "*"); [ eauto | ].
  destruct (negb (strings.HasSuffix (drop 0 dir) s1)); [ | eauto ].
  rewrite Hup. cbn [bind]. eauto.
Qed.

Lemma partial_returns (p : pathfulWildcardPattern.t) (name : string) :
  pathfulWildcardPattern.wildDirs p <> [] ->
  strings.Contains name ":" = false ->
  exists s, pathfulWildcardPattern.partial p name = Ok s.
Proof.
  intros Hne Hname. unfold pathfulWildcardPattern.partial.
  destruct (SplitList_no_list_separator name Hname) as [-> | ->].
  - now exists name.
  - cbn [pathfulWildcardPattern.partial_loop].
    destruct (partial_dir_first p name Hne) as [[|s] ->]; cbn [bind]; eauto.
Qed.

Lemma NewPattern_pathful (raw : string) (q : pathfulWildcardPattern.t) :
  NewPattern raw = Ok (PathfulWildcard q) ->
  pathfulWildcardPattern.wildDirs q <> [].
Proof.
  unfold NewPattern. set (c := filepath.Clean raw).
  destruct (local c); [ discriminate | ].
  destruct (_ && String.eqb _ _); [ discriminate | ].
  destruct (strings.Contains c sep && strings.Contains c "**").
  { destruct (regexp.MustCompile _); discriminate. }
  destruct (strings.Contains c "*") eqn:Hstar.
  - destruct (negb (strings.Contains c sep)).
    { destruct (regexp.MustCompile _); discriminate. }
    intros Hq. injection Hq as <-. cbn [pathfulWildcardPattern.wildDirs].
    unfold filepath.SplitList, strings.Split.
    destruct c; [ discriminate | ].
    cbn [is_empty]. apply fill_not_nil.
  - destruct (strings.Contains c sep && strings.HasPrefix c sep);
      [ destruct (strings.HasSuffix (drop 1 c) sep) | ]; discriminate.
Qed.

(** The patterns compiled by [NewPattern] do not panic on a name that
    holds no list separator. *)
Lemma NewPattern_returns (raw : string) (p : pattern) (name : string) :
  NewPattern raw = Ok p -> strings.Contains name ":" = false ->
  Pattern.Match p name <> Panic /\ Pattern.HasPrefix p name <> Panic.
Proof.
  intros Hp Hname.
  destruct p as [q|q|q|q|q|q|n]; cbn; try (split; discriminate).
  unfold pathfulWildcardPattern.Match, pathfulWildcardPattern.HasPrefix.
  destruct (partial_returns q name (NewPattern_pathful raw q Hp) Hname) as [s ->].
  split; discriminate.
Qed.

(** A pathful-wildcard pattern panics on a name whose first component
    matches and that has a second component after a list separator. *)
Lemma pathful_panics_after_list_separator :
  exists p,
    NewPattern "a/*" = Ok p /\ Pattern.Match p "a/b:c" = Panic.
Proof. eexists. split; [ vm_compute; reflexivity | run ]. Qed.

(** ** The expression compiled for a wildcard pattern *)

Lemma prefix_cons (a b : ascii) (p s : string) :
  String.prefix (String a p) (String b s) = Ascii.eqb a b && String.prefix p s.
Proof.
  cbn [String.prefix]. destruct (ascii_dec a b) as [->|Hab].
  - now rewrite Ascii.eqb_refl.
  - apply Ascii.eqb_neq in Hab. now rewrite Hab.
Qed.

Lemma cut_length (old s a b : string) :
  strings.cut old s = Some (a, b) ->
  String.length s = String.length a + String.length old + String.length b.
Proof.
  revert a. induction s as [|x s IH]; intros a; cbn [strings.cut].
  - destruct old; cbn [String.prefix]; [ | discriminate ].
    intros Hc. injection Hc as <- <-. reflexivity.
  - destruct (String.prefix old (String x s)) eqn:Hp.
    + intros Hc. injection Hc as <- <-.
      apply prefix_inv in Hp. destruct Hp as [t Ht].
      rewrite Ht. rewrite drop_append, str_length_append. reflexivity.
    + destruct (strings.cut old s) as [[a' b']|]; [ | discriminate ].
      intros Hc. injection Hc as <- <-.
      cbn [String.length]. rewrite (IH a' eq_refl). lia.
Qed.

Lemma replace_enough (old new : string) (n m : nat) (s : string) :
  old <> "" -> String.length s <= n -> String.length s <= m ->
  strings.replace n s old new = strings.replace m s old new.
Proof.
  intros Hold. revert m s. induction n as [|n IH]; intros m s Hn Hm.
  - destruct s; [ | simpl in Hn; lia ].
    destruct m; cbn [strings.replace strings.cut]; [ reflexivity | ].
    destruct old; [ contradiction | reflexivity ].
  - destruct m as [|m].
    + destruct s; [ | simpl in Hm; lia ].
      cbn [strings.replace strings.cut].
      destruct old; [ contradiction | reflexivity ].
    + cbn [strings.replace].
      destruct (strings.cut old s) as [[a b]|] eqn:Hc; [ | reflexivity ].
      apply cut_length in Hc.
      assert (0 < String.length old) by (destruct old; [ contradiction | simpl; lia ]).
      rewrite (IH m b); [ reflexivity | lia | lia ].
Qed.

(** The text before the first instance of [old] is kept. *)
Lemma Replace_skip (old new u t : string) :
  old <> "" ->
  strings.cut old (u ++ t)
  = match strings.cut old t with
    | Some (a, b) => Some (u ++ a, b)
    | None => None
    end ->
  strings.Replace (u ++ t) old new = u ++ strings.Replace t old new.
Proof.
  intros Hold Hcut. unfold strings.Replace.
  destruct (String.length (u ++ t)) as [|n] eqn:Hlen.
  - rewrite str_length_append in Hlen.
    destruct u; [ | simpl in Hlen; lia ]. destruct t; [ | simpl in Hlen; lia ].
    reflexivity.
  - cbn [strings.replace]. rewrite Hcut.
    destruct (strings.cut old t) as [[a b]|] eqn:Hc.
    + apply cut_length in Hc as Hl.
      assert (0 < String.length old) by (destruct old; [ contradiction | simpl; lia ]).
      destruct (String.length t) as [|m] eqn:Ht; [ lia | ].
      cbn [strings.replace]. rewrite Hc, str_append_assoc.
      rewrite str_length_append in Hlen.
      rewrite (replace_enough old new n m b Hold); [ reflexivity | lia | lia ].
    + destruct (String.length t); cbn [strings.replace]; [ reflexivity | ].
      now rewrite Hc.
Qed.

(** An instance of [old] at the head is replaced. *)
Lemma Replace_hit (old new t : string) :
  old <> "" ->
  strings.Replace (old ++ t) old new = new ++ strings.Replace t old new.
Proof.
  intros Hold. unfold strings.Replace.
  assert (Hcut : strings.cut old (old ++ t) = Some ("", t)).
  { destruct old as [|x old]; [ contradiction | ].
    cbn [append strings.cut].
    change (String x (old ++ t)) with (String x old ++ t).
    now rewrite prefix_append, drop_append. }
  rewrite str_length_append.
  destruct (String.length old) as [|k] eqn:Hk.
  { destruct old; [ contradiction | discriminate ]. }
  cbn [Nat.add strings.replace]. rewrite Hcut. cbn [append]. f_equal.
  apply replace_enough; [ assumption | lia | lia ].
Qed.

Lemma QuoteMeta_cons (a : ascii) (c : string) :
  regexp.QuoteMeta (String a c) = render1 (TChar a) ++ regexp.QuoteMeta c.
Proof. cbn [regexp.QuoteMeta render1]. now destruct (regexp.special a). Qed.

(** A star in quoted text is escaped. *)
Lemma QuoteMeta_head (c : string) (a : ascii) (t : string) :
  regexp.QuoteMeta c = String a t -> a <> "*"%char.
Proof.
  destruct c as [|x c]; [ discriminate | ].
  cbn [regexp.QuoteMeta].
  destruct (regexp.special x) eqn:Hx; intros Hq; injection Hq as <- _.
  - discriminate.
  - intros ->. discriminate.
Qed.

Lemma prefix_star_QuoteMeta (c : string) :
  String.prefix "*" (regexp.QuoteMeta c) = false.
Proof.
  destruct (regexp.QuoteMeta c) as [|a t] eqn:Hq; [ reflexivity | ].
  rewrite prefix_cons. apply QuoteMeta_head in Hq.
  destruct (Ascii.eqb_spec "*" a); [ congruence | reflexivity ].
Qed.

(** A character other than a star holds no escaped star. *)
Lemma cut_star_skip (a : ascii) (c : string) :
  a <> "*"%char ->
  strings.cut "\*" (render1 (TChar a) ++ regexp.QuoteMeta c)
  = match strings.cut "\*" (regexp.QuoteMeta c) with
    | Some (x, y) => Some (render1 (TChar a) ++ x, y)
    | None => None
    end.
Proof.
  intros Ha. cbn [render1].
  assert (Hna : Ascii.eqb "*" a = false) by (apply Ascii.eqb_neq; congruence).
  destruct (regexp.special a) eqn:Hsp; cbn [append strings.cut].
  - rewrite !prefix_cons, Hna. cbn [andb].
    rewrite prefix_star_QuoteMeta, !andb_false_r.
    destruct (strings.cut "\*" (regexp.QuoteMeta c)) as [[x y]|]; reflexivity.
  - rewrite prefix_cons.
    destruct (Ascii.eqb_spec "\" a) as [<-|_]; [ discriminate | ]. cbn [andb].
    destruct (strings.cut "\*" (regexp.QuoteMeta c)) as [[x y]|]; reflexivity.
Qed.

(** The expression of a pathless-wildcard pattern. *)
Lemma Replace_QuoteMeta_stars (c : string) :
  strings.Replace (regexp.QuoteMeta c) "\*" ".*" = render (stars c).
Proof.
  induction c as [|a c IH]; [ reflexivity | ].
  cbn [stars render]. destruct (Ascii.eqb_spec a "*") as [->|Ha].
  - change (regexp.QuoteMeta (String "*" c)) with ("\*" ++ regexp.QuoteMeta c).
    rewrite Replace_hit by discriminate. now rewrite IH.
  - rewrite QuoteMeta_cons, Replace_skip, IH;
      [ reflexivity | discriminate | now apply cut_star_skip ].
Qed.

Lemma prefix_star_any_QuoteMeta (p c : string) :
  String.prefix (String "*" p) (regexp.QuoteMeta c) = false.
Proof.
  destruct (regexp.QuoteMeta c) as [|a t] eqn:Hq; [ reflexivity | ].
  rewrite prefix_cons. apply QuoteMeta_head in Hq.
  destruct (Ascii.eqb_spec "*" a); [ congruence | reflexivity ].
Qed.

Lemma prefix_escaped_star_QuoteMeta (c : string) :
  starts_with_star c = false -> String.prefix "\*" (regexp.QuoteMeta c) = false.
Proof.
  destruct c as [|x c]; [ reflexivity | ].
  cbn [starts_with_star regexp.QuoteMeta]. intros Hx.
  destruct (regexp.special x) eqn:Hsp; rewrite !prefix_cons.
  - rewrite Ascii.eqb_sym in Hx. rewrite Hx. now rewrite andb_false_r.
  - destruct (Ascii.eqb_spec "\" x) as [<-|_]; [ discriminate | reflexivity ].
Qed.

(** A character that does not begin a pair of stars holds no escaped
    pair. *)
Lemma cut_double_star_skip (a : ascii) (c : string) :
  Ascii.eqb a "*" && starts_with_star c = false ->
  strings.cut "\*\*" (render1 (TChar a) ++ regexp.QuoteMeta c)
  = match strings.cut "\*\*" (regexp.QuoteMeta c) with
    | Some (x, y) => Some (render1 (TChar a) ++ x, y)
    | None => None
    end.
Proof.
  intros Hpair. cbn [render1].
  destruct (regexp.special a) eqn:Hsp; cbn [append strings.cut].
  - rewrite !prefix_cons.
    assert (H2 : Ascii.eqb "\" a
                 && String.prefix "*\*" (regexp.QuoteMeta c) = false).
    { now rewrite prefix_star_any_QuoteMeta, andb_false_r. }
    assert (H0 : Ascii.eqb "\" "\"
                 && (Ascii.eqb "*" a
                     && String.prefix "\*" (regexp.QuoteMeta c)) = false).
    { destruct (Ascii.eqb_spec a "*") as [->|Ha].
      - cbn [andb] in Hpair.
        now rewrite (prefix_escaped_star_QuoteMeta c Hpair), !andb_false_r.
      - destruct (Ascii.eqb_spec "*" a); [ congruence | reflexivity ]. }
    rewrite H0, H2.
    destruct (strings.cut "\*\*" (regexp.QuoteMeta c)) as [[x y]|]; reflexivity.
  - rewrite prefix_cons.
    destruct (Ascii.eqb_spec "\" a) as [<-|_]; [ discriminate | ]. cbn [andb].
    destruct (strings.cut "\*\*" (regexp.QuoteMeta c)) as [[x y]|]; reflexivity.
Qed.

(** The expression of a double-wildcard pattern. *)
Lemma Replace_QuoteMeta_double_stars (c : string) :
  strings.Replace (regexp.QuoteMeta c) "\*\*" ".*" = render (double_stars c).
Proof.
  enough (Hboth : strings.Replace (regexp.QuoteMeta c) "\*\*" ".*"
                  = render (double_stars c)
                  /\ forall a,
                       strings.Replace (regexp.QuoteMeta (String a c)) "\*\*" ".*"
                       = render (double_stars (String a c)))
    by apply Hboth.
  induction c as [|b c [IH0 IH1]].
  - split; [ reflexivity | ].
    intros a. rewrite QuoteMeta_cons, Replace_skip;
      [ reflexivity | discriminate | ].
    apply cut_double_star_skip. apply andb_false_r.
  - split; [ apply IH1 | ].
    intros a. cbn [double_stars].
    destruct (Ascii.eqb a "*" && Ascii.eqb b "*") eqn:Hab.
    + apply andb_true_iff in Hab. destruct Hab as [Ha Hb].
      apply Ascii.eqb_eq in Ha, Hb. subst a b.
      change (regexp.QuoteMeta (String "*" (String "*" c)))
        with ("\*\*" ++ regexp.QuoteMeta c).
      rewrite Replace_hit by discriminate. cbn [render render1]. now rewrite IH0.
    + rewrite QuoteMeta_cons, Replace_skip, IH1;
        [ reflexivity | discriminate | now apply cut_double_star_skip ].
Qed.

(** ** Parsing the expression *)

Lemma first_lo (s0 : N) (sz : nat) (lo hi : N) :
  utf8.first s0 = Some (sz, lo, hi) -> (128 <= lo)%N.
Proof.
  unfold utf8.first.
  repeat match goal with
         | |- context [ if ?b then _ else _ ] => destruct b
         end;
    intros Hs; try discriminate; injection Hs as <- <- <-; lia.
Qed.

(** A rune is one byte wide or made of bytes that are not ASCII. *)
Lemma decode_width (a : ascii) (t : string) (r : N) (n : nat) :
  utf8.DecodeRuneInString (String a t) = (r, n) ->
  exists k, n = S k /\ high_bytes k t = true.
Proof.
  assert (Hcont : forall b, utf8.cont b = true -> (128 <=? b)%N = true).
  { intros b Hb. apply andb_true_iff in Hb. tauto. }
  unfold utf8.DecodeRuneInString.
  destruct (N_of_ascii a <? 128)%N.
  { intros Hd. injection Hd as <- <-. now exists 0. }
  destruct (utf8.first (N_of_ascii a)) as [[[sz lo] hi]|] eqn:Hf.
  2: { intros Hd. injection Hd as <- <-. now exists 0. }
  apply first_lo in Hf.
  destruct t as [|c1 t1].
  { intros Hd. injection Hd as <- <-. now exists 0. }
  destruct ((N_of_ascii c1 <? lo) || (hi <? N_of_ascii c1))%N eqn:H1.
  { intros Hd. injection Hd as <- <-. now exists 0. }
  apply orb_false_iff in H1. destruct H1 as [H1 _]. apply N.ltb_ge in H1.
  assert (Hc1 : (128 <=? N_of_ascii c1)%N = true) by (apply N.leb_le; lia).
  destruct (sz <=? 2).
  { intros Hd. injection Hd as <- <-. exists 1. cbn [high_bytes].
    now rewrite Hc1. }
  destruct t1 as [|c2 t2].
  { intros Hd. injection Hd as <- <-. now exists 0. }
  destruct (utf8.cont (N_of_ascii c2)) eqn:H2; cbn [negb].
  2: { intros Hd. injection Hd as <- <-. now exists 0. }
  apply Hcont in H2.
  destruct (sz <=? 3).
  { intros Hd. injection Hd as <- <-. exists 2. cbn [high_bytes].
    now rewrite Hc1, H2. }
  destruct t2 as [|c3 t3].
  { intros Hd. injection Hd as <- <-. now exists 0. }
  destruct (utf8.cont (N_of_ascii c3)) eqn:H3; cbn [negb].
  2: { intros Hd. injection Hd as <- <-. now exists 0. }
  apply Hcont in H3.
  intros Hd. injection Hd as <- <-. exists 3. cbn [high_bytes].
  now rewrite Hc1, H2, H3.
Qed.

Lemma special_is_ascii (a : ascii) :
  regexp.special a = true ->
  (N_of_ascii a <? 128)%N = true /\ regexp.isalnum (N_of_ascii a) = false.
Proof.
  unfold regexp.special. cbn [existsb]. intros Ha.
  repeat (apply orb_true_iff in Ha; destruct Ha as [Ha|Ha];
          [ apply Ascii.eqb_eq in Ha; subst a; split; reflexivity | ]).
  discriminate.
Qed.

Lemma not_special (a : ascii) :
  regexp.special a = false ->
  Ascii.eqb a "^" = false /\ Ascii.eqb a "$" = false
  /\ Ascii.eqb a "." = false /\ Ascii.eqb a "\" = false
  /\ regexp.repeat_op a = false.
Proof.
  unfold regexp.special, regexp.repeat_op. cbn [existsb]. intros Ha.
  repeat (apply orb_false_iff in Ha; destruct Ha as [? Ha]).
  repeat split; try assumption.
  repeat (apply orb_false_iff; split; try assumption).
Qed.

Lemma render_cons_end (t : token) (ts : list token) :
  render (t :: ts) ++ "$" = render1 t ++ (render ts ++ "$").
Proof. cbn [render]. apply str_append_assoc. Qed.

(** Bytes that are not ASCII are characters of the pattern, rendered as
    they are. *)
Lemma render_high_bytes (k : nat) (ts : list token) :
  high_bytes k (render ts ++ "$") = true ->
  exists ts',
    drop k (render ts ++ "$") = render ts' ++ "$"
    /\ List.length ts' + k = List.length ts
    /\ (In TAny ts -> In TAny ts').
Proof.
  revert ts. induction k as [|k IH]; intros ts Hk.
  - exists ts. split; [ reflexivity | ]. split; [ lia | auto ].
  - destruct ts as [|[|a] ts].
    + discriminate.
    + discriminate.
    + rewrite render_cons_end in Hk |- *. cbn [render1] in Hk |- *.
      destruct (regexp.special a); [ discriminate | ].
      cbn [append high_bytes drop] in Hk |- *.
      apply andb_true_iff in Hk. destruct Hk as [_ Hk].
      destruct (IH ts Hk) as [ts' [Hd [Hl Hin]]].
      exists ts'. split; [ assumption | ]. split; [ simpl; lia | ].
      intros [Habs|Hany]; [ discriminate | auto ].
Qed.

(** A wildcard of the pattern is a wildcard of the program. *)
Lemma parse_render_any (n : nat) :
  forall (ts : list token) (fuel : nat) (prog : list regexp.inst),
    List.length ts <= n ->
    regexp.parse fuel (render ts ++ "$") = Some prog ->
    In TAny ts -> In regexp.AnyNotNLStar prog.
Proof.
  induction n as [|n IH]; intros ts fuel prog Hlen Hparse Hany.
  { destruct ts; [ contradiction | simpl in Hlen; lia ]. }
  destruct ts as [|t ts]; [ contradiction | ].
  rewrite render_cons_end in Hparse.
  destruct t as [|a].
  - cbn [render1 append] in Hparse.
    destruct fuel as [|fuel]; [ discriminate | ].
    cbn in Hparse.
    destruct (regexp.starts_with_repeat_op (render ts ++ "$")); [ discriminate | ].
    destruct (regexp.parse fuel (render ts ++ "$")); [ | discriminate ].
    injection Hparse as <-. now left.
  - destruct Hany as [Habs|Hany]; [ discriminate | ].
    simpl in Hlen. cbn [render1] in Hparse.
    destruct (regexp.special a) eqn:Hsp.
    + cbn [append] in Hparse.
      destruct fuel as [|fuel]; [ discriminate | ].
      cbn in Hparse.
      destruct (_ && _); [ | discriminate ].
      destruct (regexp.parse fuel (render ts ++ "$")) as [prog'|] eqn:Hp;
        [ | discriminate ].
      injection Hparse as <-. right.
      apply (IH ts fuel prog'); [ lia | assumption | assumption ].
    + cbn [append] in Hparse.
      destruct fuel as [|fuel]; [ discriminate | ].
      destruct (not_special a Hsp) as [H1 [H2 [H3 [H4 _]]]].
      cbn [regexp.parse] in Hparse. rewrite H1, H2, H3, H4, Hsp in Hparse.
      destruct (utf8.DecodeRuneInString (String a (render ts ++ "$")))
        as [r w] eqn:Hd.
      destruct (_ && _); [ discriminate | ].
      destruct (regexp.starts_with_repeat_op _); [ discriminate | ].
      destruct (decode_width _ _ _ _ Hd) as [k [-> Hk]].
      cbn [drop] in Hparse.
      destruct (render_high_bytes k ts Hk) as [ts' [Hdrop [Hl Hin]]].
      rewrite Hdrop in Hparse.
      destruct (regexp.parse fuel (render ts' ++ "$")) as [prog'|] eqn:Hp;
        [ | discriminate ].
      injection Hparse as <-. right.
      apply (IH ts' fuel prog'); [ lia | assumption | auto ].
Qed.

Lemma cut_cons (old : string) (x : ascii) (s : string) :
  strings.cut old (String x s)
  = if String.prefix old (String x s)
    then Some ("", drop (String.length old) (String x s))
    else
      match strings.cut old s with
      | Some (a, b) => Some (String x a, b)
      | None => None
      end.
Proof. reflexivity. Qed.

Lemma Contains_star (c : string) :
  strings.Contains c "*" = true -> In TAny (stars c).
Proof.
  unfold strings.Contains. induction c as [|a c IH]; [ discriminate | ].
  cbn [strings.cut stars]. rewrite prefix_cons, prefix_nil, andb_true_r.
  rewrite Ascii.eqb_sym. destruct (Ascii.eqb a "*"); [ now left | ].
  intros Hc. right. apply IH.
  destruct (strings.cut "*" c) as [[x y]|]; [ reflexivity | discriminate ].
Qed.

Lemma Contains_double_star (c : string) :
  strings.Contains c "**" = true -> In TAny (double_stars c).
Proof.
  unfold strings.Contains.
  enough (Hboth :
            (strings.cut "**" c <> None -> In TAny (double_stars c))
            /\ forall a, strings.cut "**" (String a c) <> None ->
                         In TAny (double_stars (String a c))).
  { intros Hc. apply Hboth. destruct (strings.cut "**" c); [ discriminate | congruence ]. }
  induction c as [|b c [IH0 IH1]].
  - split; [ intros Hc; now contradiction Hc | ].
    intros a Hc. exfalso. apply Hc. cbn [strings.cut].
    rewrite prefix_cons. cbn [String.prefix]. now rewrite andb_false_r.
  - split; [ apply IH1 | ].
    intros a. rewrite cut_cons. cbn [double_stars].
    rewrite !prefix_cons, prefix_nil, andb_true_r, (Ascii.eqb_sym "*" a),
      (Ascii.eqb_sym "*" b).
    destruct (Ascii.eqb a "*" && Ascii.eqb b "*"); [ now left | ].
    intros Hc. right. apply IH1. intros Hnone.
    rewrite Hnone in Hc. now apply Hc.
Qed.

Lemma literals_keep_any (prog : list regexp.inst) :
  In regexp.AnyNotNLStar prog ->
  In regexp.AnyNotNLStar (snd (regexp.literals prog)).
Proof.
  induction prog as [|i prog IH]; [ contradiction | ].
  intros Hin. cbn [regexp.literals].
  destruct i as [| |r enc|]; try assumption.
  destruct (N.eqb r utf8.RuneError); [ assumption | ].
  destruct Hin as [Habs|Hin]; [ discriminate | ].
  specialize (IH Hin). destruct (regexp.literals prog) as [p rest]. assumption.
Qed.

(** The literal prefix of an expression with a wildcard is never the
    entire expression. *)
Lemma LiteralPrefix_not_complete (ts : list token) (re : regexp.Regexp) :
  regexp.MustCompile ("^" ++ render ts ++ "$") = Ok re ->
  In TAny ts -> snd (regexp.LiteralPrefix re) = false.
Proof.
  unfold regexp.MustCompile, regexp.Compile. cbn [append String.length regexp.parse].
  cbn.
  destruct (regexp.parse _ (render ts ++ "$")) as [prog|] eqn:Hparse;
    [ | discriminate ].
  intros Hre Hany. injection Hre as <-.
  unfold regexp.LiteralPrefix. cbn [regexp.prog].
  pose proof (parse_render_any _ ts _ prog (le_n _) Hparse Hany) as Hin.
  apply literals_keep_any in Hin.
  destruct (regexp.literals prog) as [lit rest]. cbn [snd] in Hin |- *.
  destruct rest as [|i rest]; [ reflexivity | ].
  destruct i; try reflexivity.
  destruct rest; [ | reflexivity ].
  destruct Hin as [Habs|[]]. discriminate.
Qed.

(** What a wildcard pattern holds: the cleaned pattern and the program
    compiled for its tokens. *)
Lemma NewPattern_double (raw : string) (q : doubleWildcardPattern.t) :
  NewPattern raw = Ok (DoubleWildcard q) ->
  strings.Contains (filepath.Clean raw) "**" = true
  /\ regexp.MustCompile
       ("^" ++ render (double_stars (filepath.Clean raw)) ++ "$")
     = Ok (doubleWildcardPattern.wildcardRE q).
Proof.
  unfold NewPattern. set (c := filepath.Clean raw).
  destruct (local c); [ discriminate | ].
  destruct (_ && String.eqb _ _); [ discriminate | ].
  destruct (strings.Contains c sep && strings.Contains c "**") eqn:Hd.
  - rewrite Replace_QuoteMeta_double_stars.
    destruct (regexp.MustCompile _) as [re|]; [ | discriminate ].
    intros Hq. injection Hq as <-. cbn [doubleWildcardPattern.wildcardRE].
    apply andb_true_iff in Hd. tauto.
  - destruct (strings.Contains c "*"); [ destruct (negb _) | ].
    + destruct (regexp.MustCompile _); discriminate.
    + discriminate.
    + destruct (strings.Contains c sep && strings.HasPrefix c sep);
        [ destruct (strings.HasSuffix (drop 1 c) sep) | ]; discriminate.
Qed.

Lemma NewPattern_pathless (raw : string) (q : pathlessWildcardPattern.t) :
  NewPattern raw = Ok (PathlessWildcard q) ->
  strings.Contains (filepath.Clean raw) "*" = true
  /\ regexp.MustCompile ("^" ++ render (stars (filepath.Clean raw)) ++ "$")
     = Ok (pathlessWildcardPattern.wildcardRE q).
Proof.
  unfold NewPattern. set (c := filepath.Clean raw).
  destruct (local c); [ discriminate | ].
  destruct (_ && String.eqb _ _); [ discriminate | ].
  destruct (strings.Contains c sep && strings.Contains c "**").
  { destruct (regexp.MustCompile _); discriminate. }
  destruct (strings.Contains c "*") eqn:Hs; [ destruct (negb _) | ].
  - rewrite Replace_QuoteMeta_stars.
    destruct (regexp.MustCompile _) as [re|]; [ | discriminate ].
    intros Hq. injection Hq as <-. cbn [pathlessWildcardPattern.wildcardRE].
    split; reflexivity.
  - discriminate.
  - destruct (strings.Contains c sep && strings.HasPrefix c sep);
      [ destruct (strings.HasSuffix (drop 1 c) sep) | ]; discriminate.
Qed.

(** The [HasPrefix] of a compiled double-wildcard or pathless-wildcard
    pattern is true for every name: the comparison with the literal prefix
    is not reached. *)
Lemma wildcard_HasPrefix_always_true (raw : string) (p : pattern) (name : string) :
  NewPattern raw = Ok p ->
  match p with
  | DoubleWildcard _ | PathlessWildcard _ => Pattern.HasPrefix p name = Ok true
  | _ => True
  end.
Proof.
  intros Hp. destruct p as [q|q|q|q|q|q|n]; try exact I; cbn.
  - destruct (NewPattern_pathless raw q Hp) as [Hs Hre].
    pose proof (LiteralPrefix_not_complete _ _ Hre (Contains_star _ Hs)) as Hok.
    unfold pathlessWildcardPattern.HasPrefix.
    destruct (regexp.LiteralPrefix _) as [lit ok]. cbn [snd] in Hok.
    now rewrite Hok.
  - destruct (NewPattern_double raw q Hp) as [Hs Hre].
    pose proof (LiteralPrefix_not_complete _ _ Hre (Contains_double_star _ Hs)) as Hok.
    unfold doubleWildcardPattern.HasPrefix.
    destruct (regexp.LiteralPrefix _) as [lit ok]. cbn [snd] in Hok.
    now rewrite Hok.
Qed.

(** ** Compiling never fails on a pattern that is valid UTF-8 *)

Lemma parse_nil (fuel : nat) : regexp.parse fuel "" = Some [].
Proof. now destruct fuel. Qed.

(** What follows a token is no repetition operator. *)
Lemma render_head_not_repeat (ts : list token) :
  regexp.starts_with_repeat_op (render ts ++ "$") = false.
Proof.
  destruct ts as [|[|a] ts]; try reflexivity.
  rewrite render_cons_end. cbn [render1].
  destruct (regexp.special a) eqn:Hsp; [ reflexivity | ].
  cbn [append regexp.starts_with_repeat_op].
  now destruct (not_special a Hsp) as [_ [_ [_ [_ Hr]]]].
Qed.

Lemma double_stars_pair (a b : ascii) (c : string) :
  double_stars (String a (String b c))
  = if Ascii.eqb a "*" && Ascii.eqb b "*" then TAny :: double_stars c
    else TChar a :: double_stars (String b c).
Proof. reflexivity. Qed.

(** A rune is decoded from its own bytes, whatever follows them. *)
Lemma decode_prefix (a : ascii) (t : string) (r : N) (k : nat) (x : string) :
  utf8.DecodeRuneInString (String a t) = (r, S k) ->
  N.eqb r utf8.RuneError && (S k =? 1) = false ->
  utf8.DecodeRuneInString (String a (take k t ++ x)) = (r, S k)
  /\ String.length (take k t) = k.
Proof.
  unfold utf8.DecodeRuneInString.
  destruct (N_of_ascii a <? 128)%N.
  { intros Hd _. injection Hd as <- <-. now split. }
  destruct (utf8.first (N_of_ascii a)) as [[[sz lo] hi]|].
  2: { intros Hd He. injection Hd as <- <-. discriminate. }
  destruct t as [|c1 t1].
  { intros Hd He. injection Hd as <- <-. discriminate. }
  destruct ((N_of_ascii c1 <? lo) || (hi <? N_of_ascii c1))%N eqn:H1.
  { intros Hd He. injection Hd as <- <-. discriminate. }
  destruct (sz <=? 2) eqn:Hsz2.
  { intros Hd _. injection Hd as <- <-. cbn [take append String.length].
    now rewrite H1. }
  destruct t1 as [|c2 t2].
  { intros Hd He. injection Hd as <- <-. discriminate. }
  destruct (negb (utf8.cont (N_of_ascii c2))) eqn:H2.
  { intros Hd He. injection Hd as <- <-. discriminate. }
  destruct (sz <=? 3) eqn:Hsz3.
  { intros Hd _. injection Hd as <- <-. cbn [take append String.length].
    now rewrite H1, H2. }
  destruct t2 as [|c3 t3].
  { intros Hd He. injection Hd as <- <-. discriminate. }
  destruct (negb (utf8.cont (N_of_ascii c3))) eqn:H3.
  { intros Hd He. injection Hd as <- <-. discriminate. }
  intros Hd _. injection Hd as <- <-. cbn [take append String.length].
  now rewrite H1, H2, H3.
Qed.

Lemma decode_ascii (a : ascii) (t : string) :
  (N_of_ascii a <? 128)%N = true ->
  utf8.DecodeRuneInString (String a t) = (N_of_ascii a, 1).
Proof. intros Ha. unfold utf8.DecodeRuneInString. now rewrite Ha. Qed.

Lemma high_byte_not_special (a : ascii) :
  (128 <=? N_of_ascii a)%N = true -> regexp.special a = false.
Proof.
  intros Ha. destruct (regexp.special a) eqn:Hsp; [ | reflexivity ].
  apply special_is_ascii in Hsp. destruct Hsp as [Hlt _].
  apply N.ltb_lt in Hlt. apply N.leb_le in Ha. lia.
Qed.

(** Bytes that are not ASCII are rendered as they are. *)
Lemma render_high (u : string) (ts : list token) :
  high_bytes (String.length u) u = true ->
  render (map TChar (list_ascii_of_string u) ++ ts)%list = u ++ render ts.
Proof.
  induction u as [|b u IH]; [ reflexivity | ].
  cbn [String.length high_bytes list_ascii_of_string map app render render1 append].
  intros Hu. apply andb_true_iff in Hu. destruct Hu as [Hb Hu].
  now rewrite (high_byte_not_special b Hb), (IH Hu).
Qed.

Lemma tokens_valid_ascii (a : ascii) (ts : list token) :
  (N_of_ascii a <? 128)%N = true -> tokens_valid ts ->
  tokens_valid (TChar a :: ts).
Proof.
  intros Ha Hts.
  apply (tokens_valid_rune a "" ts (N_of_ascii a)); [ | | assumption ].
  - now apply decode_ascii.
  - apply andb_false_iff. left. apply N.eqb_neq.
    apply N.ltb_lt in Ha. unfold utf8.RuneError. lia.
Qed.

Lemma parse_render_valid (ts : list token) :
  tokens_valid ts ->
  forall fuel,
    String.length (render ts ++ "$") <= fuel ->
    exists prog, regexp.parse fuel (render ts ++ "$") = Some prog.
Proof.
  induction 1 as [|ts _ IH|a u ts r Hd Hr _ IH]; intros fuel Hfuel.
  - destruct fuel as [|fuel]; [ simpl in Hfuel; lia | ].
    cbn. rewrite parse_nil. eauto.
  - rewrite render_cons_end in Hfuel |- *.
    cbn [render1 append String.length] in Hfuel |- *.
    destruct fuel as [|fuel]; [ lia | ].
    cbn. rewrite render_head_not_repeat.
    destruct (IH fuel) as [prog ->]; [ lia | eauto ].
  - destruct (decode_width _ _ _ _ Hd) as [k [Hk Hhigh]].
    injection Hk as <-.
    assert (Hrender : render (TChar a :: map TChar (list_ascii_of_string u) ++ ts)
                        ++ "$"
                      = render1 (TChar a) ++ u ++ render ts ++ "$").
    { cbn [render]. now rewrite (render_high u ts Hhigh), !str_append_assoc. }
    rewrite Hrender in Hfuel |- *. clear Hrender.
    rewrite !str_length_append in Hfuel.
    destruct (decode_prefix a u r _ (render ts ++ "$") Hd Hr) as [Hd' _].
    rewrite take_all in Hd'.
    cbn [render1] in Hfuel |- *.
    destruct (regexp.special a) eqn:Hsp.
    + cbn [append String.length] in Hfuel |- *.
      destruct fuel as [|fuel]; [ lia | ].
      destruct (special_is_ascii a Hsp) as [Hlt Hal].
      rewrite (decode_ascii a u Hlt) in Hd. injection Hd as _ Hu.
      destruct u; [ | discriminate ].
      cbn. rewrite Hlt, Hal, render_head_not_repeat. cbn [negb andb].
      destruct (IH fuel) as [prog ->];
        [ rewrite str_length_append; simpl in Hfuel |- *; lia | eauto ].
    + cbn [append String.length] in Hfuel |- *.
      destruct fuel as [|fuel]; [ lia | ].
      destruct (not_special a Hsp) as [H1 [H2 [H3 [H4 _]]]].
      cbn [regexp.parse]. rewrite H1, H2, H3, H4, Hsp, Hd', Hr.
      cbn [drop]. rewrite drop_append, render_head_not_repeat.
      destruct (IH fuel) as [prog ->];
        [ rewrite str_length_append; simpl; lia | eauto ].
Qed.

Lemma high_byte_not_star (b : ascii) :
  (128 <=? N_of_ascii b)%N = true -> Ascii.eqb b "*" = false.
Proof.
  intros Hb. destruct (Ascii.eqb_spec b "*") as [->|]; [ discriminate | reflexivity ].
Qed.

Lemma stars_high (u c : string) :
  high_bytes (String.length u) u = true ->
  stars (u ++ c) = (map TChar (list_ascii_of_string u) ++ stars c)%list.
Proof.
  induction u as [|b u IH]; [ reflexivity | ].
  cbn [String.length high_bytes append stars list_ascii_of_string map app].
  intros Hu. apply andb_true_iff in Hu. destruct Hu as [Hb Hu].
  now rewrite (high_byte_not_star b Hb), (IH Hu).
Qed.

Lemma double_stars_not_star (a : ascii) (c : string) :
  Ascii.eqb a "*" = false -> double_stars (String a c) = TChar a :: double_stars c.
Proof.
  intros Ha. destruct c as [|b c]; [ reflexivity | ].
  rewrite double_stars_pair, Ha. reflexivity.
Qed.

Lemma double_stars_high (u c : string) :
  high_bytes (String.length u) u = true ->
  double_stars (u ++ c)
  = (map TChar (list_ascii_of_string u) ++ double_stars c)%list.
Proof.
  induction u as [|b u IH]; [ reflexivity | ].
  cbn [String.length high_bytes append list_ascii_of_string map app].
  intros Hu. apply andb_true_iff in Hu. destruct Hu as [Hb Hu].
  now rewrite (double_stars_not_star b _ (high_byte_not_star b Hb)), (IH Hu).
Qed.

(** The bytes of a rune: the first one and the [k] that follow it. *)
Lemma Valid_rune_bytes (a : ascii) (t : string) (r : N) (k : nat) :
  utf8.DecodeRuneInString (String a t) = (r, S k) ->
  N.eqb r utf8.RuneError && (S k =? 1) = false ->
  exists u,
    t = u ++ drop k t /\ String.length u = k
    /\ high_bytes (String.length u) u = true
    /\ utf8.DecodeRuneInString (String a u) = (r, S (String.length u)).
Proof.
  intros Hd Hr. exists (take k t).
  destruct (decode_prefix a t r k "" Hd Hr) as [Hd' Hlen].
  rewrite str_append_nil_r in Hd'.
  split; [ symmetry; apply take_drop | ].
  split; [ assumption | ].
  rewrite Hlen. split; [ | assumption ].
  destruct (decode_width _ _ _ _ Hd') as [k' [Hk Hh]].
  now injection Hk as <-.
Qed.

Lemma Valid_after_ascii (a : ascii) (t : string) :
  (N_of_ascii a <? 128)%N = true -> Valid (String a t) -> Valid t.
Proof.
  intros Ha Hv. inversion Hv as [|a' t' r k Hd _ Hrest]; subst.
  rewrite (decode_ascii a t Ha) in Hd. injection Hd as _ <-. assumption.
Qed.

Lemma stars_valid (c : string) : Valid c -> tokens_valid (stars c).
Proof.
  induction 1 as [|a t r k Hd Hr _ IH]; [ constructor | ].
  cbn [stars]. destruct (Ascii.eqb_spec a "*") as [->|Ha].
  - rewrite (decode_ascii "*" t eq_refl) in Hd. injection Hd as _ <-.
    now constructor.
  - destruct (Valid_rune_bytes a t r k Hd Hr) as [u [Ht [Hk [Hh Hu]]]].
    rewrite Ht, (stars_high u _ Hh).
    apply (tokens_valid_rune a u _ r); [ assumption | now rewrite Hk | assumption ].
Qed.

Lemma double_stars_valid (c : string) : Valid c -> tokens_valid (double_stars c).
Proof.
  remember (String.length c) as n eqn:Hn.
  assert (Hle : String.length c <= n) by lia. clear Hn.
  revert c Hle. induction n as [|n IH]; intros c Hle Hv.
  { destruct c; [ constructor | simpl in Hle; lia ]. }
  destruct c as [|a t]; [ constructor | ]. simpl in Hle.
  destruct (Ascii.eqb_spec a "*") as [->|Ha].
  - apply (Valid_after_ascii "*" t eq_refl) in Hv.
    destruct t as [|b t']; [ apply tokens_valid_ascii; [ reflexivity | constructor ] | ].
    rewrite double_stars_pair. cbn [Ascii.eqb Bool.eqb andb].
    destruct (Ascii.eqb_spec b "*") as [->|Hb].
    + apply tokens_valid_any. apply IH; [ simpl in Hle; lia | ].
      now apply (Valid_after_ascii "*" t' eq_refl).
    + replace (if Ascii.eqb b "*" then TAny :: double_stars t'
               else TChar "*" :: double_stars (String b t'))
        with (TChar "*" :: double_stars (String b t')).
      * apply tokens_valid_ascii; [ reflexivity | ]. apply IH; [ lia | assumption ].
      * destruct (Ascii.eqb_spec b "*"); [ contradiction | reflexivity ].
  - inversion Hv as [|a' t' r k Hd Hr Hrest]; subst.
    destruct (Valid_rune_bytes a t r k Hd Hr) as [u [Ht [Hk [Hh Hu]]]].
    apply Ascii.eqb_neq in Ha.
    rewrite (double_stars_not_star a t Ha), Ht, (double_stars_high u _ Hh).
    apply (tokens_valid_rune a u _ r); [ assumption | now rewrite Hk | ].
    apply IH; [ rewrite str_length_drop; lia | assumption ].
Qed.

Lemma MustCompile_valid (ts : list token) :
  tokens_valid ts ->
  exists re, regexp.MustCompile ("^" ++ render ts ++ "$") = Ok re.
Proof.
  intros Hts. unfold regexp.MustCompile, regexp.Compile.
  cbn [append String.length]. cbn.
  destruct (parse_render_valid ts Hts (String.length (render ts ++ "$")) (le_n _))
    as [prog ->].
  eauto.
Qed.

(** [NewPattern] returns a pattern for every raw pattern whose cleaned
    form is valid UTF-8. *)
Lemma NewPattern_valid (raw : string) :
  Valid (filepath.Clean raw) -> exists p, NewPattern raw = Ok p.
Proof.
  intros Hvalid. unfold NewPattern. set (c := filepath.Clean raw) in *.
  destruct (local c); [ eauto | ].
  destruct (_ && String.eqb _ _); [ eauto | ].
  destruct (strings.Contains c sep && strings.Contains c "**").
  { rewrite Replace_QuoteMeta_double_stars.
    destruct (MustCompile_valid _ (double_stars_valid c Hvalid)) as [re ->].
    cbn [bind]. eauto. }
  destruct (strings.Contains c "*"); [ destruct (negb _) | ].
  - rewrite Replace_QuoteMeta_stars.
    destruct (MustCompile_valid _ (stars_valid c Hvalid)) as [re ->].
    cbn [bind]. eauto.
  - eauto.
  - destruct (strings.Contains c sep && strings.HasPrefix c sep);
      [ destruct (strings.HasSuffix (drop 1 c) sep) | ]; eauto.
Qed.

Lemma ascii_only_Valid (s : string) : ascii_only s = true -> Valid s.
Proof.
  induction s as [|a s IH]; [ constructor | ].
  cbn [ascii_only]. intros Hs. apply andb_true_iff in Hs. destruct Hs as [Ha Hs].
  apply (Valid_rune a s (N_of_ascii a) 0); [ now apply decode_ascii | | now apply IH ].
  apply andb_false_iff. left. apply N.eqb_neq.
  apply N.ltb_lt in Ha. unfold utf8.RuneError. lia.
Qed.

(** A pattern that is not valid UTF-8 makes [regexp.MustCompile], and
    [NewPattern] with it, panic. *)
Lemma NewPattern_panics_on_invalid_utf8 :
  NewPattern (String (ascii_of_nat 255) "*") = Panic.
Proof. vm_compute. reflexivity. Qed.

(** ** Filters built by [New] *)

Lemma convertToPatterns_valid (raws : list string) :
  Forall (fun raw => Valid (filepath.Clean raw)) raws ->
  exists ps, convertToPatterns raws = Ok ps.
Proof.
  induction 1 as [|raw raws Hraw _ [ps IH]]; [ now exists [] | ].
  destruct (NewPattern_valid raw Hraw) as [p Hp].
  exists (p :: ps). simpl. now rewrite Hp, IH.
Qed.

(** [New] returns a filter when the cleaned raw patterns are valid UTF-8,
    and so when they are made of ASCII characters. *)
Lemma New_valid (include exclude : list string) :
  Forall (fun raw => Valid (filepath.Clean raw)) (include ++ exclude)%list ->
  exists f, New include exclude = Ok f.
Proof.
  intros Hall. apply Forall_app in Hall. destruct Hall as [Hi He].
  destruct (convertToPatterns_valid include Hi) as [inc Hinc].
  destruct (convertToPatterns_valid exclude He) as [exc Hexc].
  exists (NewFromPatterns inc exc). unfold New. now rewrite Hinc, Hexc.
Qed.

Lemma New_ascii (include exclude : list string) :
  Forall (fun raw => ascii_only (filepath.Clean raw) = true)
    (include ++ exclude)%list ->
  exists f, New include exclude = Ok f.
Proof.
  intros Hall. apply New_valid.
  eapply Forall_impl; [ | exact Hall ].
  intros raw. apply ascii_only_Valid.
Qed.

Lemma convertToPatterns_returns (raws : list string) (ps : list pattern)
  (name : string) :
  convertToPatterns raws = Ok ps -> strings.Contains name ":" = false ->
  forall p, In p ps ->
            Pattern.Match p name <> Panic /\ Pattern.HasPrefix p name <> Panic.
Proof.
  revert ps. induction raws as [|raw raws IH]; intros ps Hps Hname p Hin.
  - injection Hps as <-. contradiction.
  - simpl in Hps.
    destruct (NewPattern raw) as [q|] eqn:Hq; [ | discriminate ].
    destruct (convertToPatterns raws) as [qs|]; [ | discriminate ].
    cbn [bind] in Hps. injection Hps as <-.
    destruct Hin as [<-|Hin].
    + now apply (NewPattern_returns raw).
    + now apply (IH qs).
Qed.

(** The tests of a filter built by [New] return on every name that holds
    no list separator. *)
Lemma New_returns (include exclude : list string) (f : Filter.t pattern)
  (name : string) :
  New include exclude = Ok f -> strings.Contains name ":" = false ->
  forall p, In p (Filter.include f ++ Filter.exclude f)%list ->
            Pattern.Match p name <> Panic /\ Pattern.HasPrefix p name <> Panic.
Proof.
  unfold New, NewFromPatterns.
  destruct (convertToPatterns include) as [inc|] eqn:Hinc; [ | discriminate ].
  destruct (convertToPatterns exclude) as [exc|] eqn:Hexc; [ | discriminate ].
  cbn [bind]. intros Hf Hname p Hin. injection Hf as <-.
  cbn [Filter.include Filter.exclude] in Hin. apply in_app_or in Hin.
  destruct Hin as [Hin|Hin].
  - now apply (convertToPatterns_returns include inc name).
  - now apply (convertToPatterns_returns exclude exc name).
Qed.

(** ** A pathful-wildcard pattern on a name of one component *)

(** The pattern compiled for [sub/*.txt] matches exactly the names that
    begin with [sub/] and end with [.txt], whatever lies between, among
    the non-empty names that hold no list separator. *)
Lemma pathful_prefix_and_suffix (name : string) :
  strings.Contains name ":" = false -> name <> "" ->
  Pattern.Match (PathfulWildcard (pathfulWildcardPattern.mk ["sub/*.txt"])) name
  = Ok (strings.HasPrefix name "sub/" && strings.HasSuffix name ".txt").
Proof.
  intros Hname Hne. cbn [Pattern.Match pattern_Pattern].
  unfold pathfulWildcardPattern.Match, pathfulWildcardPattern.partial.
  destruct (SplitList_no_list_separator name Hname) as [Hs|Hs].
  { destruct name; [ contradiction | ].
    unfold filepath.SplitList, strings.Split in Hs. cbn [is_empty] in Hs.
    now apply fill_not_nil in Hs. }
  rewrite Hs. cbn [pathfulWildcardPattern.partial_loop].
  unfold pathfulWildcardPattern.partial_dir.
  cbn [pathfulWildcardPattern.wildDirs nth_error].
  change (strings.SplitN "sub/*.txt" "*" 2)
    with (strings.mkSlice ["sub/"; ".txt"] 2).
  cbn [strings.len Nat.ltb Nat.leb Nat.eqb strings.index strings.arr nth_error
       bind drop strings.upto List.length firstn strings.Join].
  change (strings.Contains ".txt" "*") with false. cbv iota.
  destruct (strings.HasPrefix name "sub/"); cbn [negb andb bind].
  - destruct (strings.HasSuffix name ".txt"); cbn [negb bind].
    + now rewrite String.eqb_refl.
    + destruct name; [ contradiction | reflexivity ].
  - destruct name; [ contradiction | reflexivity ].
Qed.

(** ** The prefixes examined by [HasPrefix] *)

Lemma Contains_occurs (c : ascii) (s : string) :
  strings.Contains s (String c "") = occurs c s.
Proof.
  unfold strings.Contains. induction s as [|a s IH]; [ reflexivity | ].
  rewrite cut_cons, prefix_cons, prefix_nil, andb_true_r, Ascii.eqb_sym.
  cbn [occurs]. destruct (Ascii.eqb a c); [ reflexivity | ].
  cbn [orb]. rewrite <- IH.
  destruct (strings.cut (String c "") s) as [[x y]|]; reflexivity.
Qed.

Lemma occurs_drop (c : ascii) (n : nat) (s : string) :
  occurs c s = false -> occurs c (drop n s) = false.
Proof.
  revert s. induction n as [|n IH]; intros [|a s]; cbn [drop occurs]; auto.
  intros Hs. apply orb_false_iff in Hs. now apply IH.
Qed.

Lemma occurs_append (c : ascii) (a b : string) :
  occurs c (a ++ b) = occurs c a || occurs c b.
Proof.
  induction a as [|x a IH]; [ reflexivity | ].
  cbn [append occurs]. now rewrite IH, orb_assoc.
Qed.

Lemma occurs_cut (c : ascii) (old s a b : string) :
  strings.cut old s = Some (a, b) -> occurs c s = false ->
  occurs c a = false /\ occurs c b = false.
Proof.
  revert a. induction s as [|x s IH]; intros a.
  - cbn [strings.cut]. destruct (String.prefix old ""); [ | discriminate ].
    intros Hc _. injection Hc as <- <-. split; [ reflexivity | ].
    now apply occurs_drop.
  - rewrite cut_cons. destruct (String.prefix old (String x s)).
    + intros Hc Hs. injection Hc as <- <-. split; [ reflexivity | ].
      now apply occurs_drop.
    + destruct (strings.cut old s) as [[a' b']|]; [ | discriminate ].
      intros Hc Hs. injection Hc as <- <-.
      cbn [occurs] in Hs |- *. apply orb_false_iff in Hs. destruct Hs as [Hx Hs].
      destruct (IH a' eq_refl Hs) as [Ha Hb]. now rewrite Hx, Ha.
Qed.

Lemma occurs_fill (c : ascii) (k : nat) (old s : string) :
  occurs c s = false ->
  Forall (fun e => occurs c e = false) (strings.fill k old s).
Proof.
  revert s. induction k as [|k IH]; intros s Hs; cbn [strings.fill].
  - now repeat constructor.
  - destruct (strings.cut old s) as [[a b]|] eqn:Hc; [ | now repeat constructor ].
    destruct (occurs_cut c old s a b Hc Hs) as [Ha Hb].
    constructor; [ assumption | now apply IH ].
Qed.

Lemma occurs_Join (c : ascii) (l : list string) (glue : string) :
  occurs c glue = false -> Forall (fun e => occurs c e = false) l ->
  occurs c (strings.Join l glue) = false.
Proof.
  intros Hg. induction 1 as [|x l Hx Hl IH]; [ reflexivity | ].
  destruct l as [|y l]; [ assumption | ].
  change (strings.Join (x :: y :: l) glue)
    with (x ++ glue ++ strings.Join (y :: l) glue).
  now rewrite !occurs_append, Hx, Hg, IH.
Qed.

Lemma Forall_first_elements {A : Type} (Q : A -> Prop) (n : nat) (l : list A) :
  Forall Q l -> Forall Q (firstn n l).
Proof.
  intros Hl. revert n. induction Hl as [|x l Hx _ IH]; intros [|n]; simpl;
    try constructor; auto.
Qed.

(** A prefix with no list separator has ancestors with none. *)
Lemma ancestors_no_list_separator (prefix a : string) :
  strings.Contains prefix ":" = false -> In a (ancestors prefix) ->
  strings.Contains a ":" = false.
Proof.
  change ":" with (String ":"%char ""). rewrite !Contains_occurs.
  intros Hp Hin. unfold ancestors, ancestors_from in Hin.
  apply in_map_iff in Hin. destruct Hin as [j [<- _]].
  apply occurs_Join; [ reflexivity | ].
  apply Forall_first_elements. now apply occurs_fill.
Qed.

(** On a prefix with no list separator the tests of a filter built by
    [New] return. *)
Lemma New_HasPrefix_returns (include exclude : list string)
  (f : Filter.t pattern) (prefix : string) :
  New include exclude = Ok f -> strings.Contains prefix ":" = false ->
  returns f (ancestors prefix).
Proof.
  intros Hnew Hp a p Ha.
  pose proof (ancestors_no_list_separator prefix a Hp Ha) as Hna.
  split; intros Hin.
  - apply (New_returns _ _ _ a Hnew Hna p). apply in_or_app. now right.
  - apply (New_returns _ _ _ a Hnew Hna p). apply in_or_app. now left.
Qed.

(** ** The empty pattern *)

(** C10: the empty raw pattern is cleaned to [.], a member of the local
    directory set, and compiles to the no-op matcher: [Match] and
    [HasPrefix] are true for every name and [String] is [.].  Yet a filter
    whose include list contains the empty string does not allow every path
    that no exclude pattern hits: with the include patterns [a/*] and the
    empty string, in this order, and no exclude pattern, [Allows] panics
    on [a/b:c].  The pathful-wildcard pattern is tested first, and it is
    asked for a second component, the name being split at the list
    separator. *)
Theorem empty_pattern_filter_panics :
  exists p f,
    NewPattern "" = Ok p
    /\ (forall name,
          Pattern.Match p name = Ok true /\ Pattern.HasPrefix p name = Ok true)
    /\ Pattern.String p = "."
    /\ New ["a/*"; ""] [] = Ok f
    /\ In p (Filter.include f)
    /\ Filter.exclude f = []
    /\ Filter.Allows (Some f) "a/b:c" = Panic.
Proof.
  exists (NoOp (Some (noOpMatcher.mk "."))).
  exists (Filter.mk [PathfulWildcard (pathfulWildcardPattern.mk ["a/*"]);
                     NoOp (Some (noOpMatcher.mk "."))] []).
  split; [ reflexivity | ].
  split; [ intros name; split; reflexivity | ].
  split; [ reflexivity | ].
  split; [ vm_compute; reflexivity | ].
  split; [ right; now left | ].
  split; [ reflexivity | ].
  vm_compute. reflexivity.
Qed.

(** The empty raw pattern compiles to the no-op matcher, whose [Match]
    and [HasPrefix] are true for every name and whose [String] is [.].  A
    filter built by [New] from an include list that contains the empty
    string allows a path when the [Match] of no include pattern panics on
    its cleaned name and no exclude pattern matches it; on every path with
    no list separator in its cleaned name [Allows] returns, and it returns
    true exactly when no exclude pattern matches the cleaned name. *)
Theorem empty_pattern_matches_everything :
  exists p,
    NewPattern "" = Ok p
    /\ (forall name,
          Pattern.Match p name = Ok true /\ Pattern.HasPrefix p name = Ok true)
    /\ Pattern.String p = "."
    /\ (forall (include exclude : list string) (f : Filter.t pattern)
          (filename : string),
          New include exclude = Ok f -> In "" include ->
          (forall q, In q (Filter.include f) ->
                     Pattern.Match q (filepath.Clean filename) <> Panic) ->
          no_match (Filter.exclude f) (filepath.Clean filename) ->
          Filter.Allows (Some f) filename = Ok true)
    /\ (forall (include exclude : list string) (f : Filter.t pattern)
          (filename : string),
          New include exclude = Ok f -> In "" include ->
          strings.Contains (filepath.Clean filename) ":" = false ->
          exists b,
            Filter.Allows (Some f) filename = Ok b
            /\ (b = true <-> no_match (Filter.exclude f) (filepath.Clean filename))).
Proof.
  exists (NoOp (Some (noOpMatcher.mk "."))).
  split; [ reflexivity | ].
  split; [ intros name; split; reflexivity | ].
  split; [ reflexivity | ].
  assert (Hinclude :
            forall include exclude f name,
              New include exclude = Ok f -> In "" include ->
              (forall q, In q (Filter.include f) -> Pattern.Match q name <> Panic) ->
              exists q rest,
                Filter.include f = q :: rest
                /\ exists inc,
                     Filter.first (fun q => Pattern.Match q name) (Filter.include f)
                     = Ok (Some inc)).
  { intros include exclude f name Hnew Hin Hret.
    unfold New, NewFromPatterns in Hnew.
    destruct (convertToPatterns include) as [inc|] eqn:Hinc; [ | discriminate ].
    destruct (convertToPatterns exclude) as [exc|]; [ | discriminate ].
    cbn [bind] in Hnew. injection Hnew as <-.
    cbn [Filter.include Filter.exclude] in *.
    destruct (convertToPatterns_In _ _ _ Hinc Hin) as [p [Hp Hpin]].
    change (NewPattern "") with (Ok (NoOp (Some (noOpMatcher.mk ".")))) in Hp.
    injection Hp as <-.
    destruct inc as [|q0 inc']; [ contradiction | ].
    exists q0, inc'. split; [ reflexivity | ].
    destruct (first_returns (fun q => Pattern.Match q name) (q0 :: inc') Hret)
      as [[q [Hq _]]|[_ Hnone]]; [ eauto | ].
    specialize (Hnone _ Hpin). discriminate. }
  split.
  - intros include exclude f filename Hnew Hin Hret Hno.
    destruct (Hinclude _ _ _ _ Hnew Hin Hret) as [q0 [inc' [Hcons [inc Hfirst]]]].
    unfold Filter.Allows, Filter.AllowsPattern. rewrite Hcons in *.
    cbn [List.length Nat.add Nat.eqb Nat.ltb Nat.leb].
    rewrite Hfirst. cbn [bind]. rewrite (first_none _ _ Hno). reflexivity.
  - intros include exclude f filename Hnew Hin Hname.
    pose proof (New_returns _ _ _ _ Hnew Hname) as Hret.
    destruct (Hinclude _ _ _ (filepath.Clean filename) Hnew Hin)
      as [q0 [inc' [Hcons [inc Hfirst]]]].
    { intros q Hq. apply Hret. apply in_or_app. now left. }
    unfold Filter.Allows, Filter.AllowsPattern. rewrite Hcons in *.
    cbn [List.length Nat.add Nat.eqb Nat.ltb Nat.leb].
    rewrite Hfirst. cbn [bind].
    destruct (first_returns
                (fun q => Pattern.Match q (filepath.Clean filename))
                (Filter.exclude f))
      as [[e [He [Hein Hem]]]|[He Hnone]].
    { intros q Hq. apply Hret. apply in_or_app. now right. }
    + rewrite He. cbn [bind snd]. exists false. split; [ reflexivity | ].
      split; [ discriminate | ].
      intros Hno. unfold no_match in Hno. rewrite Forall_forall in Hno.
      rewrite (Hno e Hein) in Hem. discriminate.
    + rewrite He. cbn [bind snd]. exists true. split; [ reflexivity | ].
      split; [ | reflexivity ].
      intros _. apply Forall_forall. exact Hnone.
Qed.

(** The filter with include [*.md] and the empty string, and exclude
    [tmp], allows [a/b.c]. *)
Lemma empty_pattern_matches_everything_witness :
  exists f,
    New ["*.md"; ""] ["tmp"] = Ok f
    /\ Filter.Allows (Some f) "a/b.c" = Ok true
    /\ exists b,
         Filter.Allows (Some f) "tmp/b.c" = Ok b
         /\ (b = true <-> no_match (Filter.exclude f) (filepath.Clean "tmp/b.c")).
Proof.
  pose (f := match New ["*.md"; ""] ["tmp"] with
             | Ok f => f
             | Panic => Filter.mk [] []
             end).
  assert (Hf : New ["*.md"; ""] ["tmp"] = Ok f) by (vm_compute; reflexivity).
  exists f. split; [ exact Hf | ].
  destruct empty_pattern_matches_everything as [p [_ [_ [_ [Hallow Hiff]]]]].
  split.
  - apply (Hallow ["*.md"; ""] ["tmp"] f "a/b.c" Hf).
    + right. now left.
    + intros q Hq. vm_compute in Hq.
      destruct Hq as [<-|[<-|[]]]; vm_compute; discriminate.
    + constructor; [ vm_compute; reflexivity | constructor ].
  - apply (Hiff ["*.md"; ""] ["tmp"] f "tmp/b.c" Hf).
    + right. now left.
    + vm_compute. reflexivity.
Defined.

(** * Further properties of the package *)

(** ** The verdict of a filter *)

Section Verdict.

Context {P : Type} `{Pattern.t P}.

Lemma first_hits (ps : list P) (name : string) :
  (forall p, In p ps -> Pattern.Match p name <> Panic) ->
  exists r,
    Filter.first (fun p => Pattern.Match p name) ps = Ok r
    /\ hits ps name = match r with Some _ => true | None => false end.
Proof.
  induction ps as [|q ps IH]; intros Hret.
  - exists None. split; reflexivity.
  - cbn [Filter.first hits existsb].
    destruct (Pattern.Match q name) as [[|]|] eqn:Hq; cbn [bind orb].
    + exists (Some q). split; reflexivity.
    + destruct IH as [r [Hr Hh]]; [ intros p Hp; apply Hret; now right | ].
      exists r. split; assumption.
    + exfalso. apply (Hret q); [ now left | assumption ].
Qed.

(** The verdict of [AllowsPattern] when the tests return. *)
Lemma AllowsPattern_hits (inc exc : list P) (filename : string) :
  (forall p, In p (inc ++ exc)%list ->
             Pattern.Match p (filepath.Clean filename) <> Panic) ->
  exists rule,
    Filter.AllowsPattern (Some (Filter.mk inc exc)) filename
    = Ok (rule,
          (is_nil inc || hits inc (filepath.Clean filename))
          && negb (hits exc (filepath.Clean filename))).
Proof.
  intros Hret.
  destruct (first_hits inc (filepath.Clean filename)) as [ri [Hi Hhi]].
  { intros p Hp. apply Hret. apply in_or_app. now left. }
  destruct (first_hits exc (filepath.Clean filename)) as [re [He Hhe]].
  { intros p Hp. apply Hret. apply in_or_app. now right. }
  unfold Filter.AllowsPattern. cbn [Filter.include Filter.exclude].
  destruct inc as [|p0 inc].
  - destruct exc as [|e0 exc]; [ now exists "" | ].
    rewrite Hhe.
    cbn [List.length Nat.add Nat.eqb Nat.ltb Nat.leb is_nil orb andb].
    rewrite He. destruct re; eexists; reflexivity.
  - rewrite Hhi, Hhe.
    cbn [List.length Nat.add Nat.eqb Nat.ltb Nat.leb is_nil orb].
    rewrite Hi. cbn [bind]. destruct ri; [ | eexists; reflexivity ].
    rewrite He. destruct re; eexists; reflexivity.
Qed.

(** The verdict of [Allows] when the tests return: the path is allowed
    when the include list is empty or one of its patterns matches the
    cleaned name, and no exclude pattern matches it. *)
Theorem Allows_verdict (f : Filter.t P) (filename : string) :
  (forall p, In p (Filter.include f ++ Filter.exclude f)%list ->
             Pattern.Match p (filepath.Clean filename) <> Panic) ->
  Filter.Allows (Some f) filename
  = Ok ((is_nil (Filter.include f)
         || hits (Filter.include f) (filepath.Clean filename))
        && negb (hits (Filter.exclude f) (filepath.Clean filename))).
Proof.
  destruct f as [inc exc]. cbn [Filter.include Filter.exclude]. intros Hret.
  destruct (AllowsPattern_hits inc exc filename Hret) as [rule Hrule].
  unfold Filter.Allows. rewrite Hrule. reflexivity.
Qed.

Lemma hits_Permutation (ps qs : list P) (name : string) :
  Permutation ps qs -> hits ps name = hits qs name.
Proof.
  intros Hperm. unfold hits.
  induction Hperm as [|x l l' _ IH|x y l|l l' l'' _ IH1 _ IH2]; cbn [existsb].
  - reflexivity.
  - now rewrite IH.
  - now rewrite !orb_assoc, (orb_comm
      (match Pattern.Match y name with Ok b => b | Panic => false end)).
  - now rewrite IH1.
Qed.

Lemma is_nil_Permutation (ps qs : list P) :
  Permutation ps qs -> is_nil ps = is_nil qs.
Proof.
  intros Hperm. destruct ps as [|p ps].
  - apply Permutation_nil in Hperm. now subst.
  - destruct qs as [|q qs]; [ | reflexivity ].
    apply Permutation_sym, Permutation_nil in Hperm. discriminate.
Qed.

(** The verdict does not depend on the order in which the patterns of
    either list are declared. *)
Theorem Allows_order_irrelevant (f g : Filter.t P) (filename : string) :
  Permutation (Filter.include f) (Filter.include g) ->
  Permutation (Filter.exclude f) (Filter.exclude g) ->
  (forall p, In p (Filter.include f ++ Filter.exclude f)%list ->
             Pattern.Match p (filepath.Clean filename) <> Panic) ->
  Filter.Allows (Some f) filename = Filter.Allows (Some g) filename.
Proof.
  destruct f as [inc exc], g as [inc' exc']. cbn [Filter.include Filter.exclude].
  intros Hi He Hret.
  destruct (AllowsPattern_hits inc exc filename Hret) as [rule Hrule].
  destruct (AllowsPattern_hits inc' exc' filename) as [rule' Hrule'].
  { intros p Hp. apply Hret. apply in_app_or in Hp. apply in_or_app.
    destruct Hp as [Hp|Hp]; [ left | right ].
    - eapply Permutation_in; [ apply Permutation_sym; eassumption | assumption ].
    - eapply Permutation_in; [ apply Permutation_sym; eassumption | assumption ]. }
  unfold Filter.Allows. rewrite Hrule, Hrule'. cbn [bind snd].
  now rewrite (hits_Permutation _ _ _ Hi), (hits_Permutation _ _ _ He),
    (is_nil_Permutation _ _ Hi).
Qed.

Lemma first_found (test : P -> result bool) (ps : list P) (p : P) :
  Filter.first test ps = Ok (Some p) -> In p ps /\ test p = Ok true.
Proof.
  induction ps as [|q ps IH]; cbn [Filter.first]; [ discriminate | ].
  destruct (test q) as [[|]|] eqn:Hq; cbn [bind]; try discriminate.
  - intros Hp. injection Hp as <-. split; [ now left | assumption ].
  - intros Hp. destruct (IH Hp). split; [ now right | assumption ].
Qed.

Lemma first_not_found (test : P -> result bool) (ps : list P) :
  Filter.first test ps = Ok None -> Forall (fun q => test q = Ok false) ps.
Proof.
  induction ps as [|q ps IH]; cbn [Filter.first]; [ constructor | ].
  destruct (test q) as [[|]|] eqn:Hq; cbn [bind]; try discriminate.
  intros Hp. constructor; [ assumption | now apply IH ].
Qed.

(** What a result of [AllowsPattern] tells: an allowed path passed every
    exclude pattern, and its rule is an include pattern that matches the
    cleaned name, or empty with an empty include list; a disallowed path
    either has the empty rule, when no pattern of the non-empty include
    list matches it, or has for rule an exclude pattern that matches it. *)
Theorem AllowsPattern_result (f : Filter.t P) (filename rule : string)
  (allowed : bool) :
  Filter.AllowsPattern (Some f) filename = Ok (rule, allowed) ->
  let name := filepath.Clean filename in
  if allowed then
    no_match (Filter.exclude f) name
    /\ ((Filter.include f = [] /\ rule = "")
        \/ exists p, In p (Filter.include f) /\ rule = Pattern.String p
                     /\ Pattern.Match p name = Ok true)
  else
    (rule = "" /\ Filter.include f <> [] /\ no_match (Filter.include f) name)
    \/ exists p, In p (Filter.exclude f) /\ rule = Pattern.String p
                 /\ Pattern.Match p name = Ok true.
Proof.
  destruct f as [inc exc]. unfold Filter.AllowsPattern.
  cbn [Filter.include Filter.exclude]. intros Hres.
  set (name := filepath.Clean filename) in *.
  assert (Hexc : forall r0,
             (ex <- Filter.first (fun p => Pattern.Match p name) exc ;;
              match ex with
              | Some ex => Ok (Pattern.String ex, false)
              | None => Ok (r0, true)
              end) = Ok (rule, allowed) ->
             if allowed then no_match exc name /\ rule = r0
             else exists p, In p exc /\ rule = Pattern.String p
                            /\ Pattern.Match p name = Ok true).
  { intros r0.
    destruct (Filter.first (fun p => Pattern.Match p name) exc) as [[e|]|] eqn:He;
      cbn [bind]; intros Hr; try discriminate; injection Hr as <- <-.
    - apply first_found in He. destruct He. exists e. auto.
    - apply first_not_found in He. split; [ exact He | reflexivity ]. }
  destruct inc as [|p0 inc].
  - destruct exc as [|e0 exc].
    + injection Hres as <- <-. split; [ constructor | left; split; reflexivity ].
    + cbn [List.length Nat.add Nat.eqb Nat.ltb Nat.leb] in Hres.
      apply Hexc in Hres. destruct allowed.
      * destruct Hres as [Hno ->]. split; [ assumption | now left ].
      * now right.
  - cbn [List.length Nat.add Nat.eqb Nat.ltb Nat.leb] in Hres.
    destruct (Filter.first (fun p => Pattern.Match p name) (p0 :: inc))
      as [[i|]|] eqn:Hi; cbn [bind] in Hres; try discriminate.
    + apply first_found in Hi. destruct Hi as [Hin Hm].
      apply Hexc in Hres. destruct allowed.
      * destruct Hres as [Hno ->]. split; [ assumption | ].
        right. exists i. auto.
      * now right.
    + apply first_not_found in Hi. injection Hres as <- <-.
      left. split; [ reflexivity | ]. split; [ discriminate | exact Hi ].
Qed.

End Verdict.

(** The filter with include [src] and exclude [*.tmp] on [src/a.tmp]. *)
Lemma Allows_verdict_witness :
  exists f,
    New ["src"] ["*.tmp"] = Ok f
    /\ Filter.Allows (Some f) "src/a.tmp"
       = Ok ((is_nil (Filter.include f)
              || hits (Filter.include f) (filepath.Clean "src/a.tmp"))
             && negb (hits (Filter.exclude f) (filepath.Clean "src/a.tmp"))).
Proof.
  pose (f := match New ["src"] ["*.tmp"] with
             | Ok f => f
             | Panic => Filter.mk [] []
             end).
  exists f. split; [ vm_compute; reflexivity | ].
  apply (Allows_verdict f "src/a.tmp").
  intros p Hp. vm_compute in Hp.
  destruct Hp as [<-|[<-|[]]]; vm_compute; discriminate.
Defined.

(** The include patterns [src] and [docs] in either order. *)
Lemma Allows_order_irrelevant_witness :
  exists f g,
    New ["src"; "docs"] ["*.tmp"] = Ok f
    /\ New ["docs"; "src"] ["*.tmp"] = Ok g
    /\ Filter.Allows (Some f) "docs/a.md" = Filter.Allows (Some g) "docs/a.md".
Proof.
  pose (f := match New ["src"; "docs"] ["*.tmp"] with
             | Ok f => f
             | Panic => Filter.mk [] []
             end).
  pose (g := match New ["docs"; "src"] ["*.tmp"] with
             | Ok g => g
             | Panic => Filter.mk [] []
             end).
  exists f, g.
  split; [ vm_compute; reflexivity | ].
  split; [ vm_compute; reflexivity | ].
  apply (Allows_order_irrelevant f g "docs/a.md").
  - vm_compute. apply perm_swap.
  - vm_compute. apply Permutation_refl.
  - intros p Hp. vm_compute in Hp.
    destruct Hp as [<-|[<-|[<-|[]]]]; vm_compute; discriminate.
Defined.

(** The filter with include [*.go] and exclude [*_test.go] disallows
    [main_test.go] by its exclude pattern. *)
Lemma AllowsPattern_result_witness :
  exists f,
    New ["*.go"] ["*_test.go"] = Ok f
    /\ Filter.AllowsPattern (Some f) "main_test.go" = Ok ("*_test.go", false)
    /\ (("*_test.go" = "" /\ Filter.include f <> []
         /\ no_match (Filter.include f) (filepath.Clean "main_test.go"))
        \/ exists p, In p (Filter.exclude f) /\ "*_test.go" = Pattern.String p
                     /\ Pattern.Match p (filepath.Clean "main_test.go") = Ok true).
Proof.
  pose (f := match New ["*.go"] ["*_test.go"] with
             | Ok f => f
             | Panic => Filter.mk [] []
             end).
  assert (Hres : Filter.AllowsPattern (Some f) "main_test.go"
                 = Ok ("*_test.go", false)) by (vm_compute; reflexivity).
  exists f. split; [ vm_compute; reflexivity | ].
  split; [ exact Hres | ].
  exact (AllowsPattern_result f "main_test.go" "*_test.go" false Hres).
Defined.

(** ** Substrings *)

Lemma cut_sound (old s a b : string) :
  strings.cut old s = Some (a, b) -> s = a ++ old ++ b.
Proof.
  revert a. induction s as [|x s IH]; intros a.
  - cbn [strings.cut]. destruct old; cbn [String.prefix]; [ | discriminate ].
    intros Hc. injection Hc as <- <-. reflexivity.
  - rewrite cut_cons. destruct (String.prefix old (String x s)) eqn:Hp.
    + intros Hc. injection Hc as <- <-.
      apply prefix_inv in Hp. destruct Hp as [t Ht].
      rewrite Ht at 2. now rewrite drop_append.
    + destruct (strings.cut old s) as [[a' b']|]; [ | discriminate ].
      intros Hc. injection Hc as <- <-. cbn [append]. f_equal. now apply IH.
Qed.

Lemma cut_finds (old a b : string) : strings.cut old (a ++ old ++ b) <> None.
Proof.
  induction a as [|x a IH]; cbn [append].
  - destruct (old ++ b) as [|y t] eqn:Hob.
    + cbn [strings.cut]. destruct old; [ discriminate | discriminate ].
    + rewrite cut_cons, <- Hob, prefix_append. discriminate.
  - rewrite cut_cons. destruct (String.prefix old _); [ discriminate | ].
    destruct (strings.cut old (a ++ old ++ b)); [ destruct p; discriminate | ].
    now contradiction IH.
Qed.

(** [Contains] finds exactly the substrings. *)
Lemma Contains_substring (s sub : string) :
  strings.Contains s sub = true <-> exists a b, s = a ++ sub ++ b.
Proof.
  unfold strings.Contains. split.
  - destruct (strings.cut sub s) as [[a b]|] eqn:Hc; [ | discriminate ].
    intros _. exists a, b. now apply cut_sound.
  - intros [a [b ->]]. pose proof (cut_finds sub a b) as Hne.
    destruct (strings.cut sub (a ++ sub ++ b)); [ reflexivity | congruence ].
Qed.

Lemma HasPrefix_starts (s p : string) :
  strings.HasPrefix s p = true <-> exists t, s = p ++ t.
Proof.
  unfold strings.HasPrefix. split; [ apply prefix_inv | ].
  intros [t ->]. apply prefix_append.
Qed.

(** The first instance of a byte is where it first occurs. *)
Lemma cut_first_byte (c : ascii) (d e : string) :
  occurs c d = false ->
  strings.cut (String c "") (d ++ String c e) = Some (d, e).
Proof.
  induction d as [|x d IH]; cbn [append occurs]; intros Hd.
  - rewrite cut_cons, prefix_cons, Ascii.eqb_refl, prefix_nil. reflexivity.
  - apply orb_false_iff in Hd. destruct Hd as [Hx Hd].
    rewrite cut_cons, prefix_cons, Ascii.eqb_sym, Hx, (IH Hd). reflexivity.
Qed.

Lemma prefix_whole (p s : string) :
  String.prefix p s && is_empty (drop (String.length p) s) = String.eqb p s.
Proof.
  revert s. induction p as [|a p IH]; intros [|b s]; try reflexivity.
  rewrite prefix_cons. cbn [String.length drop String.eqb].
  destruct (Ascii.eqb a b); [ apply IH | reflexivity ].
Qed.

(** ** Shell patterns without special characters *)

Lemma glob_free_cons (a : ascii) (s : string) :
  glob_free (String a s) = true ->
  Ascii.eqb a "*" = false /\ Ascii.eqb a "?" = false
  /\ Ascii.eqb a "[" = false /\ Ascii.eqb a "\" = false
  /\ glob_free s = true.
Proof.
  cbn [glob_free existsb]. intros Hg.
  apply andb_true_iff in Hg. destruct Hg as [Ha Hs].
  apply negb_true_iff in Ha.
  repeat (apply orb_false_iff in Ha; destruct Ha as [? Ha]). auto.
Qed.

Lemma scan_glob_free (inrange : bool) (pattern : string) :
  glob_free pattern = true -> filepath.scan inrange pattern = (pattern, "").
Proof.
  revert inrange. induction pattern as [|a pattern IH]; intros inrange Hg;
    [ reflexivity | ].
  destruct (glob_free_cons a pattern Hg) as [H1 [_ [H3 [H4 Hs]]]].
  cbn [filepath.scan]. rewrite H4, H1, H3. cbn [andb].
  now rewrite (IH _ Hs).
Qed.

Lemma scanChunk_glob_free (a : ascii) (pattern : string) :
  glob_free (String a pattern) = true ->
  filepath.scanChunk (String a pattern) = (false, String a pattern, "").
Proof.
  intros Hg. unfold filepath.scanChunk.
  destruct (glob_free_cons a pattern Hg) as [H1 _].
  assert (Hskip : filepath.skipStars (String a pattern) = (false, String a pattern)).
  { cbn [filepath.skipStars].
    destruct a as [[] [] [] [] [] [] [] []]; try reflexivity. discriminate. }
  now rewrite Hskip, (scan_glob_free false _ Hg).
Qed.

Lemma matchChunk_failed (fuel : nat) (chunk s : string) :
  glob_free chunk = true -> String.length chunk <= fuel ->
  filepath.matchChunk_loop fuel chunk s true = filepath.NoMatch.
Proof.
  revert fuel s. induction chunk as [|a chunk IH]; intros fuel s Hg Hf.
  - now destruct fuel.
  - destruct (glob_free_cons a chunk Hg) as [_ [H2 [H3 [H4 Hs]]]].
    destruct fuel as [|fuel]; [ simpl in Hf; lia | ].
    cbn [filepath.matchChunk_loop orb]. rewrite H3, H2, H4.
    apply IH; [ assumption | simpl in Hf; lia ].
Qed.

(** A chunk without special characters matches the names it begins. *)
Lemma matchChunk_glob_free (fuel : nat) (chunk s : string) :
  glob_free chunk = true -> String.length chunk <= fuel ->
  filepath.matchChunk_loop fuel chunk s false
  = if String.prefix chunk s then filepath.Rest (drop (String.length chunk) s)
    else filepath.NoMatch.
Proof.
  revert fuel s. induction chunk as [|a chunk IH]; intros fuel s Hg Hf.
  - rewrite prefix_nil. now destruct fuel.
  - destruct (glob_free_cons a chunk Hg) as [_ [H2 [H3 [H4 Hs]]]].
    destruct fuel as [|fuel]; [ simpl in Hf; lia | ].
    assert (Hf' : String.length chunk <= fuel) by (simpl in Hf; lia).
    cbn [filepath.matchChunk_loop orb]. rewrite H3, H2, H4.
    destruct s as [|b s]; cbn [is_empty].
    + now rewrite matchChunk_failed.
    + rewrite prefix_cons. cbn [String.length drop].
      destruct (Ascii.eqb a b); cbn [negb andb].
      * now apply IH.
      * now rewrite matchChunk_failed.
Qed.

(** A pattern without special characters matches itself and nothing
    else. *)
Lemma Match_glob_free (pattern name : string) :
  glob_free pattern = true ->
  filepath.Match pattern name = Some (String.eqb pattern name).
Proof.
  intros Hg. unfold filepath.Match.
  destruct pattern as [|a pattern]; [ now destruct name | ].
  cbn [String.length filepath.Match_loop].
  rewrite (scanChunk_glob_free a pattern Hg). cbn [andb is_empty negb orb].
  unfold filepath.matchChunk.
  rewrite (matchChunk_glob_free _ _ name Hg (le_n _)).
  rewrite <- prefix_whole.
  destruct (String.prefix (String a pattern) name); [ | reflexivity ].
  cbn [andb]. rewrite orb_false_r.
  destruct (drop (String.length (String a pattern)) name) eqn:Hd.
  - now destruct (String.length pattern).
  - reflexivity.
Qed.

(** ** Plain and rooted patterns *)

Lemma glob_free_no_star (c : string) :
  glob_free c = true -> occurs "*" c = false.
Proof.
  induction c as [|a c IH]; [ reflexivity | ]. intros Hg.
  destruct (glob_free_cons a c Hg) as [H1 [_ [_ [_ Hs]]]].
  cbn [occurs]. now rewrite H1, (IH Hs).
Qed.

Lemma no_star_Contains (c : string) :
  occurs "*" c = false ->
  strings.Contains c "*" = false /\ strings.Contains c "**" = false
  /\ strings.HasPrefix c "*" = false.
Proof.
  intros Hc. split; [ | split ].
  - change "*" with (String "*"%char ""). now rewrite Contains_occurs.
  - destruct (strings.Contains c "**") eqn:Hss; [ | reflexivity ].
    apply Contains_substring in Hss. destruct Hss as [a [b ->]].
    rewrite occurs_append in Hc. apply orb_false_iff in Hc.
    destruct Hc as [_ Hc]. discriminate.
  - destruct (strings.HasPrefix c "*") eqn:Hp; [ | reflexivity ].
    apply HasPrefix_starts in Hp. destruct Hp as [t ->]. discriminate.
Qed.

(** What [NewPattern] makes of a pattern free of stars: the no-op
    matcher, a rooted pattern or a plain one. *)
Lemma NewPattern_no_star (raw : string) :
  let c := filepath.Clean raw in
  occurs "*" c = false ->
  NewPattern raw
  = Ok (if local c then NoOp (Some (noOpMatcher.mk c))
        else if strings.Contains c sep && strings.HasPrefix c sep then
          if strings.HasSuffix (drop 1 c) sep
          then PathPrefix
                 (pathPrefixPattern.mk c
                    (take (String.length (drop 1 c) - 1) (drop 1 c)) (drop 1 c))
          else PathPrefix (pathPrefixPattern.mk c (drop 1 c) (drop 1 c ++ sep))
        else Path (pathPattern.mk c (c ++ sep) (sep ++ c) (sep ++ c ++ sep))).
Proof.
  intros c Hc. unfold NewPattern. fold c.
  destruct (no_star_Contains c Hc) as [H1 [H2 H3]].
  rewrite H1, H2, H3, !andb_false_r. cbn [andb].
  destruct (local c); [ reflexivity | ].
  destruct (strings.Contains c sep && strings.HasPrefix c sep); [ | reflexivity ].
  now destruct (strings.HasSuffix (drop 1 c) sep).
Qed.

Lemma take_append (a b : string) : take (String.length a) (a ++ b) = a.
Proof. induction a; simpl; [ now destruct b | congruence ]. Qed.

(** The fields of a compiled plain pattern. *)
Lemma NewPattern_Path (raw : string) (q : pathPattern.t) :
  NewPattern raw = Ok (Path q) ->
  let c := filepath.Clean raw in
  q = pathPattern.mk c (c ++ sep) (sep ++ c) (sep ++ c ++ sep).
Proof.
  unfold NewPattern. set (c := filepath.Clean raw).
  destruct (local c); [ discriminate | ].
  destruct (_ && String.eqb _ _); [ discriminate | ].
  destruct (strings.Contains c sep && strings.Contains c "**").
  { destruct (regexp.MustCompile _); discriminate. }
  destruct (strings.Contains c "*"); [ destruct (negb _) | ].
  - destruct (regexp.MustCompile _); discriminate.
  - discriminate.
  - destruct (strings.Contains c sep && strings.HasPrefix c sep);
      [ destruct (strings.HasSuffix (drop 1 c) sep); discriminate | ].
    intros Hq. injection Hq as <-. reflexivity.
Qed.

Lemma has_sep_append (a b : string) : has_sep (a ++ b) = has_sep a || has_sep b.
Proof.
  induction a as [|x a IH]; [ reflexivity | ].
  cbn [append has_sep]. now rewrite IH, orb_assoc.
Qed.

Lemma ends_with_append_last (a b : string) (x : ascii) :
  b <> "" -> ends_with (a ++ b) (String x "") -> ends_with b (String x "").
Proof.
  intros Hb. induction a as [|y a IH]; intros [pre Heq].
  - now exists pre.
  - cbn [append] in Heq. destruct pre as [|z pre].
    + cbn [append] in Heq. injection Heq as _ Heq.
      destruct a; [ contradiction | discriminate ].
    + cbn [append] in Heq. injection Heq as _ Heq.
      apply IH. now exists pre.
Qed.

(** The elements written by [Clean], joined, do not end with a separator. *)
Lemma Join_kept_no_trailing_sep (l : list string) :
  Forall kept l -> ~ ends_with (strings.Join l "/") "/".
Proof.
  induction 1 as [|e l He Hl IH].
  - intros [pre Heq]. destruct pre; discriminate.
  - destruct l as [|y l].
    + cbn [strings.Join]. intros [pre ->]. destruct He as [_ [_ Hs]].
      rewrite has_sep_append in Hs. apply orb_false_iff in Hs.
      destruct Hs as [_ Hs]. discriminate.
    + change (strings.Join (e :: y :: l) "/")
        with (e ++ "/" ++ strings.Join (y :: l) "/").
      intros Hend. apply IH.
      rewrite <- str_append_assoc in Hend.
      apply ends_with_append_last in Hend; [ assumption | ].
      inversion Hl as [|? ? [Hy0 [_ Hys]] _]; subst.
      destruct (Join_not_rooted y l Hy0 Hys) as [_ Hne].
      intros Heq. rewrite Heq in Hne. discriminate.
Qed.

(** A cleaned path that begins with a separator does not end with one past
    it. *)
Lemma Clean_no_trailing_sep (raw : string) :
  strings.HasPrefix (filepath.Clean raw) sep = true ->
  strings.HasSuffix (drop 1 (filepath.Clean raw)) sep = false.
Proof.
  destruct (is_empty raw) eqn:Hempty.
  { destruct raw; [ discriminate | discriminate ]. }
  destruct (String.prefix "/" raw) eqn:Hr.
  - rewrite (Clean_rooted raw Hr). intros _.
    set (out := fold_left (filepath.clean_step true) (filepath.elements raw) []).
    assert (Hw : written true out).
    { apply clean_fold_written; [ apply elements_no_sep | apply written_nil ]. }
    change (drop 1 ("/" ++ strings.Join (List.rev out) "/"))
      with (strings.Join (List.rev out) "/").
    destruct (strings.HasSuffix (strings.Join (List.rev out) "/") sep) eqn:Hs;
      [ | reflexivity ].
    apply HasSuffix_ends_with in Hs. exfalso.
    apply (Join_kept_no_trailing_sep (List.rev out)); [ | exact Hs ].
    apply Forall_rev. now destruct Hw.
  - rewrite (Clean_not_rooted raw Hempty Hr). cbv zeta.
    set (out := fold_left (filepath.clean_step false) (filepath.elements raw) []).
    assert (Hw : written false out).
    { apply clean_fold_written; [ apply elements_no_sep | apply written_nil ]. }
    destruct (List.rev out) as [|e l] eqn:Hrev; [ discriminate | ].
    assert (Hk : Forall kept (e :: l)).
    { destruct Hw as [Hk _]. apply Forall_rev in Hk. now rewrite Hrev in Hk. }
    assert (He : kept e) by now inversion Hk.
    destruct He as [He0 [_ Hes]].
    destruct (Join_not_rooted e l He0 Hes) as [Hp He].
    rewrite He. unfold strings.HasPrefix. change sep with "/".
    rewrite Hp. discriminate.
Qed.

(** The fields of a compiled rooted pattern: the cleaned pattern is a
    separator and the relative form, which does not end with a separator,
    and the prefix is the relative form and a separator. *)
Lemma NewPattern_rooted (raw : string) (q : pathPrefixPattern.t) :
  NewPattern raw = Ok (PathPrefix q) ->
  exists rel,
    filepath.Clean raw = sep ++ rel
    /\ q = pathPrefixPattern.mk (sep ++ rel) rel (rel ++ sep).
Proof.
  unfold NewPattern. set (c := filepath.Clean raw).
  destruct (local c); [ discriminate | ].
  destruct (_ && String.eqb _ _); [ discriminate | ].
  destruct (strings.Contains c sep && strings.Contains c "**").
  { destruct (regexp.MustCompile _); discriminate. }
  destruct (strings.Contains c "*"); [ destruct (negb _) | ].
  - destruct (regexp.MustCompile _); discriminate.
  - discriminate.
  - destruct (strings.Contains c sep && strings.HasPrefix c sep) eqn:Hroot;
      [ | discriminate ].
    apply andb_true_iff in Hroot. destruct Hroot as [_ Hroot].
    unfold c at 1. rewrite (Clean_no_trailing_sep raw Hroot). fold c.
    apply HasPrefix_starts in Hroot. destruct Hroot as [rel Hc].
    rewrite Hc. change (drop 1 (sep ++ rel)) with rel.
    intros Hq. injection Hq as <-. exists rel. split; reflexivity.
Qed.

Lemma Ok_inj {A : Type} (a b : A) : Ok a = Ok b -> a = b.
Proof. congruence. Qed.

(** A plain pattern without special characters matches the names in which
    the cleaned pattern is a run of whole elements: the pattern itself, a
    name that begins with the pattern and a separator, one that ends with
    a separator and the pattern, and one that holds the pattern between
    separators.  Its [HasPrefix] holds for the prefixes of the pattern
    closed by a separator. *)
Theorem plain_pattern_semantics (raw : string) (q : pathPattern.t) :
  NewPattern raw = Ok (Path q) ->
  glob_free (filepath.Clean raw) = true ->
  let c := filepath.Clean raw in
  (forall name,
      Pattern.Match (Path q) name = Ok true
      <-> name = c
          \/ (exists t, name = c ++ sep ++ t)
          \/ (exists t, name = t ++ sep ++ c)
          \/ (exists a b, name = a ++ sep ++ c ++ sep ++ b))
  /\ (forall d,
        Pattern.HasPrefix (Path q) d = Ok true <-> exists t, c ++ sep = d ++ t).
Proof.
  intros Hq Hg c. apply NewPattern_Path in Hq. fold c in Hq.
  assert (HM : forall name,
             Pattern.Match (Path q) name
             = Ok (if strings.HasPrefix name (c ++ sep)
                      || strings.HasSuffix name (sep ++ c)
                      || strings.Contains name (sep ++ c ++ sep)
                   then true else String.eqb c name)).
  { intros name. rewrite Hq. cbn [Pattern.Match pattern_Pattern].
    unfold pathPattern.Match, matched. cbn [pathPattern.rawPattern].
    now rewrite (Match_glob_free c name Hg). }
  assert (HP : forall d,
             Pattern.HasPrefix (Path q) d = Ok (strings.HasPrefix (c ++ sep) d)).
  { intros d. now rewrite Hq. }
  split.
  - intros name. rewrite HM. split.
    + intros Hm. apply Ok_inj in Hm.
      destruct (strings.HasPrefix name (c ++ sep)) eqn:H1.
      { apply HasPrefix_starts in H1. destruct H1 as [t ->].
        right. left. exists t. apply str_append_assoc. }
      destruct (strings.HasSuffix name (sep ++ c)) eqn:H2.
      { apply HasSuffix_ends_with in H2. destruct H2 as [t ->].
        right. right. left. now exists t. }
      destruct (strings.Contains name (sep ++ c ++ sep)) eqn:H3.
      { apply Contains_substring in H3. destruct H3 as [a [b ->]].
        right. right. right. exists a, b. now rewrite !str_append_assoc. }
      cbn [orb] in Hm. apply String.eqb_eq in Hm. now left.
    + intros Hname. f_equal.
      destruct Hname as [->|[[t ->]|[[t ->]|[a [b ->]]]]].
      * rewrite String.eqb_refl. now destruct (_ || _).
      * replace (strings.HasPrefix (c ++ sep ++ t) (c ++ sep)) with true;
          [ reflexivity | ].
        symmetry. apply HasPrefix_starts. exists t. symmetry.
        apply str_append_assoc.
      * replace (strings.HasSuffix (t ++ sep ++ c) (sep ++ c)) with true;
          [ now rewrite orb_true_r | ].
        symmetry. apply HasSuffix_ends_with. now exists t.
      * replace (strings.Contains (a ++ sep ++ c ++ sep ++ b) (sep ++ c ++ sep))
          with true; [ now rewrite orb_true_r | ].
        symmetry. apply Contains_substring. exists a, b.
        now rewrite !str_append_assoc.
  - intros d. rewrite HP. split.
    + intros Hd. apply Ok_inj in Hd. now apply HasPrefix_starts.
    + intros Hd. f_equal. now apply HasPrefix_starts.
Qed.

(** The pattern [build] matches [src/build/out.o], where it stands between
    separators. *)
Lemma plain_pattern_semantics_witness :
  exists q,
    NewPattern "build" = Ok (Path q)
    /\ Pattern.Match (Path q) "src/build/out.o" = Ok true.
Proof.
  eexists. split; [ vm_compute; reflexivity | ].
  eapply (plain_pattern_semantics "build");
    [ vm_compute; reflexivity | vm_compute; reflexivity | ].
  right. right. right. exists "src", "out.o". vm_compute. reflexivity.
Defined.

(** A rooted pattern, one whose cleaned form begins with a separator, is
    kept with its relative form, the cleaned pattern without the leading
    separator.  Without special characters it matches the relative form,
    the names that begin with the relative form and a separator, and the
    cleaned pattern itself; its [HasPrefix] holds for the prefixes of the
    relative form. *)
Theorem rooted_pattern_semantics (raw : string) (q : pathPrefixPattern.t) :
  NewPattern raw = Ok (PathPrefix q) ->
  glob_free (filepath.Clean raw) = true ->
  exists rel,
    filepath.Clean raw = sep ++ rel
    /\ pathPrefixPattern.relative q = rel
    /\ (forall name,
          Pattern.Match (PathPrefix q) name = Ok true
          <-> name = rel \/ (exists t, name = rel ++ sep ++ t) \/ name = sep ++ rel)
    /\ (forall d,
          Pattern.HasPrefix (PathPrefix q) d = Ok true <-> exists t, rel = d ++ t).
Proof.
  intros Hq Hg. destruct (NewPattern_rooted raw q Hq) as [rel [Hc Hfields]].
  rewrite Hc in Hg. exists rel.
  split; [ assumption | ]. split; [ now rewrite Hfields | ].
  assert (HM : forall name,
             Pattern.Match (PathPrefix q) name
             = Ok (if String.eqb name rel || strings.HasPrefix name (rel ++ sep)
                   then true else String.eqb (sep ++ rel) name)).
  { intros name. rewrite Hfields. cbn [Pattern.Match pattern_Pattern].
    unfold pathPrefixPattern.Match, matched. cbn [pathPrefixPattern.rawPattern].
    now rewrite (Match_glob_free (sep ++ rel) name Hg). }
  assert (HP : forall d,
             Pattern.HasPrefix (PathPrefix q) d = Ok (strings.HasPrefix rel d)).
  { intros d. now rewrite Hfields. }
  split.
  - intros name. rewrite HM. split.
    + intros Hm. apply Ok_inj in Hm.
      destruct (String.eqb_spec name rel) as [Heq|_]; [ now left | ].
      destruct (strings.HasPrefix name (rel ++ sep)) eqn:H1.
      { apply HasPrefix_starts in H1. destruct H1 as [t ->].
        right. left. exists t. apply str_append_assoc. }
      cbn [orb] in Hm. apply String.eqb_eq in Hm. now right; right.
    + intros Hname. f_equal. destruct Hname as [->|[[t ->]| ->]].
      * now rewrite String.eqb_refl.
      * replace (strings.HasPrefix (rel ++ sep ++ t) (rel ++ sep)) with true;
          [ now rewrite orb_true_r | ].
        symmetry. apply HasPrefix_starts. exists t. symmetry.
        apply str_append_assoc.
      * rewrite String.eqb_refl. now destruct (_ || _).
  - intros d. rewrite HP. split.
    + intros Hd. apply Ok_inj in Hd. now apply HasPrefix_starts.
    + intros Hd. f_equal. now apply HasPrefix_starts.
Qed.

(** The pattern [/docs/] has the relative form [docs] and matches
    [docs/a.md]. *)
Lemma rooted_pattern_semantics_witness :
  exists q rel,
    NewPattern "/docs/" = Ok (PathPrefix q)
    /\ filepath.Clean "/docs/" = sep ++ rel
    /\ pathPrefixPattern.relative q = rel
    /\ (Pattern.Match (PathPrefix q) "docs/a.md" = Ok true
        <-> "docs/a.md" = rel \/ (exists t, "docs/a.md" = rel ++ sep ++ t)
            \/ "docs/a.md" = sep ++ rel).
Proof.
  pose (q := pathPrefixPattern.mk "/docs" "docs" "docs/").
  assert (Hq : NewPattern "/docs/" = Ok (PathPrefix q)) by (vm_compute; reflexivity).
  destruct (rooted_pattern_semantics "/docs/" q Hq) as [rel [Hc [Hrel [Hm _]]]];
    [ vm_compute; reflexivity | ].
  exists q, rel. split; [ exact Hq | ]. split; [ exact Hc | ].
  split; [ exact Hrel | ]. exact (Hm "docs/a.md").
Defined.

(** ** The first prefix examined by [Filter.HasPrefix] *)

Lemma Join_cons (x : string) (l : list string) (glue : string) :
  l <> [] -> strings.Join (x :: l) glue = x ++ glue ++ strings.Join l glue.
Proof. destruct l; [ contradiction | reflexivity ]. Qed.

(** Joining what was split gives the string back. *)
Lemma Join_fill (k : nat) (old s : string) :
  strings.Join (strings.fill k old s) old = s.
Proof.
  revert s. induction k as [|k IH]; intros s; [ reflexivity | ].
  cbn [strings.fill].
  destruct (strings.cut old s) as [[a b]|] eqn:Hc; [ | reflexivity ].
  rewrite Join_cons by apply fill_not_nil.
  rewrite IH. symmetry. now apply cut_sound.
Qed.

Lemma Join_Split (s old : string) : strings.Join (strings.Split s old) old = s.
Proof. apply Join_fill. Qed.

Lemma Split_no_sep (d : string) :
  strings.Contains d sep = false -> strings.Split d sep = [d].
Proof.
  unfold strings.Contains, strings.Split. intros Hd.
  destruct (String.length d); cbn [strings.fill]; [ reflexivity | ].
  destruct (strings.cut sep d); [ discriminate | reflexivity ].
Qed.

Section FirstPrefix.

Context {P : Type} `{Pattern.t P}.

(** The first turn of the loop of [HasPrefix] examines the prefix as it
    was given. *)
Lemma HasPrefix_first_turn (f : Filter.t P) (prefix : string) :
  Filter.HasPrefix (Some f) prefix
  = (ex <- Filter.first (fun p => Pattern.Match p prefix) (Filter.exclude f) ;;
     match ex with
     | Some _ => Ok false
     | None =>
         if List.length (Filter.include f) =? 0 then Ok true
         else
           inc <- Filter.first (fun p => Pattern.HasPrefix p prefix)
                    (Filter.include f) ;;
           match inc with
           | Some _ => Ok true
           | None =>
               Filter.HasPrefix_loop f (strings.Split prefix sep)
                 (List.length (strings.Split prefix sep) - 1)
           end
     end).
Proof.
  unfold Filter.HasPrefix. set (parts := strings.Split prefix sep).
  assert (Hjoin : strings.Join (firstn (List.length parts) parts) sep = prefix).
  { rewrite firstn_all. apply Join_Split. }
  destruct (List.length parts) as [|i] eqn:Hlen.
  { destruct parts eqn:Hp; [ | discriminate ].
    unfold parts, strings.Split in Hp. now apply fill_not_nil in Hp. }
  cbn [Filter.HasPrefix_loop]. rewrite Hjoin.
  replace (S i - 1) with i by lia. reflexivity.
Qed.

Lemma HasPrefix_loop_returns (f : Filter.t P) (parts : list string) (i : nat) :
  returns f (ancestors_from parts i) ->
  exists b, Filter.HasPrefix_loop f parts i = Ok b.
Proof.
  induction i as [|i IH]; intros Hret; [ now exists false | ].
  rewrite ancestors_from_S in Hret.
  set (a := strings.Join (firstn (S i) parts) sep) in *.
  cbn [Filter.HasPrefix_loop]. fold a.
  destruct (first_returns (fun p => Pattern.Match p a) (Filter.exclude f))
    as [[e [Hf _]]|[Hf _]].
  { intros q Hq. apply (Hret a q); [ now left | assumption ]. }
  { rewrite Hf. cbn [bind]. now exists false. }
  rewrite Hf. cbn [bind].
  destruct (List.length (Filter.include f) =? 0); [ now exists true | ].
  destruct (first_returns (fun p => Pattern.HasPrefix p a) (Filter.include f))
    as [[p [Hg _]]|[Hg _]].
  { intros q Hq. apply (Hret a q); [ now left | assumption ]. }
  { rewrite Hg. cbn [bind]. now exists true. }
  rewrite Hg. cbn [bind]. apply IH. intros x p Hin. apply Hret. now right.
Qed.

(** With an empty include list [HasPrefix] tests the prefix as it was
    given against the exclude patterns and nothing else: no ancestor of
    the prefix is examined. *)
Theorem HasPrefix_empty_include (f : Filter.t P) (prefix : string) :
  Filter.include f = [] ->
  (forall p, In p (Filter.exclude f) -> Pattern.Match p prefix <> Panic) ->
  Filter.HasPrefix (Some f) prefix = Ok (negb (hits (Filter.exclude f) prefix)).
Proof.
  intros Hinc Hret. rewrite HasPrefix_first_turn, Hinc.
  destruct (first_hits (Filter.exclude f) prefix Hret) as [r [Hr ->]].
  rewrite Hr. cbn [bind List.length Nat.eqb]. now destruct r.
Qed.

End FirstPrefix.

(** The filter that excludes [build] answers false for the prefix
    [build/obj]. *)
Lemma HasPrefix_empty_include_witness :
  exists f,
    New [] ["build"] = Ok f
    /\ Filter.HasPrefix (Some f) "build/obj" = Ok false.
Proof.
  pose (f := match New [] ["build"] with
             | Ok f => f
             | Panic => Filter.mk [] []
             end).
  exists f. split; [ vm_compute; reflexivity | ].
  change false with (negb (hits (Filter.exclude f) "build/obj")).
  apply (HasPrefix_empty_include f "build/obj"); [ reflexivity | ].
  intros p Hp. vm_compute in Hp. destruct Hp as [<-|[]]. vm_compute. discriminate.
Defined.

(** ** Filters built by [New]: what never happens *)

Lemma New_lists (include exclude : list string) (f : Filter.t pattern) :
  New include exclude = Ok f ->
  convertToPatterns include = Ok (Filter.include f)
  /\ convertToPatterns exclude = Ok (Filter.exclude f).
Proof.
  unfold New, NewFromPatterns.
  destruct (convertToPatterns include) as [inc|]; [ | discriminate ].
  destruct (convertToPatterns exclude) as [exc|]; [ | discriminate ].
  cbn [bind]. intros Hf. apply Ok_inj in Hf. subst f. split; reflexivity.
Qed.

(** A filter built by [New] answers, without a panic, for every file name
    whose cleaned form holds no list separator and for every prefix that
    holds none. *)
Theorem New_filter_returns (include exclude : list string)
  (f : Filter.t pattern) :
  New include exclude = Ok f ->
  (forall filename,
      strings.Contains (filepath.Clean filename) ":" = false ->
      exists rule allowed,
        Filter.AllowsPattern (Some f) filename = Ok (rule, allowed)
        /\ Filter.Allows (Some f) filename = Ok allowed)
  /\ (forall prefix,
        strings.Contains prefix ":" = false ->
        exists b, Filter.HasPrefix (Some f) prefix = Ok b).
Proof.
  intros Hnew. split.
  - intros filename Hname. destruct f as [inc exc].
    destruct (AllowsPattern_hits inc exc filename) as [rule Hrule].
    { intros p Hp. now apply (New_returns _ _ _ _ Hnew Hname p). }
    eexists. eexists. split; [ exact Hrule | ].
    unfold Filter.Allows. rewrite Hrule. reflexivity.
  - intros prefix Hp. unfold Filter.HasPrefix.
    apply HasPrefix_loop_returns.
    exact (New_HasPrefix_returns include exclude f prefix Hnew Hp).
Qed.

(** The filter with include [sub/*.txt] answers for [sub/a.txt]. *)
Lemma New_filter_returns_witness :
  exists f rule allowed,
    New ["sub/*.txt"] ["*.tmp"] = Ok f
    /\ Filter.AllowsPattern (Some f) "sub/a.txt" = Ok (rule, allowed)
    /\ Filter.Allows (Some f) "sub/a.txt" = Ok allowed.
Proof.
  pose (f := match New ["sub/*.txt"] ["*.tmp"] with
             | Ok f => f
             | Panic => Filter.mk [] []
             end).
  assert (Hf : New ["sub/*.txt"] ["*.tmp"] = Ok f) by (vm_compute; reflexivity).
  destruct (New_filter_returns _ _ f Hf) as [Hallows _].
  destruct (Hallows "sub/a.txt") as [rule [allowed Hres]];
    [ vm_compute; reflexivity | ].
  exists f, rule, allowed. split; [ exact Hf | exact Hres ].
Defined.

(** The [HasPrefix] of a pattern with a star that is not a pathful-wildcard
    pattern holds for every name. *)
Lemma NewPattern_wildcard_HasPrefix (raw : string) (p : pattern) (name : string) :
  NewPattern raw = Ok p ->
  strings.Contains (filepath.Clean raw) "*" = true ->
  strings.Contains (filepath.Clean raw) sep = false
  \/ strings.Contains (filepath.Clean raw) "**" = true ->
  Pattern.HasPrefix p name = Ok true.
Proof.
  intros Hp Hstar Hkind.
  pose proof (wildcard_HasPrefix_always_true raw p name Hp) as Hwild.
  destruct p as [q|q|q|q|q|q|n]; try exact Hwild; try reflexivity; exfalso;
    revert Hp; unfold NewPattern; set (c := filepath.Clean raw) in *;
    (destruct (local c); [ discriminate | ]);
    (destruct (_ && String.eqb _ _); [ discriminate | ]);
    (destruct (strings.Contains c sep) eqn:Hsep;
     [ destruct Hkind as [Hkind|Hkind]; [ discriminate | ] | ]);
    rewrite ?Hkind, ?Hstar; cbn [andb negb];
    destruct (regexp.MustCompile _); discriminate.
Qed.

(** An include pattern with a star that is not a pathful-wildcard pattern
    keeps [HasPrefix] from pruning: the answer is true for every prefix
    that no exclude pattern matches. *)
Theorem wildcard_include_never_prunes (include exclude : list string)
  (f : Filter.t pattern) (raw prefix : string) :
  New include exclude = Ok f ->
  In raw include ->
  strings.Contains (filepath.Clean raw) "*" = true ->
  strings.Contains (filepath.Clean raw) sep = false
  \/ strings.Contains (filepath.Clean raw) "**" = true ->
  strings.Contains prefix ":" = false ->
  no_match (Filter.exclude f) prefix ->
  Filter.HasPrefix (Some f) prefix = Ok true.
Proof.
  intros Hnew Hin Hstar Hkind Hprefix Hno.
  destruct (New_lists _ _ _ Hnew) as [Hinc _].
  destruct (convertToPatterns_In _ _ _ Hinc Hin) as [p [Hp Hpin]].
  pose proof (NewPattern_wildcard_HasPrefix raw p prefix Hp Hstar Hkind) as Htrue.
  rewrite HasPrefix_first_turn, (first_none _ _ Hno). cbn [bind].
  destruct (Filter.include f) as [|p0 ps] eqn:Hf; [ contradiction | ].
  cbn [List.length Nat.eqb]. rewrite <- Hf in *.
  destruct (first_returns (fun p => Pattern.HasPrefix p prefix) (Filter.include f))
    as [[p' [Hg _]]|[_ Hnone]].
  - intros q Hq. apply (New_returns _ _ _ _ Hnew Hprefix q).
    apply in_or_app. now left.
  - now rewrite Hg.
  - rewrite (Hnone p Hpin) in Htrue. discriminate.
Qed.

(** With [*.go] among the include patterns the prefix [vendor/lib] is not
    pruned. *)
Lemma wildcard_include_never_prunes_witness :
  exists f,
    New ["cmd"; "*.go"] ["*.tmp"] = Ok f
    /\ Filter.HasPrefix (Some f) "vendor/lib" = Ok true.
Proof.
  pose (f := match New ["cmd"; "*.go"] ["*.tmp"] with
             | Ok f => f
             | Panic => Filter.mk [] []
             end).
  assert (Hf : New ["cmd"; "*.go"] ["*.tmp"] = Ok f) by (vm_compute; reflexivity).
  exists f. split; [ exact Hf | ].
  apply (wildcard_include_never_prunes ["cmd"; "*.go"] ["*.tmp"] f "*.go").
  - exact Hf.
  - right. now left.
  - vm_compute. reflexivity.
  - left. vm_compute. reflexivity.
  - vm_compute. reflexivity.
  - constructor; [ vm_compute; reflexivity | constructor ].
Defined.

(** ** Pruning with a plain pattern *)




(** ** A pattern without special characters and its own text *)

(** A raw pattern whose cleaned form has no special character compiles to
    a pattern that matches the cleaned form, and the filter that includes
    it alone allows the raw pattern as a path, under the cleaned form as
    rule. *)
Theorem literal_pattern_allows_itself (raw : string) :
  glob_free (filepath.Clean raw) = true ->
  exists p f,
    NewPattern raw = Ok p
    /\ Pattern.Match p (filepath.Clean raw) = Ok true
    /\ New [raw] [] = Ok f
    /\ Filter.AllowsPattern (Some f) raw = Ok (filepath.Clean raw, true).
Proof.
  intros Hg.
  pose proof (NewPattern_no_star raw (glob_free_no_star _ Hg)) as Hp.
  cbv zeta in Hp. set (c := filepath.Clean raw) in *.
  assert (Hself : matched c c = true).
  { unfold matched. now rewrite (Match_glob_free c c Hg), String.eqb_refl. }
  assert (Hnew : exists p, NewPattern raw = Ok p
                           /\ Pattern.Match p c = Ok true
                           /\ Pattern.String p = c).
  { rewrite Hp. destruct (local c).
    { eexists. split; [ reflexivity | split; reflexivity ]. }
    destruct (strings.Contains c sep && strings.HasPrefix c sep);
      [ destruct (strings.HasSuffix (drop 1 c) sep) | ];
      eexists; (split; [ reflexivity | ]); (split; [ | reflexivity ]);
      cbn [Pattern.Match pattern_Pattern]; f_equal.
    - unfold pathPrefixPattern.Match. cbn [pathPrefixPattern.rawPattern].
      rewrite Hself. now destruct (_ || _).
    - unfold pathPrefixPattern.Match. cbn [pathPrefixPattern.rawPattern].
      rewrite Hself. now destruct (_ || _).
    - unfold pathPattern.Match. cbn [pathPattern.rawPattern].
      rewrite Hself. now destruct (_ || _). }
  destruct Hnew as [p [Hnew [HM HS]]].
  exists p, (Filter.mk [p] []).
  split; [ exact Hnew | ]. split; [ exact HM | ].
  split. { unfold New. cbn [convertToPatterns]. rewrite Hnew. reflexivity. }
  unfold Filter.AllowsPattern.
  cbn [Filter.include Filter.exclude List.length Nat.add Nat.eqb Nat.ltb
         Nat.leb Filter.first].
  fold c. rewrite HM. cbn [bind]. now rewrite HS.
Qed.

(** The pattern [./docs/api/] allows itself under the rule [docs/api]. *)
Lemma literal_pattern_allows_itself_witness :
  exists p f,
    NewPattern "./docs/api/" = Ok p
    /\ Pattern.Match p (filepath.Clean "./docs/api/") = Ok true
    /\ New ["./docs/api/"] [] = Ok f
    /\ Filter.AllowsPattern (Some f) "./docs/api/"
       = Ok (filepath.Clean "./docs/api/", true).
Proof.
  apply (literal_pattern_allows_itself "./docs/api/"). vm_compute. reflexivity.
Defined.

(** ** Building a filter again from its own strings *)

Lemma NewPattern_Clean (raw : string) :
  NewPattern (filepath.Clean raw) = NewPattern raw.
Proof. unfold NewPattern. now rewrite Clean_idempotent. Qed.

Lemma NewPattern_of_String (raw : string) (p : pattern) :
  NewPattern raw = Ok p ->
  strings.Contains (filepath.Clean raw) ":" = false ->
  NewPattern (Pattern.String p) = Ok p.
Proof.
  intros Hp Hc. rewrite (NewPattern_String raw p Hp). unfold canonical.
  rewrite (Join_SplitList_no_list_separator _ Hc).
  destruct (_ && _); now rewrite NewPattern_Clean.
Qed.

Lemma convertToPatterns_of_Strings (raws : list string) (ps : list pattern) :
  convertToPatterns raws = Ok ps ->
  Forall (fun raw => strings.Contains (filepath.Clean raw) ":" = false) raws ->
  convertToPatterns (Filter.patternsToStrings ps) = Ok ps.
Proof.
  revert ps. induction raws as [|raw raws IH]; intros ps Hps Hall.
  - apply Ok_inj in Hps. now subst ps.
  - cbn [convertToPatterns] in Hps.
    destruct (NewPattern raw) as [p|] eqn:Hp; [ | discriminate ].
    destruct (convertToPatterns raws) as [qs|] eqn:Hqs; [ | discriminate ].
    cbn [bind] in Hps. apply Ok_inj in Hps. subst ps.
    inversion Hall as [|? ? Hraw Hraws]; subst.
    unfold Filter.patternsToStrings. cbn [map convertToPatterns].
    rewrite (NewPattern_of_String raw p Hp Hraw).
    cbn [bind]. fold (Filter.patternsToStrings qs).
    now rewrite (IH qs eq_refl Hraws).
Qed.

(** The strings a filter gives back for its patterns build the same filter
    again, when no cleaned raw pattern holds a list separator. *)
Theorem New_Include_Exclude_round_trip (include exclude : list string)
  (f : Filter.t pattern) :
  New include exclude = Ok f ->
  Forall (fun raw => strings.Contains (filepath.Clean raw) ":" = false)
    (include ++ exclude)%list ->
  New (Filter.Include f) (Filter.Exclude f) = Ok f.
Proof.
  intros Hnew Hall. destruct (New_lists _ _ _ Hnew) as [Hinc Hexc].
  apply Forall_app in Hall. destruct Hall as [Hi He].
  unfold New, Filter.Include, Filter.Exclude.
  rewrite (convertToPatterns_of_Strings _ _ Hinc Hi),
    (convertToPatterns_of_Strings _ _ Hexc He).
  now destruct f.
Qed.

(** The filter built from [./src/], [*.go] and [docs/**/*.md], with
    exclude [/tmp/], is built again from its own strings. *)
Lemma New_Include_Exclude_round_trip_witness :
  exists f,
    New ["./src/"; "*.go"; "docs/**/*.md"] ["/tmp/"] = Ok f
    /\ New (Filter.Include f) (Filter.Exclude f) = Ok f.
Proof.
  pose (f := match New ["./src/"; "*.go"; "docs/**/*.md"] ["/tmp/"] with
             | Ok f => f
             | Panic => Filter.mk [] []
             end).
  assert (Hf : New ["./src/"; "*.go"; "docs/**/*.md"] ["/tmp/"] = Ok f)
    by (vm_compute; reflexivity).
  exists f. split; [ exact Hf | ].
  apply (New_Include_Exclude_round_trip _ _ f Hf).
  repeat constructor.
Defined.

(** ** Pathful-wildcard patterns *)

Lemma cut_first (ch : ascii) (s a b : string) :
  strings.cut (String ch "") s = Some (a, b) -> occurs ch a = false.
Proof.
  revert a b. induction s as [|x s IH]; intros a b.
  - cbn [strings.cut String.prefix]. discriminate.
  - rewrite cut_cons, prefix_cons, prefix_nil, andb_true_r.
    destruct (Ascii.eqb ch x) eqn:Hx.
    + intros Hc. injection Hc as <- _. reflexivity.
    + destruct (strings.cut (String ch "") s) as [[a' b']|]; [ | discriminate ].
      intros Hc. injection Hc as <- _. cbn [occurs].
      rewrite Ascii.eqb_sym, Hx. now apply (IH a' b').
Qed.

(** [SplitN(w, "*", 2)] on a component with a star: what comes before the
    first star and what comes after it. *)
Lemma SplitN_star (w pre suf : string) :
  strings.cut "*" w = Some (pre, suf) ->
  strings.SplitN w "*" 2 = strings.mkSlice [pre; suf] 2.
Proof.
  intros Hc. unfold strings.SplitN.
  destruct w as [|x w]; [ discriminate | ].
  replace (Nat.min 2 (String.length (String x w) + 1)) with 2
    by (cbn [String.length]; lia).
  cbn [Nat.sub strings.fill]. rewrite Hc. reflexivity.
Qed.

(** The first component against a pattern of one component: the loop goes
    on when the component begins with what comes before the first star
    and, unless there is a second star, ends with what comes after it. *)
Lemma partial_dir_single (w pre suf dir : string) :
  strings.cut "*" w = Some (pre, suf) ->
  pathfulWildcardPattern.partial_dir (pathfulWildcardPattern.mk [w]) 0 dir
  = Ok (if strings.HasPrefix dir pre
           && (strings.Contains suf "*" || strings.HasSuffix dir suf)
        then pathfulWildcardPattern.Continue
        else pathfulWildcardPattern.Return "").
Proof.
  intros Hc. unfold pathfulWildcardPattern.partial_dir.
  cbn [pathfulWildcardPattern.wildDirs nth_error].
  rewrite (SplitN_star w pre suf Hc).
  cbn [strings.len Nat.ltb Nat.leb Nat.eqb strings.index strings.arr nth_error
       bind drop strings.upto List.length firstn strings.Join].
  destruct (strings.HasPrefix dir pre); cbn [negb andb bind]; [ | reflexivity ].
  destruct (strings.Contains suf "*"); cbn [orb]; [ reflexivity | ].
  destruct (strings.HasSuffix dir suf); reflexivity.
Qed.

Lemma SplitList_single (name : string) :
  name <> "" -> strings.Contains name ":" = false ->
  filepath.SplitList name = [name].
Proof.
  intros Hne Hname.
  destruct (SplitList_no_list_separator name Hname) as [Hs|Hs]; [ | exact Hs ].
  destruct name; [ contradiction | ].
  unfold filepath.SplitList, strings.Split in Hs. cbn [is_empty] in Hs.
  now apply fill_not_nil in Hs.
Qed.

(** [partial] of a pattern of one component on a name with no list
    separator. *)
Lemma partial_single (w pre suf name : string) :
  strings.cut "*" w = Some (pre, suf) ->
  strings.Contains name ":" = false ->
  pathfulWildcardPattern.partial (pathfulWildcardPattern.mk [w]) name
  = Ok (if is_empty name
           || (strings.HasPrefix name pre
               && (strings.Contains suf "*" || strings.HasSuffix name suf))
        then name else "").
Proof.
  intros Hc Hname. unfold pathfulWildcardPattern.partial.
  destruct name as [|x name]; [ reflexivity | ].
  assert (Hne : String x name <> "") by discriminate.
  rewrite (SplitList_single _ Hne Hname).
  cbn [pathfulWildcardPattern.partial_loop is_empty orb].
  rewrite (partial_dir_single w pre suf _ Hc).
  now destruct (_ && _).
Qed.

(** [partial] of a pattern of one component on a name with a list
    separator: the second component is looked up in the pattern, which has
    none. *)
Lemma partial_list_separator (w pre suf d e : string) :
  strings.cut "*" w = Some (pre, suf) ->
  occurs ":" d = false ->
  pathfulWildcardPattern.partial (pathfulWildcardPattern.mk [w])
    (d ++ String ":" e)
  = if strings.HasPrefix d pre
       && (strings.Contains suf "*" || strings.HasSuffix d suf)
    then Panic else Ok "".
Proof.
  intros Hc Hd. unfold pathfulWildcardPattern.partial.
  assert (Hsplit : exists x rest,
             filepath.SplitList (d ++ String ":" e) = d :: x :: rest).
  { unfold filepath.SplitList, strings.Split.
    destruct (d ++ String ":" e) as [|y t] eqn:Hname.
    { destruct d; discriminate. }
    cbn [is_empty String.length strings.fill].
    change (String filepath.ListSeparator "") with (String ":"%char "").
    rewrite <- Hname, (cut_first_byte ":" d e Hd).
    pose proof (fill_not_nil (String.length t) (String ":"%char "") e) as Hne.
    destruct (strings.fill _ _ e) as [|x rest]; [ contradiction | ].
    now exists x, rest. }
  destruct Hsplit as [x [rest ->]].
  cbn [pathfulWildcardPattern.partial_loop].
  rewrite (partial_dir_single w pre suf d Hc).
  destruct (_ && _); reflexivity.
Qed.

(** The fields of a compiled pathful-wildcard pattern. *)
Lemma NewPattern_pathful_fields (raw : string) (q : pathfulWildcardPattern.t) :
  NewPattern raw = Ok (PathfulWildcard q) ->
  q = pathfulWildcardPattern.mk (filepath.SplitList (filepath.Clean raw))
  /\ strings.Contains (filepath.Clean raw) "*" = true
  /\ strings.Contains (filepath.Clean raw) sep = true.
Proof.
  unfold NewPattern. set (c := filepath.Clean raw).
  destruct (local c); [ discriminate | ].
  destruct (_ && String.eqb _ _); [ discriminate | ].
  destruct (strings.Contains c sep && strings.Contains c "**").
  { destruct (regexp.MustCompile _); discriminate. }
  destruct (strings.Contains c "*") eqn:Hstar.
  - destruct (strings.Contains c sep) eqn:Hsep; cbn [negb].
    + intros Hq. apply Ok_inj in Hq. injection Hq as <-. auto.
    + destruct (regexp.MustCompile _); discriminate.
  - destruct (strings.Contains c sep && strings.HasPrefix c sep);
      [ destruct (strings.HasSuffix (drop 1 c) sep) | ]; discriminate.
Qed.

(** A pathful-wildcard pattern whose cleaned form holds no list separator
    is kept as one component, cut at its first star. *)
Lemma NewPattern_pathful_single (raw : string) (q : pathfulWildcardPattern.t) :
  NewPattern raw = Ok (PathfulWildcard q) ->
  strings.Contains (filepath.Clean raw) ":" = false ->
  exists pre suf,
    q = pathfulWildcardPattern.mk [filepath.Clean raw]
    /\ strings.cut "*" (filepath.Clean raw) = Some (pre, suf)
    /\ filepath.Clean raw = pre ++ "*" ++ suf
    /\ occurs "*" pre = false.
Proof.
  intros Hq Hcolon.
  destruct (NewPattern_pathful_fields raw q Hq) as [-> [Hstar _]].
  unfold strings.Contains in Hstar.
  destruct (strings.cut "*" (filepath.Clean raw)) as [[pre suf]|] eqn:Hc;
    [ | discriminate ].
  exists pre, suf. split; [ | split; [ reflexivity | split ] ].
  - rewrite SplitList_single; [ reflexivity | | assumption ].
    intros Hnil. rewrite Hnil in Hc. discriminate.
  - now apply cut_sound.
  - exact (cut_first "*" _ _ _ Hc).
Qed.

(** What a pathful-wildcard pattern matches, among the names with no list
    separator, when its cleaned form has none: the name is only compared
    with what stands before the first star of the pattern and with what
    stands after it.  The name has to begin with the former and to end
    with the latter, whatever lies between, separators included; when a
    second star follows, the end of the name is not looked at; and the
    empty name matches.  [HasPrefix] holds for the same names, the empty
    one excepted. *)
Theorem pathful_wildcard_semantics (raw : string) (q : pathfulWildcardPattern.t) :
  NewPattern raw = Ok (PathfulWildcard q) ->
  strings.Contains (filepath.Clean raw) ":" = false ->
  exists pre suf,
    filepath.Clean raw = pre ++ "*" ++ suf
    /\ occurs "*" pre = false
    /\ forall name,
         strings.Contains name ":" = false ->
         Pattern.Match (PathfulWildcard q) name
         = Ok (is_empty name
               || (strings.HasPrefix name pre
                   && (strings.Contains suf "*" || strings.HasSuffix name suf)))
         /\ Pattern.HasPrefix (PathfulWildcard q) name
            = Ok (negb (is_empty name)
                  && (strings.HasPrefix name pre
                      && (strings.Contains suf "*" || strings.HasSuffix name suf))).
Proof.
  intros Hq Hcolon.
  destruct (NewPattern_pathful_single raw q Hq Hcolon)
    as [pre [suf [-> [Hc [Hclean Hpre]]]]].
  exists pre, suf. split; [ assumption | ]. split; [ assumption | ].
  intros name Hname. cbn [Pattern.Match Pattern.HasPrefix pattern_Pattern].
  unfold pathfulWildcardPattern.Match, pathfulWildcardPattern.HasPrefix.
  rewrite (partial_single _ pre suf name Hc Hname). cbn [bind].
  destruct name as [|x name]; [ split; reflexivity | ].
  cbn [is_empty orb negb andb].
  destruct (_ && _); [ | split; reflexivity ].
  rewrite String.eqb_refl. split; reflexivity.
Qed.

(** The pattern [a/*/b*] matches [a/x], the end of the name being left
    unexamined on account of the second star. *)
Lemma pathful_wildcard_semantics_witness :
  exists q,
    NewPattern "a/*/b*" = Ok (PathfulWildcard q)
    /\ Pattern.Match (PathfulWildcard q) "a/x" = Ok true.
Proof.
  pose (q := pathfulWildcardPattern.mk ["a/*/b*"]).
  assert (Hq : NewPattern "a/*/b*" = Ok (PathfulWildcard q))
    by (vm_compute; reflexivity).
  exists q. split; [ exact Hq | ].
  destruct (pathful_wildcard_semantics "a/*/b*" q Hq) as [pre [suf [Hc [Hpre Hm]]]];
    [ vm_compute; reflexivity | ].
  destruct (Hm "a/x") as [Hmatch _]; [ vm_compute; reflexivity | ].
  rewrite Hmatch. f_equal.
  assert (Hcut : strings.cut "*" (pre ++ "*" ++ suf) = Some (pre, suf))
    by exact (cut_first_byte "*" pre suf Hpre).
  rewrite <- Hc in Hcut. vm_compute in Hcut. injection Hcut as <- <-.
  vm_compute. reflexivity.
Defined.

(** A name with a list separator makes a pathful-wildcard pattern, whose
    cleaned form has none, panic as soon as the part of the name before
    the separator matches: the pattern is asked for a second component.
    When that part does not match, the tests return false. *)
Theorem pathful_wildcard_panics (raw : string) (q : pathfulWildcardPattern.t)
  (d e : string) :
  NewPattern raw = Ok (PathfulWildcard q) ->
  strings.Contains (filepath.Clean raw) ":" = false ->
  strings.Contains d ":" = false -> d <> "" ->
  (Pattern.Match (PathfulWildcard q) d = Ok true ->
   Pattern.Match (PathfulWildcard q) (d ++ ":" ++ e) = Panic
   /\ Pattern.HasPrefix (PathfulWildcard q) (d ++ ":" ++ e) = Panic)
  /\ (Pattern.Match (PathfulWildcard q) d = Ok false ->
      Pattern.Match (PathfulWildcard q) (d ++ ":" ++ e) = Ok false
      /\ Pattern.HasPrefix (PathfulWildcard q) (d ++ ":" ++ e) = Ok false).
Proof.
  intros Hq Hcolon Hd Hne.
  destruct (NewPattern_pathful_single raw q Hq Hcolon)
    as [pre [suf [-> [Hc _]]]].
  cbn [Pattern.Match Pattern.HasPrefix pattern_Pattern].
  unfold pathfulWildcardPattern.Match, pathfulWildcardPattern.HasPrefix.
  rewrite (partial_single _ pre suf d Hc Hd).
  change (d ++ ":" ++ e) with (d ++ String ":" e).
  change ":" with (String ":"%char "") in Hd. rewrite Contains_occurs in Hd.
  rewrite (partial_list_separator _ pre suf d e Hc Hd).
  destruct d as [|x d]; [ contradiction | ].
  cbn [is_empty orb bind].
  destruct (_ && _); cbn [bind].
  - split; [ intros _; split; reflexivity | ].
    rewrite String.eqb_refl. discriminate.
  - split; [ discriminate | ]. intros _. split; reflexivity.
Qed.

(** The pattern [sub/*.txt] panics on [sub/a.txt:b]. *)
Lemma pathful_wildcard_panics_witness :
  exists q,
    NewPattern "sub/*.txt" = Ok (PathfulWildcard q)
    /\ Pattern.Match (PathfulWildcard q) "sub/a.txt:b" = Panic
    /\ Pattern.HasPrefix (PathfulWildcard q) "sub/a.txt:b" = Panic.
Proof.
  pose (q := pathfulWildcardPattern.mk ["sub/*.txt"]).
  assert (Hq : NewPattern "sub/*.txt" = Ok (PathfulWildcard q))
    by (vm_compute; reflexivity).
  exists q. split; [ exact Hq | ].
  apply (pathful_wildcard_panics "sub/*.txt" q "sub/a.txt" "b" Hq).
  - vm_compute. reflexivity.
  - vm_compute. reflexivity.
  - discriminate.
  - vm_compute. reflexivity.
Defined.

(** ** The expression of a wildcard pattern, run *)

Lemma code_eqb (a b : ascii) : N.eqb (N_of_ascii a) (N_of_ascii b) = Ascii.eqb a b.
Proof.
  destruct (Ascii.eqb_spec a b) as [->|Hne]; [ apply N.eqb_refl | ].
  apply N.eqb_neq. intros Heq. apply Hne.
  now rewrite <- (ascii_N_embedding a), <- (ascii_N_embedding b), Heq.
Qed.

Lemma stars_ascii (c : string) : ascii_only c = true -> ascii_tokens (stars c).
Proof.
  induction c as [|a c IH]; [ constructor | ].
  cbn [ascii_only stars]. intros Hc. apply andb_true_iff in Hc.
  destruct Hc as [Ha Hc]. constructor; [ | now apply IH ].
  now destruct (Ascii.eqb a "*").
Qed.

Lemma double_stars_ascii (c : string) :
  ascii_only c = true -> ascii_tokens (double_stars c).
Proof.
  enough (Hboth : (ascii_only c = true -> ascii_tokens (double_stars c))
                  /\ forall a, ascii_only (String a c) = true ->
                               ascii_tokens (double_stars (String a c)))
    by apply Hboth.
  induction c as [|b c [IH1 IH2]].
  - split; [ constructor | ]. intros a Ha. cbn [ascii_only] in Ha.
    apply andb_true_iff in Ha. destruct Ha as [Ha _].
    repeat constructor. exact Ha.
  - split; [ apply IH2 | ]. intros a Ha. rewrite double_stars_pair.
    cbn [ascii_only] in Ha. apply andb_true_iff in Ha. destruct Ha as [Ha Hbc].
    destruct (Ascii.eqb a "*" && Ascii.eqb b "*").
    + constructor; [ exact I | ]. apply IH1.
      cbn [ascii_only] in Hbc. apply andb_true_iff in Hbc. now destruct Hbc.
    + constructor; [ exact Ha | ]. now apply IH2.
Qed.

(** The program parsed from the expression of ASCII tokens. *)
Lemma parse_render_ascii (ts : list token) :
  ascii_tokens ts ->
  forall fuel,
    List.length ts < fuel ->
    regexp.parse fuel (render ts ++ "$") = Some (map inst_of ts ++ [regexp.EndText])%list.
Proof.
  induction 1 as [|t ts Ht Hts IH]; intros fuel Hfuel.
  - destruct fuel as [|fuel]; [ simpl in Hfuel; lia | ].
    cbn. now destruct fuel.
  - destruct fuel as [|fuel]; [ simpl in Hfuel; lia | ].
    assert (Hfuel' : List.length ts < fuel) by (simpl in Hfuel; lia).
    rewrite render_cons_end.
    pose proof (render_head_not_repeat ts) as Hrep.
    destruct t as [|a].
    + cbn [render1 append regexp.parse]. cbn [Ascii.eqb Bool.eqb].
      rewrite Hrep, (IH fuel Hfuel'). reflexivity.
    + cbn [render1]. destruct (regexp.special a) eqn:Hsp.
      * destruct (special_is_ascii a Hsp) as [Hlt Hal].
        cbn [append regexp.parse]. cbn [Ascii.eqb Bool.eqb].
        rewrite Hlt, Hal, Hrep, (IH fuel Hfuel'). reflexivity.
      * destruct (not_special a Hsp) as [H1 [H2 [H3 [H4 _]]]].
        cbn [append regexp.parse]. rewrite H1, H2, H3, H4, Hsp.
        rewrite (decode_ascii a _ Ht).
        replace (N.eqb (N_of_ascii a) utf8.RuneError) with false.
        -- cbn [andb drop take]. rewrite Hrep, (IH fuel Hfuel'). reflexivity.
        -- symmetry. apply N.eqb_neq. apply N.ltb_lt in Ht.
           unfold utf8.RuneError. lia.
Qed.

Lemma render_length (ts : list token) :
  List.length ts <= String.length (render ts).
Proof.
  induction ts as [|t ts IH]; [ simpl; lia | ].
  cbn [render List.length]. rewrite str_length_append.
  destruct t as [|a]; cbn [render1]; [ simpl; lia | ].
  destruct (regexp.special a); simpl; lia.
Qed.

(** The expression of ASCII tokens compiles to the program that reads
    them in turn between the two anchors. *)
Lemma MustCompile_ascii (ts : list token) (re : regexp.Regexp) :
  ascii_tokens ts ->
  regexp.MustCompile ("^" ++ render ts ++ "$") = Ok re ->
  regexp.prog re = (regexp.BeginText :: map inst_of ts ++ [regexp.EndText])%list.
Proof.
  intros Hts. unfold regexp.MustCompile, regexp.Compile.
  cbn [append String.length regexp.parse]. cbn [Ascii.eqb Bool.eqb].
  rewrite (parse_render_ascii ts Hts).
  - intros Hre. apply Ok_inj in Hre. now subst re.
  - rewrite str_length_append. pose proof (render_length ts). simpl. lia.
Qed.

Lemma runes_ascii (s : string) (fuel : nat) :
  ascii_only s = true -> String.length s <= fuel ->
  regexp.runes fuel s = codes s.
Proof.
  revert fuel. induction s as [|a s IH]; intros fuel Hs Hfuel.
  - now destruct fuel.
  - destruct fuel as [|fuel]; [ simpl in Hfuel; lia | ].
    cbn [ascii_only] in Hs. apply andb_true_iff in Hs. destruct Hs as [Ha Hs].
    cbn [regexp.runes]. rewrite (decode_ascii a s Ha). cbn [drop].
    unfold codes. cbn [list_ascii_of_string map]. f_equal.
    apply IH; [ assumption | simpl in Hfuel; lia ].
Qed.

Lemma matches_any (ins : list regexp.inst) (at_start : bool) (rs : list N) :
  regexp.matches (regexp.AnyNotNLStar :: ins) at_start rs
  = regexp.matches ins at_start rs
    || match rs with
       | r :: rs' =>
           negb (N.eqb r 10) && regexp.matches (regexp.AnyNotNLStar :: ins) false rs'
       | [] => false
       end.
Proof. destruct rs; reflexivity. Qed.

Lemma wild_any_cons (b : ascii) (ts : list token) (s : string) :
  Ascii.eqb b newline = false -> wild (TAny :: ts) s ->
  wild (TAny :: ts) (String b s).
Proof.
  intros Hb Hw. inversion Hw as [| |mid ts' s' Hmid Hs]; subst.
  apply (wild_any (String b mid)); [ | assumption ].
  cbn [occurs]. now rewrite Hb.
Qed.

Lemma wild_any_inv (ts : list token) (s : string) :
  wild (TAny :: ts) s ->
  wild ts s
  \/ exists b s', s = String b s' /\ Ascii.eqb b newline = false
                  /\ wild (TAny :: ts) s'.
Proof.
  intros Hw. inversion Hw as [| |mid ts' s' Hmid Hs]; subst.
  destruct mid as [|x mid]; [ now left | right ].
  cbn [occurs] in Hmid. apply orb_false_iff in Hmid. destruct Hmid as [Hx Hmid].
  exists x, (mid ++ s'). split; [ reflexivity | ].
  split; [ exact Hx | now apply wild_any ].
Qed.

(** The program of a sequence of tokens matches the names the tokens
    stand for. *)
Lemma matches_wild (ts : list token) :
  forall (at_start : bool) (s : string),
    regexp.matches (map inst_of ts ++ [regexp.EndText])%list at_start (codes s) = true
    <-> wild ts s.
Proof.
  induction ts as [|t ts IH]; intros at_start s.
  - cbn [map app]. destruct s as [|b s].
    + split; [ constructor | reflexivity ].
    + split; [ discriminate | intros Hw; inversion Hw ].
  - destruct t as [|a].
    + cbn [map app inst_of]. revert at_start.
      induction s as [|b s IHs]; intros at_start; rewrite matches_any.
      * unfold codes at 2. cbn [list_ascii_of_string map]. rewrite orb_false_r.
        rewrite IH. split.
        -- intros Hw. now apply (wild_any "").
        -- intros Hw.
           destruct (wild_any_inv _ _ Hw) as [Hw'|[b [s' [Heq _]]]];
             [ exact Hw' | discriminate ].
      * change (codes (String b s)) with (N_of_ascii b :: codes s) at 2.
        cbv iota.
        change 10%N with (N_of_ascii newline). rewrite code_eqb.
        split.
        -- intros Hm. apply orb_true_iff in Hm. destruct Hm as [Hm|Hm].
           ++ apply IH in Hm. now apply (wild_any "").
           ++ apply andb_true_iff in Hm. destruct Hm as [Hb Hm].
              apply negb_true_iff in Hb. apply IHs in Hm.
              now apply wild_any_cons.
        -- intros Hw. apply orb_true_iff.
           destruct (wild_any_inv _ _ Hw) as [Hw'|[b' [s' [Heq [Hb Hw']]]]].
           ++ left. now apply IH.
           ++ right. injection Heq as <- <-. rewrite Hb. cbn [negb andb].
              now apply IHs.
    + cbn [map app inst_of regexp.matches]. destruct s as [|b s].
      * split; [ discriminate | intros Hw; inversion Hw ].
      * change (codes (String b s)) with (N_of_ascii b :: codes s).
        cbv iota. rewrite code_eqb. split.
        -- intros Hm. apply andb_true_iff in Hm. destruct Hm as [Hab Hm].
           apply Ascii.eqb_eq in Hab. subst b. constructor. now apply IH in Hm.
        -- intros Hw. inversion Hw; subst. rewrite Ascii.eqb_refl.
           now apply IH.
Qed.

Lemma search_anchored (ins : list regexp.inst) (rs : list N) :
  regexp.search (regexp.BeginText :: ins) false rs = false.
Proof. induction rs as [|r rs IH]; [ reflexivity | ]. cbn. exact IH. Qed.

(** The expression compiled for ASCII tokens matches an ASCII text when
    the tokens stand for the whole text. *)
Lemma MatchString_wild (ts : list token) (re : regexp.Regexp) (s : string) :
  ascii_tokens ts ->
  regexp.MustCompile ("^" ++ render ts ++ "$") = Ok re ->
  ascii_only s = true ->
  regexp.MatchString re s = true <-> wild ts s.
Proof.
  intros Hts Hre Hs. unfold regexp.MatchString.
  rewrite (MustCompile_ascii ts re Hts Hre), (runes_ascii s _ Hs (le_n _)).
  rewrite <- (matches_wild ts true s).
  destruct (codes s) as [|r rs]; cbn [regexp.search regexp.matches andb].
  - now rewrite orb_false_r.
  - now rewrite search_anchored, orb_false_r.
Qed.

Lemma NewPattern_pathless_raw (raw : string) (q : pathlessWildcardPattern.t) :
  NewPattern raw = Ok (PathlessWildcard q) ->
  pathlessWildcardPattern.rawPattern q = filepath.Clean raw.
Proof.
  unfold NewPattern. set (c := filepath.Clean raw).
  destruct (local c); [ discriminate | ].
  destruct (_ && String.eqb _ _); [ discriminate | ].
  destruct (strings.Contains c sep && strings.Contains c "**").
  { destruct (regexp.MustCompile _); discriminate. }
  destruct (strings.Contains c "*"); [ destruct (negb _) | ].
  - destruct (regexp.MustCompile _); [ | discriminate ].
    intros Hq. apply Ok_inj in Hq. injection Hq as <-. reflexivity.
  - discriminate.
  - destruct (strings.Contains c sep && strings.HasPrefix c sep);
      [ destruct (strings.HasSuffix (drop 1 c) sep) | ]; discriminate.
Qed.

Lemma NewPattern_double_raw (raw : string) (q : doubleWildcardPattern.t) :
  NewPattern raw = Ok (DoubleWildcard q) ->
  doubleWildcardPattern.rawPattern q = filepath.Clean raw.
Proof.
  unfold NewPattern. set (c := filepath.Clean raw).
  destruct (local c); [ discriminate | ].
  destruct (_ && String.eqb _ _); [ discriminate | ].
  destruct (strings.Contains c sep && strings.Contains c "**").
  { destruct (regexp.MustCompile _); [ | discriminate ].
    intros Hq. apply Ok_inj in Hq. injection Hq as <-. reflexivity. }
  destruct (strings.Contains c "*"); [ destruct (negb _) | ].
  - destruct (regexp.MustCompile _); discriminate.
  - discriminate.
  - destruct (strings.Contains c sep && strings.HasPrefix c sep);
      [ destruct (strings.HasSuffix (drop 1 c) sep) | ]; discriminate.
Qed.

Lemma matched_true (pattern name : string) :
  matched pattern name = true <-> filepath.Match pattern name = Some true.
Proof.
  unfold matched. destruct (filepath.Match pattern name) as [[|]|];
    split; congruence.
Qed.

(** What a pathless-wildcard pattern of ASCII characters matches: the
    names that [filepath.Match] matches against the cleaned pattern, and
    the names whose last element is the pattern with every star standing
    for a run of characters, among the names whose last element is made of
    ASCII characters. *)
Theorem pathless_wildcard_semantics (raw : string)
  (q : pathlessWildcardPattern.t) (name : string) :
  NewPattern raw = Ok (PathlessWildcard q) ->
  ascii_only (filepath.Clean raw) = true ->
  ascii_only (filepath.Base name) = true ->
  Pattern.Match (PathlessWildcard q) name = Ok true
  <-> filepath.Match (filepath.Clean raw) name = Some true
      \/ wild (stars (filepath.Clean raw)) (filepath.Base name).
Proof.
  intros Hq Hc Hname.
  destruct (NewPattern_pathless raw q Hq) as [_ Hre].
  pose proof (MatchString_wild _ _ (filepath.Base name)
                (stars_ascii _ Hc) Hre Hname) as Hwild.
  cbn [Pattern.Match pattern_Pattern]. unfold pathlessWildcardPattern.Match.
  rewrite (NewPattern_pathless_raw raw q Hq), <- Hwild, <- matched_true.
  split.
  - intros Hm. apply Ok_inj in Hm. now apply orb_true_iff.
  - intros Hm. f_equal. now apply orb_true_iff.
Qed.

(** The pattern [test*] matches [a/b/test_x], whose last element begins
    with [test]. *)
Lemma pathless_wildcard_semantics_witness :
  exists q,
    NewPattern "test*" = Ok (PathlessWildcard q)
    /\ Pattern.Match (PathlessWildcard q) "a/b/test_x" = Ok true.
Proof.
  pose (q := match NewPattern "test*" with
             | Ok (PathlessWildcard q) => q
             | _ => pathlessWildcardPattern.mk "" (regexp.mkRegexp "" [])
             end).
  assert (Hq : NewPattern "test*" = Ok (PathlessWildcard q))
    by (vm_compute; reflexivity).
  exists q. split; [ exact Hq | ].
  apply (pathless_wildcard_semantics "test*" q "a/b/test_x" Hq);
    [ vm_compute; reflexivity | vm_compute; reflexivity | ].
  right. cbv. repeat apply wild_char.
  apply (wild_any "_x" [] ""); [ reflexivity | constructor ].
Defined.

(** What a double-wildcard pattern of ASCII characters matches: the names
    that [filepath.Match] matches against the cleaned pattern, and the
    names that are the pattern with every pair of stars standing for a run
    of characters, separators included, and a star left alone standing for
    itself, among the names made of ASCII characters. *)
Theorem double_wildcard_semantics (raw : string)
  (q : doubleWildcardPattern.t) (name : string) :
  NewPattern raw = Ok (DoubleWildcard q) ->
  ascii_only (filepath.Clean raw) = true ->
  ascii_only name = true ->
  Pattern.Match (DoubleWildcard q) name = Ok true
  <-> filepath.Match (filepath.Clean raw) name = Some true
      \/ wild (double_stars (filepath.Clean raw)) name.
Proof.
  intros Hq Hc Hname.
  destruct (NewPattern_double raw q Hq) as [_ Hre].
  pose proof (MatchString_wild _ _ name (double_stars_ascii _ Hc) Hre Hname)
    as Hwild.
  cbn [Pattern.Match pattern_Pattern]. unfold doubleWildcardPattern.Match.
  rewrite (NewPattern_double_raw raw q Hq), <- Hwild, <- matched_true.
  split.
  - intros Hm. apply Ok_inj in Hm. now apply orb_true_iff.
  - intros Hm. f_equal. now apply orb_true_iff.
Qed.

(** The pattern [docs/**/*.md] matches [docs/a/b/*.md], where the star
    left alone stands for itself. *)
Lemma double_wildcard_semantics_witness :
  exists q,
    NewPattern "docs/**/*.md" = Ok (DoubleWildcard q)
    /\ Pattern.Match (DoubleWildcard q) "docs/a/b/*.md" = Ok true.
Proof.
  pose (q := match NewPattern "docs/**/*.md" with
             | Ok (DoubleWildcard q) => q
             | _ => doubleWildcardPattern.mk "" (regexp.mkRegexp "" [])
             end).
  assert (Hq : NewPattern "docs/**/*.md" = Ok (DoubleWildcard q))
    by (vm_compute; reflexivity).
  exists q. split; [ exact Hq | ].
  apply (double_wildcard_semantics "docs/**/*.md" q "docs/a/b/*.md" Hq);
    [ vm_compute; reflexivity | vm_compute; reflexivity | ].
  right. cbv. repeat apply wild_char.
  apply (wild_any "a/b" _ "/*.md"); [ reflexivity | ].
  repeat apply wild_char. constructor.
Defined.

(** ** Pruning with a pathful-wildcard pattern *)

Lemma Contains_star_occurs (s : string) : strings.Contains s "*" = occurs "*" s.
Proof. exact (Contains_occurs "*" s). Qed.

(** A pathful-wildcard pattern with one star is held against a directory
    as against a file: a directory of one element neither begins with
    what stands before the star nor ends with what stands after it, a
    separator being in one of the two, and so [HasPrefix] prunes every
    such directory, while the files that begin and end as the pattern
    asks are allowed. *)
Theorem pathful_pattern_pruned_yet_allowed (raw pre suf d filename : string)
  (q : pathfulWildcardPattern.t) :
  NewPattern raw = Ok (PathfulWildcard q) ->
  filepath.Clean raw = pre ++ "*" ++ suf ->
  occurs "*" pre = false -> occurs "*" suf = false ->
  strings.Contains (filepath.Clean raw) ":" = false ->
  strings.Contains d sep = false -> strings.Contains d ":" = false ->
  strings.Contains (filepath.Clean filename) ":" = false ->
  strings.HasPrefix (filepath.Clean filename) pre = true ->
  strings.HasSuffix (filepath.Clean filename) suf = true ->
  exists f,
    New [raw] [] = Ok f
    /\ Filter.HasPrefix (Some f) d = Ok false
    /\ Filter.Allows (Some f) filename = Ok true.
Proof.
  intros Hq Hclean Hpre Hsuf Hcolon Hd Hdcolon Hncolon Hbegin Hend.
  exists (Filter.mk [PathfulWildcard q] []).
  split. { unfold New. cbn [convertToPatterns]. rewrite Hq. reflexivity. }
  destruct (NewPattern_pathful_fields raw q Hq) as [Hfields [_ Hsep]].
  assert (Hcut : strings.cut "*" (filepath.Clean raw) = Some (pre, suf)).
  { rewrite Hclean. exact (cut_first_byte "*" pre suf Hpre). }
  rewrite SplitList_single in Hfields; [ | | assumption ].
  2:{ rewrite Hclean. destruct pre; discriminate. }
  assert (HP : Pattern.HasPrefix (PathfulWildcard q) d = Ok false).
  { cbn [Pattern.HasPrefix pattern_Pattern].
    unfold pathfulWildcardPattern.HasPrefix.
    rewrite Hfields, (partial_single _ pre suf d Hcut Hdcolon).
    rewrite Contains_star_occurs, Hsuf. cbn [orb bind].
    destruct d as [|x d]; [ reflexivity | ]. cbn [is_empty orb].
    destruct (strings.HasPrefix (String x d) pre) eqn:HA; [ | reflexivity ].
    destruct (strings.HasSuffix (String x d) suf) eqn:HB; [ | reflexivity ].
    exfalso. apply HasPrefix_starts in HA. destruct HA as [u HA].
    apply HasSuffix_ends_with in HB. destruct HB as [v HB].
    rewrite Contains_sep_has_sep in Hd, Hsep.
    rewrite Hclean, !has_sep_append in Hsep.
    pose proof Hd as Hd'. rewrite HA, has_sep_append in Hd.
    rewrite HB, has_sep_append in Hd'.
    apply orb_false_iff in Hd. apply orb_false_iff in Hd'.
    destruct Hd as [Hd _], Hd' as [_ Hd'].
    rewrite Hd, Hd' in Hsep. discriminate. }
  assert (HM : Pattern.Match (PathfulWildcard q) (filepath.Clean filename)
               = Ok true).
  { cbn [Pattern.Match pattern_Pattern].
    unfold pathfulWildcardPattern.Match.
    rewrite Hfields, (partial_single _ pre suf _ Hcut Hncolon).
    rewrite Hbegin, Hend, !orb_true_r. cbn [andb bind].
    now rewrite String.eqb_refl. }
  split.
  - rewrite HasPrefix_first_turn.
    cbn [Filter.exclude Filter.include Filter.first bind List.length Nat.eqb].
    rewrite HP. cbn [bind]. now rewrite (Split_no_sep d Hd).
  - unfold Filter.Allows, Filter.AllowsPattern.
    cbn [Filter.include Filter.exclude List.length Nat.add Nat.eqb Nat.ltb
           Nat.leb Filter.first].
    rewrite HM. reflexivity.
Qed.

(** With the include pattern [sub/*.txt], the directory [sub] is pruned
    and the file [sub/a.txt] is allowed. *)
Lemma pathful_pattern_pruned_yet_allowed_witness :
  exists f,
    New ["sub/*.txt"] [] = Ok f
    /\ Filter.HasPrefix (Some f) "sub" = Ok false
    /\ Filter.Allows (Some f) "sub/a.txt" = Ok true.
Proof.
  apply (pathful_pattern_pruned_yet_allowed "sub/*.txt" "sub/" ".txt" "sub"
           "sub/a.txt" (pathfulWildcardPattern.mk ["sub/*.txt"]));
    vm_compute; reflexivity.
Defined.

(** ** Pruning with a rooted pattern *)

Lemma fill_elements (s : string) :
  forall k, String.length s <= k -> strings.fill k sep s = filepath.elements s.
Proof.
  induction s as [|c rest IH]; intros k Hk.
  - destruct k; reflexivity.
  - destruct k as [|k]; [ simpl in Hk; lia | ].
    assert (Hk' : String.length rest <= k) by (simpl in Hk; lia).
    cbn [strings.fill filepath.elements]. rewrite cut_cons.
    unfold sep at 1. rewrite prefix_cons, prefix_nil, andb_true_r.
    unfold filepath.IsPathSeparator. rewrite (Ascii.eqb_sym c).
    destruct (Ascii.eqb filepath.Separator c).
    + cbn [sep String.length drop]. now rewrite (IH k Hk').
    + pose proof (IH (S k) (Nat.le_trans _ _ _ Hk' (Nat.le_succ_diag_r k)))
        as Hrest.
      cbn [strings.fill] in Hrest.
      destruct (strings.cut sep rest) as [[a b]|]; now rewrite <- Hrest.
Qed.

(** [Split] at the separator gives the path name elements. *)
Lemma Split_elements (s : string) : strings.Split s sep = filepath.elements s.
Proof. apply fill_elements. apply le_n. Qed.

Lemma elements_not_nil (s : string) : filepath.elements s <> [].
Proof.
  rewrite <- Split_elements. unfold strings.Split. apply fill_not_nil.
Qed.

Lemma elements_append_sep (a b : string) :
  filepath.elements (a ++ sep ++ b)
  = (filepath.elements a ++ filepath.elements b)%list.
Proof.
  induction a as [|c a IH]; [ reflexivity | ].
  cbn [append filepath.elements]. rewrite IH.
  destruct (filepath.IsPathSeparator c); [ reflexivity | ].
  pose proof (elements_not_nil a) as Hne.
  destruct (filepath.elements a) as [|e es]; [ contradiction | reflexivity ].
Qed.

Lemma string_append_cases (a x b y : string) :
  a ++ x = b ++ y -> (exists u, b = a ++ u) \/ (exists u, a = b ++ u).
Proof.
  revert b. induction a as [|c a IH]; intros b Heq.
  - left. now exists b.
  - destruct b as [|c' b].
    + right. now exists (String c a).
    + cbn [append] in Heq. injection Heq as <- Heq.
      destruct (IH b Heq) as [[u ->]|[u ->]]; [ left | right ]; now exists u.
Qed.

Lemma str_append_inv_head (a x y : string) : a ++ x = a ++ y -> x = y.
Proof.
  induction a as [|c a IH]; [ easy | ].
  cbn [append]. intros Heq. injection Heq as Heq. now apply IH.
Qed.

Section Walk.

Context {P : Type} `{Pattern.t P}.

(** Without exclude patterns the walk over the ancestors answers true as
    soon as one of them is a prefix for an include pattern. *)
Lemma HasPrefix_loop_included (f : Filter.t P) (parts : list string) (i j : nat) :
  Filter.exclude f = [] ->
  returns f (ancestors_from parts i) ->
  1 <= j <= i ->
  included f (strings.Join (firstn j parts) sep) ->
  Filter.HasPrefix_loop f parts i = Ok true.
Proof.
  intros Hexc Hret Hj Hinc. induction i as [|i IH]; [ lia | ].
  rewrite ancestors_from_S in Hret.
  cbn [Filter.HasPrefix_loop]. rewrite Hexc. cbn [Filter.first bind].
  destruct Hinc as [p [Hpin Hp]].
  destruct (Filter.include f) as [|p0 ps] eqn:Hf; [ contradiction | ].
  cbn [List.length Nat.eqb]. rewrite <- Hf in *.
  destruct (first_returns
              (fun p => Pattern.HasPrefix p (strings.Join (firstn (S i) parts) sep))
              (Filter.include f))
    as [[p' [Hg _]]|[Hg Hnone]].
  - intros q' Hq'. apply (Hret _ q'); [ now left | assumption ].
  - now rewrite Hg.
  - rewrite Hg. cbn [bind].
    destruct (Nat.eq_dec j (S i)) as [->|Hne].
    + rewrite (Hnone p Hpin) in Hp. discriminate.
    + apply IH; [ | lia ]. intros x q' Hin. apply Hret. now right.
Qed.

End Walk.

(** Pruning is sound for a rooted include pattern: in a filter with no
    exclude pattern, a directory that holds a path matched by a rooted
    include pattern without special characters is not pruned. *)
Theorem rooted_include_not_pruned (include : list string)
  (f : Filter.t pattern) (raw d t : string) (q : pathPrefixPattern.t) :
  New include [] = Ok f ->
  In raw include ->
  NewPattern raw = Ok (PathPrefix q) ->
  glob_free (filepath.Clean raw) = true ->
  strings.Contains d ":" = false ->
  Pattern.Match (PathPrefix q) (d ++ sep ++ t) = Ok true ->
  Filter.HasPrefix (Some f) d = Ok true.
Proof.
  intros Hnew Hin Hq Hg Hd Hm.
  destruct (New_lists _ _ _ Hnew) as [Hinc Hexc].
  apply Ok_inj in Hexc. symmetry in Hexc.
  destruct (convertToPatterns_In _ _ _ Hinc Hin) as [p [Hp Hpin]].
  rewrite Hq in Hp. apply Ok_inj in Hp. subst p.
  destruct (NewPattern_rooted raw q Hq) as [rel [Hc Hfields]].
  rewrite Hc in Hg.
  assert (Hcases : d ++ sep ++ t = rel
                   \/ (exists t', d ++ sep ++ t = rel ++ sep ++ t')
                   \/ d ++ sep ++ t = sep ++ rel).
  { rewrite Hfields in Hm. cbn [Pattern.Match pattern_Pattern] in Hm.
    apply Ok_inj in Hm. unfold pathPrefixPattern.Match, matched in Hm.
    cbn [pathPrefixPattern.rawPattern pathPrefixPattern.relative
           pathPrefixPattern.prefix] in Hm.
    rewrite (Match_glob_free _ (d ++ sep ++ t) Hg) in Hm.
    destruct (String.eqb_spec (d ++ sep ++ t) rel) as [Heq|_]; [ now left | ].
    destruct (strings.HasPrefix (d ++ sep ++ t) (rel ++ sep)) eqn:H1.
    { apply HasPrefix_starts in H1. destruct H1 as [t' H1].
      right. left. exists t'. now rewrite H1, str_append_assoc. }
    cbn [orb] in Hm. apply String.eqb_eq in Hm. now right; right. }
  assert (HP : forall a, Pattern.HasPrefix (PathPrefix q) a
                         = Ok (strings.HasPrefix rel a)).
  { intros a. now rewrite Hfields. }
  set (parts := filepath.elements d).
  assert (Hparts : 1 <= List.length parts).
  { pose proof (elements_not_nil d) as Hne. fold parts in Hne.
    destruct parts; [ contradiction | simpl; lia ]. }
  assert (Hfull : strings.Join (firstn (List.length parts) parts) sep = d).
  { rewrite firstn_all. unfold parts. rewrite <- Split_elements.
    apply Join_Split. }
  assert (Hj : exists j,
             1 <= j <= List.length parts
             /\ strings.HasPrefix rel (strings.Join (firstn j parts) sep) = true).
  { assert (Hhere : (exists u, rel = d ++ u) ->
                    exists j,
                      1 <= j <= List.length parts
                      /\ strings.HasPrefix rel (strings.Join (firstn j parts) sep)
                         = true).
    { intros Hu. exists (List.length parts). split; [ lia | ].
      rewrite Hfull. now apply HasPrefix_starts. }
    assert (Hbelow : forall a u,
               d = a ++ sep ++ u -> (exists v, rel = a ++ v) ->
               exists j,
                 1 <= j <= List.length parts
                 /\ strings.HasPrefix rel (strings.Join (firstn j parts) sep)
                    = true).
    { intros a u Hdu Hv. exists (List.length (filepath.elements a)).
      pose proof (elements_not_nil a) as Hne.
      unfold parts. rewrite Hdu, elements_append_sep, length_app.
      split; [ destruct (filepath.elements a); [ contradiction | simpl; lia ] | ].
      rewrite firstn_app, firstn_all, Nat.sub_diag. cbn [firstn].
      rewrite app_nil_r, <- Split_elements, Join_Split.
      now apply HasPrefix_starts. }
    destruct Hcases as [Heq|[[t' Heq]|Heq]].
    - apply Hhere. exists (sep ++ t). now rewrite <- Heq.
    - destruct (string_append_cases _ _ _ _ Heq) as [Hu|[u Hu]];
        [ now apply Hhere | ].
      rewrite Hu, str_append_assoc in Heq. apply str_append_inv_head in Heq.
      destruct u as [|c u].
      + apply Hhere. exists "". rewrite Hu. now rewrite !str_append_nil_r.
      + cbn [append sep] in Heq. injection Heq as -> _.
        apply (Hbelow rel u); [ exact Hu | ].
        exists "". now rewrite str_append_nil_r.
    - destruct d as [|c d'].
      + apply Hhere. now exists rel.
      + cbn [append sep] in Heq. injection Heq as -> _.
        apply (Hbelow "" d'); [ reflexivity | now exists rel ]. }
  destruct Hj as [j [Hj Hpre]].
  unfold Filter.HasPrefix. rewrite Split_elements. fold parts.
  apply (HasPrefix_loop_included f parts (List.length parts) j).
  - exact Hexc.
  - pose proof (New_HasPrefix_returns include [] f d Hnew Hd) as Hret.
    unfold ancestors in Hret. now rewrite Split_elements in Hret.
  - exact Hj.
  - exists (PathPrefix q). split; [ exact Hpin | ]. now rewrite HP, Hpre.
Qed.

(** With the include pattern [/docs/api], which matches
    [docs/api/v1/index.md], the directory [docs/api/v1] is not pruned. *)
Lemma rooted_include_not_pruned_witness :
  exists f,
    New ["/docs/api"] [] = Ok f
    /\ Filter.HasPrefix (Some f) "docs/api/v1" = Ok true.
Proof.
  pose (f := match New ["/docs/api"] [] with
             | Ok f => f
             | Panic => Filter.mk [] []
             end).
  assert (Hf : New ["/docs/api"] [] = Ok f) by (vm_compute; reflexivity).
  exists f. split; [ exact Hf | ].
  apply (rooted_include_not_pruned ["/docs/api"] f "/docs/api" "docs/api/v1"
           "index.md" (pathPrefixPattern.mk "/docs/api" "docs/api" "docs/api/")
           Hf).
  - now left.
  - vm_compute. reflexivity.
  - vm_compute. reflexivity.
  - vm_compute. reflexivity.
  - vm_compute. reflexivity.
Defined.

(** ** The local directory set *)

Lemma Clean_not_dot_slash (raw : string) : filepath.Clean raw <> "./".
Proof.
  destruct (is_empty raw) eqn:Hempty.
  { destruct raw; discriminate. }
  destruct (String.prefix "/" raw) eqn:Hr.
  - rewrite (Clean_rooted raw Hr). discriminate.
  - rewrite (Clean_not_rooted raw Hempty Hr). cbv zeta.
    set (out := fold_left (filepath.clean_step false) (filepath.elements raw) []).
    assert (Hw : written false out).
    { apply clean_fold_written; [ apply elements_no_sep | apply written_nil ]. }
    destruct (is_empty (strings.Join (List.rev out) "/")); [ discriminate | ].
    intros Heq.
    apply (Join_kept_no_trailing_sep (List.rev out)).
    + apply Forall_rev. now destruct Hw.
    + exists ".". exact Heq.
Qed.

(** [NewPattern] returns the no-op matcher exactly for the raw patterns
    that are cleaned to [*], [*.*], [.] or [.\]; the key [./] of the local
    directory set is never found, [Clean] returning no such path. *)
Theorem noOp_patterns (raw : string) :
  (exists n, NewPattern raw = Ok (NoOp n))
  <-> filepath.Clean raw = "*" \/ filepath.Clean raw = "*.*"
      \/ filepath.Clean raw = "." \/ filepath.Clean raw = ".\".
Proof.
  split.
  - intros [n Hn]. revert Hn. unfold NewPattern.
    set (c := filepath.Clean raw).
    destruct (local c) eqn:Hlocal.
    + intros _. pose proof (Clean_not_dot_slash raw) as Hne. fold c in Hne.
      destruct (local_cases c Hlocal) as [Hc|[Hc|[Hc|[Hc|Hc]]]]; auto.
      contradiction.
    + destruct (_ && String.eqb _ _); [ discriminate | ].
      destruct (strings.Contains c sep && strings.Contains c "**").
      { destruct (regexp.MustCompile _); discriminate. }
      destruct (strings.Contains c "*"); [ destruct (negb _) | ].
      * destruct (regexp.MustCompile _); discriminate.
      * discriminate.
      * destruct (strings.Contains c sep && strings.HasPrefix c sep);
          [ destruct (strings.HasSuffix (drop 1 c) sep) | ]; discriminate.
  - intros Hc. unfold NewPattern.
    replace (local (filepath.Clean raw)) with true; [ eauto | ].
    destruct Hc as [->|[->|[->| ->]]]; reflexivity.
Qed.

(** ** Excluding a directory by a plain pattern *)

Lemma hits_In {P : Type} `{Pattern.t P} (ps : list P) (p : P) (name : string) :
  In p ps -> Pattern.Match p name = Ok true -> hits ps name = true.
Proof.
  intros Hin Hm. unfold hits. apply existsb_exists. exists p.
  split; [ assumption | now rewrite Hm ].
Qed.

(** A plain pattern without special characters that matches a path matches
    every path beneath it, and a filter that excludes the pattern allows
    nothing beneath a path that the pattern matches. *)
Theorem plain_exclude_covers_subtree (include exclude : list string)
  (f : Filter.t pattern) (raw a t filename : string) (q : pathPattern.t) :
  New include exclude = Ok f ->
  In raw exclude ->
  NewPattern raw = Ok (Path q) ->
  glob_free (filepath.Clean raw) = true ->
  Pattern.Match (Path q) a = Ok true ->
  filepath.Clean filename = a ++ sep ++ t ->
  strings.Contains (filepath.Clean filename) ":" = false ->
  Pattern.Match (Path q) (a ++ sep ++ t) = Ok true
  /\ Filter.Allows (Some f) filename = Ok false.
Proof.
  intros Hnew Hin Hq Hg Ha Hname Hcolon.
  pose proof (NewPattern_Path raw q Hq) as Hfields. cbv zeta in Hfields.
  set (c := filepath.Clean raw) in *.
  assert (HM : forall name,
             Pattern.Match (Path q) name
             = Ok (if strings.HasPrefix name (c ++ sep)
                      || strings.HasSuffix name (sep ++ c)
                      || strings.Contains name (sep ++ c ++ sep)
                   then true else String.eqb c name)).
  { intros name. rewrite Hfields. cbn [Pattern.Match pattern_Pattern].
    unfold pathPattern.Match, matched. cbn [pathPattern.rawPattern].
    now rewrite (Match_glob_free c name Hg). }
  assert (Hbelow : Pattern.Match (Path q) (a ++ sep ++ t) = Ok true).
  { rewrite HM in Ha |- *. apply Ok_inj in Ha. f_equal.
    destruct (strings.HasPrefix a (c ++ sep)) eqn:H1.
    { apply HasPrefix_starts in H1. destruct H1 as [u Hu].
      assert (Hb : strings.HasPrefix (a ++ sep ++ t) (c ++ sep) = true).
      { apply HasPrefix_starts. exists (u ++ sep ++ t).
        now rewrite Hu, !str_append_assoc. }
      now rewrite Hb. }
    destruct (strings.HasSuffix a (sep ++ c)) eqn:H2.
    { apply HasSuffix_ends_with in H2. destruct H2 as [u Hu].
      assert (Hb : strings.Contains (a ++ sep ++ t) (sep ++ c ++ sep) = true).
      { apply Contains_substring. exists u, t.
        now rewrite Hu, !str_append_assoc. }
      now rewrite Hb, orb_true_r. }
    destruct (strings.Contains a (sep ++ c ++ sep)) eqn:H3.
    { apply Contains_substring in H3. destruct H3 as [u [v Hu]].
      assert (Hb : strings.Contains (a ++ sep ++ t) (sep ++ c ++ sep) = true).
      { apply Contains_substring. exists u, (v ++ sep ++ t).
        now rewrite Hu, !str_append_assoc. }
      now rewrite Hb, orb_true_r. }
    cbn [orb] in Ha. apply String.eqb_eq in Ha.
    assert (Hb : strings.HasPrefix (a ++ sep ++ t) (c ++ sep) = true).
    { apply HasPrefix_starts. exists t. now rewrite <- Ha, str_append_assoc. }
    now rewrite Hb. }
  split; [ exact Hbelow | ].
  destruct (New_lists _ _ _ Hnew) as [_ Hexc].
  destruct (convertToPatterns_In _ _ _ Hexc Hin) as [p [Hp Hpin]].
  rewrite Hq in Hp. apply Ok_inj in Hp. subst p.
  destruct f as [inc exc]. cbn [Filter.include Filter.exclude] in *.
  destruct (AllowsPattern_hits inc exc filename) as [rule Hrule].
  { intros p Hp. now apply (New_returns _ _ _ _ Hnew Hcolon p). }
  unfold Filter.Allows. rewrite Hrule. cbn [bind snd]. f_equal.
  rewrite Hname, (hits_In exc (Path q) _ Hpin Hbelow). apply andb_false_r.
Qed.

(** The filter that excludes [build] allows nothing beneath [src/build]. *)
Lemma plain_exclude_covers_subtree_witness :
  exists f,
    New ["src"] ["build"] = Ok f
    /\ Filter.Allows (Some f) "src/build/obj/a.o" = Ok false.
Proof.
  pose (f := match New ["src"] ["build"] with
             | Ok f => f
             | Panic => Filter.mk [] []
             end).
  assert (Hf : New ["src"] ["build"] = Ok f) by (vm_compute; reflexivity).
  exists f. split; [ exact Hf | ].
  apply (plain_exclude_covers_subtree ["src"] ["build"] f "build" "src/build"
           "obj/a.o" "src/build/obj/a.o"
           (pathPattern.mk "build" "build/" "/build" "/build/") Hf).
  - now left.
  - vm_compute. reflexivity.
  - vm_compute. reflexivity.
  - vm_compute. reflexivity.
  - vm_compute. reflexivity.
  - vm_compute. reflexivity.
Defined.

(** ** An expression is compiled only from valid UTF-8 *)

Lemma parse_any (fuel : nat) (rest : string) (prog : list regexp.inst) :
  regexp.parse fuel (".*" ++ rest) = Some prog ->
  exists fuel' prog', regexp.parse fuel' rest = Some prog'.
Proof.
  destruct fuel as [|fuel]; [ discriminate | ].
  cbn [append regexp.parse]. cbn [Ascii.eqb Bool.eqb].
  destruct (regexp.starts_with_repeat_op rest); [ discriminate | ].
  destruct (regexp.parse fuel rest) as [ins|] eqn:Hrest; [ eauto | discriminate ].
Qed.

Lemma parse_ascii_char (a : ascii) (fuel : nat) (rest : string)
  (prog : list regexp.inst) :
  (N_of_ascii a <? 128)%N = true ->
  regexp.parse fuel (render1 (TChar a) ++ rest) = Some prog ->
  exists fuel' prog', regexp.parse fuel' rest = Some prog'.
Proof.
  intros Ha. destruct fuel as [|fuel].
  { cbn [render1]. destruct (regexp.special a); discriminate. }
  cbn [render1]. destruct (regexp.special a) eqn:Hsp.
  - cbn [append regexp.parse]. cbn [Ascii.eqb Bool.eqb].
    destruct (_ && _); [ | discriminate ].
    destruct (regexp.parse fuel rest) as [ins|] eqn:Hrest; [ eauto | discriminate ].
  - destruct (not_special a Hsp) as [H1 [H2 [H3 [H4 _]]]].
    cbn [append regexp.parse]. rewrite H1, H2, H3, H4, Hsp.
    rewrite (decode_ascii a _ Ha). cbn [drop].
    destruct (_ && _); [ discriminate | ].
    destruct (regexp.starts_with_repeat_op rest); [ discriminate | ].
    destruct (regexp.parse fuel rest) as [ins|] eqn:Hrest; [ eauto | discriminate ].
Qed.

Lemma parse_high_char (a : ascii) (fuel : nat) (rest : string)
  (prog : list regexp.inst) :
  (128 <=? N_of_ascii a)%N = true ->
  regexp.parse fuel (String a rest) = Some prog ->
  exists r k fuel' prog',
    utf8.DecodeRuneInString (String a rest) = (r, S k)
    /\ N.eqb r utf8.RuneError && (S k =? 1) = false
    /\ high_bytes k rest = true
    /\ regexp.parse fuel' (drop k rest) = Some prog'.
Proof.
  intros Ha. destruct fuel as [|fuel]; [ discriminate | ].
  pose proof (high_byte_not_special a Ha) as Hsp.
  destruct (not_special a Hsp) as [H1 [H2 [H3 [H4 _]]]].
  cbn [regexp.parse]. rewrite H1, H2, H3, H4, Hsp.
  destruct (utf8.DecodeRuneInString (String a rest)) as [r n] eqn:Hd.
  destruct (decode_width a rest r n Hd) as [k [-> Hk]].
  destruct (N.eqb r utf8.RuneError && (S k =? 1)) eqn:Herr; [ discriminate | ].
  cbn [drop].
  destruct (regexp.starts_with_repeat_op (drop k rest)); [ discriminate | ].
  destruct (regexp.parse fuel (drop k rest)) as [ins|] eqn:Hrest;
    [ | discriminate ].
  intros _. exists r, k, fuel, ins. auto.
Qed.

Lemma high_bytes_ascii_head (k : nat) (a : ascii) (s : string) :
  (N_of_ascii a <? 128)%N = true -> high_bytes (S k) (String a s) = false.
Proof.
  intros Ha. cbn [high_bytes]. apply N.ltb_lt in Ha.
  replace (128 <=? N_of_ascii a)%N with false; [ reflexivity | ].
  symmetry. apply N.leb_gt. exact Ha.
Qed.

Lemma render1_ascii_head (t : token) (rest : string) :
  match t with TAny => True | TChar a => (N_of_ascii a <? 128)%N = true end ->
  exists b s, render1 t ++ rest = String b s /\ (N_of_ascii b <? 128)%N = true.
Proof.
  destruct t as [|a]; cbn [render1].
  - intros _. eexists. eexists. split; reflexivity.
  - intros Ha. destruct (regexp.special a);
      eexists; eexists; (split; [ reflexivity | ]); [ reflexivity | exact Ha ].
Qed.

Lemma high_or_ascii (a : ascii) :
  (N_of_ascii a <? 128)%N = false -> (128 <=? N_of_ascii a)%N = true.
Proof. intros Ha. apply N.ltb_ge in Ha. now apply N.leb_le. Qed.

(** The bytes of a rune that follow its first byte stand for themselves in
    the expression of a pathless-wildcard pattern. *)
Lemma stars_high_prefix (k : nat) :
  forall t,
    high_bytes k (render (stars t) ++ "$") = true ->
    take k (render (stars t) ++ "$") = take k t
    /\ drop k (render (stars t) ++ "$") = render (stars (drop k t)) ++ "$".
Proof.
  induction k as [|k IH]; intros t Hk.
  - split; reflexivity.
  - destruct t as [|b t]; [ discriminate | ].
    cbn [stars] in Hk |- *. rewrite render_cons_end in Hk |- *.
    destruct (N_of_ascii b <? 128)%N eqn:Hb.
    + exfalso.
      destruct (render1_ascii_head
                  (if Ascii.eqb b "*" then TAny else TChar b)
                  (render (stars t) ++ "$")) as [x [s [Heq Hx]]].
      { now destruct (Ascii.eqb b "*"). }
      rewrite Heq, (high_bytes_ascii_head k x s Hx) in Hk. discriminate.
    + apply high_or_ascii in Hb.
      rewrite (high_byte_not_star b Hb) in Hk |- *.
      cbn [render1] in Hk |- *. rewrite (high_byte_not_special b Hb) in Hk |- *.
      cbn [append high_bytes take drop] in Hk |- *.
      apply andb_true_iff in Hk. destruct Hk as [_ Hk].
      destruct (IH t Hk) as [Htake Hdrop]. now rewrite Htake, Hdrop.
Qed.

Lemma double_stars_star_head (t rest : string) :
  exists b s,
    render (double_stars (String "*" t)) ++ rest = String b s
    /\ (N_of_ascii b <? 128)%N = true.
Proof.
  destruct t as [|b t]; [ eexists; eexists; split; reflexivity | ].
  rewrite double_stars_pair. cbn [Ascii.eqb Bool.eqb andb].
  destruct (Ascii.eqb b "*"); eexists; eexists; split; reflexivity.
Qed.

(** The same in the expression of a double-wildcard pattern. *)
Lemma double_stars_high_prefix (k : nat) :
  forall t,
    high_bytes k (render (double_stars t) ++ "$") = true ->
    take k (render (double_stars t) ++ "$") = take k t
    /\ drop k (render (double_stars t) ++ "$")
       = render (double_stars (drop k t)) ++ "$".
Proof.
  induction k as [|k IH]; intros t Hk.
  - split; reflexivity.
  - destruct t as [|b t]; [ discriminate | ].
    destruct (Ascii.eqb_spec b "*") as [->|Hstar].
    { exfalso. destruct (double_stars_star_head t "$") as [x [s [Heq Hx]]].
      rewrite Heq, (high_bytes_ascii_head k x s Hx) in Hk. discriminate. }
    apply Ascii.eqb_neq in Hstar.
    rewrite (double_stars_not_star b t Hstar) in Hk |- *.
    rewrite render_cons_end in Hk |- *.
    destruct (N_of_ascii b <? 128)%N eqn:Hb.
    + exfalso.
      destruct (render1_ascii_head (TChar b) (render (double_stars t) ++ "$") Hb)
        as [x [s [Heq Hx]]].
      rewrite Heq, (high_bytes_ascii_head k x s Hx) in Hk. discriminate.
    + apply high_or_ascii in Hb.
      cbn [render1] in Hk |- *. rewrite (high_byte_not_special b Hb) in Hk |- *.
      cbn [append high_bytes take drop] in Hk |- *.
      apply andb_true_iff in Hk. destruct Hk as [_ Hk].
      destruct (IH t Hk) as [Htake Hdrop]. now rewrite Htake, Hdrop.
Qed.

Lemma Valid_ascii (a : ascii) (t : string) :
  (N_of_ascii a <? 128)%N = true -> Valid t -> Valid (String a t).
Proof.
  intros Ha Ht.
  apply (Valid_rune a t (N_of_ascii a) 0); [ now apply decode_ascii | | exact Ht ].
  apply andb_false_iff. left. apply N.eqb_neq.
  apply N.ltb_lt in Ha. unfold utf8.RuneError. lia.
Qed.

(** A rune read in the expression is a rune of the pattern. *)
Lemma Valid_high (a : ascii) (t T : string) (r : N) (k : nat) :
  utf8.DecodeRuneInString (String a T) = (r, S k) ->
  N.eqb r utf8.RuneError && (S k =? 1) = false ->
  take k T = take k t ->
  Valid (drop k t) -> Valid (String a t).
Proof.
  intros Hd Herr Htake Hrest.
  destruct (decode_prefix a T r k (drop k t) Hd Herr) as [Hd' _].
  rewrite Htake, take_drop in Hd'.
  exact (Valid_rune a t r k Hd' Herr Hrest).
Qed.

(** A pathless-wildcard pattern whose expression is parsed is valid
    UTF-8. *)
Lemma parse_stars_Valid (n : nat) :
  forall c fuel prog,
    String.length c <= n ->
    regexp.parse fuel (render (stars c) ++ "$") = Some prog -> Valid c.
Proof.
  induction n as [|n IH]; intros c fuel prog Hlen Hparse.
  { destruct c; [ constructor | simpl in Hlen; lia ]. }
  destruct c as [|a t]; [ constructor | ]. simpl in Hlen.
  cbn [stars] in Hparse. rewrite render_cons_end in Hparse.
  destruct (N_of_ascii a <? 128)%N eqn:Ha.
  - apply (Valid_ascii a t Ha).
    destruct (Ascii.eqb a "*").
    + destruct (parse_any _ _ _ Hparse) as [fuel' [prog' Hrest]].
      apply (IH t fuel' prog'); [ lia | exact Hrest ].
    + destruct (parse_ascii_char a _ _ _ Ha Hparse) as [fuel' [prog' Hrest]].
      apply (IH t fuel' prog'); [ lia | exact Hrest ].
  - apply high_or_ascii in Ha.
    rewrite (high_byte_not_star a Ha) in Hparse. cbn [render1] in Hparse.
    rewrite (high_byte_not_special a Ha) in Hparse. cbn [append] in Hparse.
    destruct (parse_high_char a _ _ _ Ha Hparse)
      as [r [k [fuel' [prog' [Hd [Herr [Hk Hrest]]]]]]].
    destruct (stars_high_prefix k t Hk) as [Htake Hdrop].
    apply (Valid_high a t _ r k Hd Herr Htake).
    rewrite Hdrop in Hrest.
    apply (IH (drop k t) fuel' prog'); [ rewrite str_length_drop; lia | exact Hrest ].
Qed.

(** A double-wildcard pattern whose expression is parsed is valid
    UTF-8. *)
Lemma parse_double_stars_Valid (n : nat) :
  forall c fuel prog,
    String.length c <= n ->
    regexp.parse fuel (render (double_stars c) ++ "$") = Some prog -> Valid c.
Proof.
  induction n as [|n IH]; intros c fuel prog Hlen Hparse.
  { destruct c; [ constructor | simpl in Hlen; lia ]. }
  destruct c as [|a t]; [ constructor | ]. simpl in Hlen.
  destruct (Ascii.eqb_spec a "*") as [->|Hstar].
  - apply (Valid_ascii "*" t eq_refl).
    destruct t as [|b t']; [ constructor | ].
    rewrite double_stars_pair in Hparse. cbn [Ascii.eqb Bool.eqb andb] in Hparse.
    destruct (Ascii.eqb_spec b "*") as [->|Hb].
    + apply (Valid_ascii "*" t' eq_refl).
      rewrite render_cons_end in Hparse.
      destruct (parse_any _ _ _ Hparse) as [fuel' [prog' Hrest]].
      apply (IH t' fuel' prog'); [ simpl in Hlen; lia | exact Hrest ].
    + rewrite render_cons_end in Hparse.
      destruct (parse_ascii_char "*" _ _ _ eq_refl Hparse)
        as [fuel' [prog' Hrest]].
      apply (IH (String b t') fuel' prog'); [ lia | exact Hrest ].
  - apply Ascii.eqb_neq in Hstar.
    rewrite (double_stars_not_star a t Hstar), render_cons_end in Hparse.
    destruct (N_of_ascii a <? 128)%N eqn:Ha.
    + apply (Valid_ascii a t Ha).
      destruct (parse_ascii_char a _ _ _ Ha Hparse) as [fuel' [prog' Hrest]].
      apply (IH t fuel' prog'); [ lia | exact Hrest ].
    + apply high_or_ascii in Ha. cbn [render1] in Hparse.
      rewrite (high_byte_not_special a Ha) in Hparse. cbn [append] in Hparse.
      destruct (parse_high_char a _ _ _ Ha Hparse)
        as [r [k [fuel' [prog' [Hd [Herr [Hk Hrest]]]]]]].
      destruct (double_stars_high_prefix k t Hk) as [Htake Hdrop].
      apply (Valid_high a t _ r k Hd Herr Htake).
      rewrite Hdrop in Hrest.
      apply (IH (drop k t) fuel' prog');
        [ rewrite str_length_drop; lia | exact Hrest ].
Qed.

Lemma MustCompile_anchored (body : string) (re : regexp.Regexp) :
  regexp.MustCompile ("^" ++ body) = Ok re ->
  exists fuel prog, regexp.parse fuel body = Some prog.
Proof.
  unfold regexp.MustCompile, regexp.Compile.
  cbn [append String.length regexp.parse]. cbn [Ascii.eqb Bool.eqb].
  destruct (regexp.parse (String.length body) body) as [ins|] eqn:Hbody;
    [ eauto | discriminate ].
Qed.

(** [NewPattern] and UTF-8: a pattern is returned whenever the cleaned raw
    pattern is valid UTF-8, and a pathless- or double-wildcard pattern,
    for which an expression is compiled, is returned only then: on such
    a pattern that is not valid UTF-8 [regexp.MustCompile] panics. *)
Theorem NewPattern_utf8 (raw : string) :
  (Valid (filepath.Clean raw) -> exists p, NewPattern raw = Ok p)
  /\ (forall p,
        NewPattern raw = Ok p ->
        match p with
        | PathlessWildcard _ | DoubleWildcard _ => Valid (filepath.Clean raw)
        | _ => True
        end).
Proof.
  split; [ apply NewPattern_valid | ].
  intros p Hp. destruct p as [q|q|q|q|q|q|n]; try exact I.
  - destruct (NewPattern_pathless raw q Hp) as [_ Hre].
    destruct (MustCompile_anchored _ _ Hre) as [fuel [prog Hparse]].
    exact (parse_stars_Valid _ _ fuel prog (le_n _) Hparse).
  - destruct (NewPattern_double raw q Hp) as [_ Hre].
    destruct (MustCompile_anchored _ _ Hre) as [fuel [prog Hparse]].
    exact (parse_double_stars_Valid _ _ fuel prog (le_n _) Hparse).
Qed.
